(** * Docket ingestion: a shallow embedding of [ingest.py]

    The development follows the module leaf-first: Python string
    primitives, the backtracking matchers behind the regular expressions
    the module uses, the normalizers, the date resolver, the party-list
    parser, the relational store with the entity get-or-create protocol,
    the record processor, the run tracker and the pipeline driver.

    Modelling conventions.
    - Strings are ASCII: [str.upper], [str.lower], [str.isspace], [\s] and
      [\d] act on code points below 128 and leave the others alone.
    - A docket is a Python [dict]; its values are JSON strings or [null]
      (numbers, booleans, arrays and nested objects are outside the model).
    - A table is a finite map keyed by the column set its statements use
      as conflict target or lookup key; the error table, which is written
      by an UPDATE followed by an INSERT, is a list of rows.
    - Logging calls write to the log only and are left out. *)

From Stdlib Require Import Ascii String List Arith Lia.
From stdpp Require Import base option list gmap strings pretty.

Set Warnings "-abstract-large-number".

Local Open Scope string_scope.
Local Open Scope list_scope.

(** ** Python string primitives *)

Module Py.

(** [str.isspace] on one ASCII character: TAB, LF, VT, FF, CR, the four
    separators FS, GS, RS, US, and the space. *)
Definition isspace (c : ascii) : bool :=
  match c with
  | "009" | "010" | "011" | "012" | "013"
  | "028" | "029" | "030" | "031" | " " => true
  | _ => false
  end%char.

Definition isdigit (c : ascii) : bool :=
  let n := nat_of_ascii c in (48 <=? n)%nat && (n <=? 57)%nat.

Definition digit_value (c : ascii) : nat := nat_of_ascii c - 48.

Definition lower_char (c : ascii) : ascii :=
  let n := nat_of_ascii c in
  if (65 <=? n)%nat && (n <=? 90)%nat then ascii_of_nat (n + 32) else c.

Definition upper_char (c : ascii) : ascii :=
  let n := nat_of_ascii c in
  if (97 <=? n)%nat && (n <=? 122)%nat then ascii_of_nat (n - 32) else c.

Fixpoint map_chars (f : ascii -> ascii) (s : string) : string :=
  match s with
  | "" => ""
  | String c s' => String (f c) (map_chars f s')
  end.

Definition lower : string -> string := map_chars lower_char.
Definition upper : string -> string := map_chars upper_char.

Fixpoint filter_chars (keep : ascii -> bool) (s : string) : string :=
  match s with
  | "" => ""
  | String c s' =>
      if keep c then String c (filter_chars keep s') else filter_chars keep s'
  end.

Fixpoint all_chars (p : ascii -> bool) (s : string) : bool :=
  match s with
  | "" => true
  | String c s' => p c && all_chars p s'
  end.

Fixpoint lstrip (s : string) : string :=
  match s with
  | "" => ""
  | String c s' => if isspace c then lstrip s' else s
  end.

Definition rstrip (s : string) : string := String.rev (lstrip (String.rev s)).

(** [s.strip()] *)
Definition strip (s : string) : string := rstrip (lstrip s).

(** [s.split()]: the maximal runs of non-whitespace characters. *)
Fixpoint split_ws (s : string) : list string :=
  match s with
  | "" => []
  | String c s' =>
      if isspace c then split_ws s'
      else match s' with
           | "" => [String c ""]
           | String d _ =>
               if isspace d then String c "" :: split_ws s'
               else match split_ws s' with
                    | w :: ws => String c w :: ws
                    | [] => [String c ""]
                    end
           end
  end.

(** [s.split(sep)] for a separator class of single characters (also
    [re.split] on a character class): empty pieces are kept. *)
Fixpoint split_on (is_sep : ascii -> bool) (s : string) : list string :=
  match s with
  | "" => [""]
  | String c s' =>
      if is_sep c then "" :: split_on is_sep s'
      else match split_on is_sep s' with
           | w :: ws => String c w :: ws
           | [] => [String c ""]
           end
  end.

(** [sep.join(l)] *)
Fixpoint join (sep : string) (l : list string) : string :=
  match l with
  | [] => ""
  | [w] => w
  | w :: ws => w +:+ sep +:+ join sep ws
  end.

(** [sub in s] *)
Fixpoint contains (sub s : string) : bool :=
  String.prefix sub s
  || match s with
     | "" => false
     | String _ s' => contains sub s'
     end.

(** [s.endswith(c)] for one character. *)
Fixpoint endswith_char (c : ascii) (s : string) : bool :=
  match s with
  | "" => false
  | String d "" => bool_decide (d = c)
  | String _ s' => endswith_char c s'
  end.

(** [s[:-1]] *)
Fixpoint drop_last (s : string) : string :=
  match s with
  | "" => ""
  | String _ "" => ""
  | String c s' => String c (drop_last s')
  end.

Definition hex_digit (n : nat) : ascii :=
  if (n <? 10)%nat then ascii_of_nat (48 + n) else ascii_of_nat (87 + n).

Definition squote : ascii := "'"%char.
Definition dquote : ascii := "034"%char.
Definition backslash : ascii := "\"%char.

Definition repr_char (quote c : ascii) : string :=
  let n := nat_of_ascii c in
  if bool_decide (c = quote) || bool_decide (c = backslash)
  then String backslash (String c "")
  else if (n =? 9)%nat then String backslash "t"
  else if (n =? 10)%nat then String backslash "n"
  else if (n =? 13)%nat then String backslash "r"
  else if (n <? 32)%nat || (n =? 127)%nat
  then String backslash
         (String "x" (String (hex_digit (n / 16)) (String (hex_digit (n mod 16)) "")))
  else String c "".

Fixpoint concat_map (f : ascii -> string) (s : string) : string :=
  match s with
  | "" => ""
  | String c s' => f c +:+ concat_map f s'
  end.

(** [repr(s)], the [!r] conversion of an f-string. *)
Definition repr (s : string) : string :=
  let has c := negb (all_chars (fun d => negb (bool_decide (d = c))) s) in
  let quote := if has squote && negb (has dquote) then dquote else squote in
  String quote (concat_map (repr_char quote) s) +:+ String quote "".

(** Values a docket field can hold. *)
Inductive value :=
| None_
| Str (s : string).

(** Truth value of [not v]. *)
Definition falsy (v : value) : bool :=
  match v with
  | None_ => true
  | Str s => bool_decide (s = "")
  end.

(** Exceptions the module raises or meets. *)
Inductive exn :=
| ValueError (msg : string)
| AttributeError (msg : string).

Definition str_of_exn (e : exn) : string :=
  match e with
  | ValueError msg => msg
  | AttributeError msg => msg
  end.

Definition is_ValueError (e : exn) : bool :=
  match e with
  | ValueError _ => true
  | AttributeError _ => false
  end.

(** Raised by a [str] method called on [None]. *)
Definition none_has_no (attr : string) : exn :=
  AttributeError ("'NoneType' object has no attribute '" +:+ attr +:+ "'").

End Py.

(** ** Backtracking matchers

    A matcher maps the text at the current position to the list of texts
    left after each way of matching, in the order a backtracking engine
    tries them; a parser also returns a value. [re.match] takes the first
    result. *)

Module Re.

Definition matcher := string -> list string.
Definition parser (A : Type) := string -> list (A * string).

Definition seq (m1 m2 : matcher) : matcher :=
  fun s => r ← m1 s; m2 r.

Definition alt (m1 m2 : matcher) : matcher :=
  fun s => m1 s ++ m2 s.

(** [m?], greedy. *)
Definition opt (m : matcher) : matcher :=
  fun s => m s ++ [s].

(** One character of a class. *)
Definition char_if (p : ascii -> bool) : matcher :=
  fun s => match s with
           | String c s' => if p c then [s'] else []
           | "" => []
           end.

(** A literal character under [re.IGNORECASE]; the pattern character is
    given in lower case. *)
Definition char_ci (p : ascii) : matcher :=
  char_if (fun c => bool_decide (Py.lower_char c = p)).

(** A literal word under [re.IGNORECASE]. *)
Fixpoint lit_ci (p : string) : matcher :=
  match p with
  | "" => fun s => [s]
  | String c p' => seq (char_ci c) (lit_ci p')
  end.

(** [[p]*], greedy: the longest run first, then shorter ones. *)
Fixpoint star_if (p : ascii -> bool) (s : string) : list string :=
  match s with
  | "" => [""]
  | String c s' => if p c then star_if p s' ++ [s] else [s]
  end.

(** [[p]+], greedy. *)
Definition plus_if (p : ascii -> bool) : matcher :=
  seq (char_if p) (star_if p).

(** [\s*] and [\s+]. *)
Definition star_ws : matcher := star_if Py.isspace.
Definition plus_ws : matcher := plus_if Py.isspace.

(** [$] without [re.MULTILINE]: the end, or just before a final newline. *)
Definition eos : matcher :=
  fun s => if bool_decide (s = "") || bool_decide (s = String "010" "")
           then [s] else [].

Definition pure {A} (a : A) : parser A := fun s => [(a, s)].

Definition bind {A B} (p : parser A) (f : A -> parser B) : parser B :=
  fun s => '(a, r) ← p s; f a r.

Definition skip {A} (m : matcher) (p : parser A) : parser A :=
  fun s => r ← m s; p r.

Definition palt {A} (p q : parser A) : parser A :=
  fun s => p s ++ q s.

(** One character of a class, returned. *)
Definition pchar (p : ascii -> bool) : parser ascii :=
  fun s => match s with
           | String c s' => if p c then [(c, s')] else []
           | "" => []
           end.

(** [\d] as its value. *)
Definition digit : parser nat :=
  bind (pchar Py.isdigit) (fun c => pure (Py.digit_value c)).

(** A digit between [lo] and [hi]. *)
Definition digit_in (lo hi : nat) : parser nat :=
  bind (pchar (fun c => Py.isdigit c && (lo <=? Py.digit_value c)%nat
                        && (Py.digit_value c <=? hi)%nat))
       (fun c => pure (Py.digit_value c)).

(** [(\d{1,2})], greedy, as a number. *)
Definition digits_1_2 : parser nat :=
  bind digit (fun a =>
    palt (bind digit (fun b => pure (10 * a + b))) (pure a)).

(** [(\d{4})] as a number. *)
Definition digits_4 : parser nat :=
  bind digit (fun a => bind digit (fun b => bind digit (fun c =>
    bind digit (fun d => pure (1000 * a + 100 * b + 10 * c + d))))).

(** The first of a list of alternatives, each with its value. *)
Fixpoint one_of {A} (alts : list (string * A)) : parser A :=
  match alts with
  | [] => fun _ => []
  | (w, a) :: alts' => palt (skip (lit_ci w) (pure a)) (one_of alts')
  end.

(** A literal word under [re.IGNORECASE], returning the text it matched. *)
Fixpoint word_ci (p : string) : parser string :=
  match p with
  | "" => pure ""
  | String c p' =>
      bind (pchar (fun d => bool_decide (Py.lower_char d = c))) (fun d =>
        bind (word_ci p') (fun w => pure (String d w)))
  end.

(** The first of a list of words, returning the text it matched. *)
Fixpoint any_word_ci (alts : list string) : parser string :=
  match alts with
  | [] => fun _ => []
  | w :: alts' => palt (word_ci w) (any_word_ci alts')
  end.

(** [re.match]: the first way of matching at the start. *)
Definition match_ {A} (p : parser A) (s : string) : option (A * string) :=
  head (p s).

(** [re.search]: the first match at the leftmost position that has one. *)
Fixpoint search {A} (p : parser A) (s : string) : option A :=
  match p s with
  | (a, _) :: _ => Some a
  | [] => match s with
          | "" => None
          | String _ s' => search p s'
          end
  end.

(** [re.sub(m, '', s)] for a pattern that matches no empty text: every
    match, scanning from the left, is deleted. Each step consumes a
    character, so the length of the text bounds the number of steps. *)
Fixpoint delete_all_from (fuel : nat) (m : matcher) (s : string) : string :=
  match fuel with
  | 0 => s
  | S fuel' =>
      match m s with
      | r :: _ => delete_all_from fuel' m r
      | [] => match s with
              | "" => ""
              | String c s' => String c (delete_all_from fuel' m s')
              end
      end
  end.

Definition delete_all (m : matcher) (s : string) : string :=
  delete_all_from (S (String.length s)) m s.

End Re.

(** ** Normalizer *)

(** [re.sub(r'[.\s]+', '', court.upper())] deletes every period and every
    whitespace character. *)
Definition normalize_court_name (court : string) : string :=
  if bool_decide (court = "") then ""
  else Py.filter_chars
         (fun c => negb (bool_decide (c = "."%char) || Py.isspace c))
         (Py.upper court).

(** [^(hon\.?|judge|justice)\s+] under [re.IGNORECASE]. *)
Definition honorific_re : Re.matcher :=
  Re.seq (Re.alt (Re.seq (Re.lit_ci "hon") (Re.opt (Re.char_ci ".")))
            (Re.alt (Re.lit_ci "judge") (Re.lit_ci "justice")))
         Re.plus_ws.

(** [re.sub] of a pattern anchored at the start: the first match, if any,
    is cut off the front. *)
Definition sub_at_start (m : Re.matcher) (s : string) : string :=
  match m s with
  | r :: _ => r
  | [] => s
  end.

Definition normalize_judge_name (judge : string) : string :=
  if bool_decide (judge = "") then ""
  else
    let normalized := sub_at_start honorific_re judge in
    Py.lower (Py.join " " (Py.split_ws normalized)).

Definition normalize_party_name (party : string) : string :=
  if bool_decide (party = "") then ""
  else Py.strip (Py.lower (Py.join " " (Py.split_ws party))).

(** ** DateResolver *)

Inductive result (A : Type) :=
| Ok (a : A)
| Raise (e : Py.exn).
Arguments Ok {A} a.
Arguments Raise {A} e.

Record date := Date { year : nat; month : nat; day : nat }.

Global Instance date_eq_dec : EqDecision date.
Proof. solve_decision. Defined.

Definition is_leap (y : nat) : bool :=
  (y mod 4 =? 0)%nat && (negb (y mod 100 =? 0)%nat || (y mod 400 =? 0)%nat).

Definition days_in_month (y m : nat) : nat :=
  match m with
  | 2 => if is_leap y then 29 else 28
  | 4 | 6 | 9 | 11 => 30
  | _ => 31
  end.

(** [datetime.date(y, m, d)]: the date, or the message of its [ValueError]. *)
Definition date_new (y m d : nat) : string + date :=
  if negb ((1 <=? y)%nat && (y <=? 9999)%nat)
  then inl ("year " +:+ pretty y +:+ " is out of range")
  else if negb ((1 <=? m)%nat && (m <=? 12)%nat)
  then inl "month must be in 1..12"
  else if negb ((1 <=? d)%nat && (d <=? days_in_month y m)%nat)
  then inl "day is out of range for month"
  else inr (Date y m d).

(** [datetime.strptime] for the directives the module uses. The library
    turns the format into a regular expression, matched ignoring case, and
    refuses text left over after the first match. *)
Module Strptime.

Definition month_abbreviations : list (string * nat) :=
  [("jan", 1); ("feb", 2); ("mar", 3); ("apr", 4); ("may", 5); ("jun", 6);
   ("jul", 7); ("aug", 8); ("sep", 9); ("oct", 10); ("nov", 11); ("dec", 12)].

(** The library tries longer names first. *)
Definition month_names : list (string * nat) :=
  [("september", 9); ("february", 2); ("november", 11); ("december", 12);
   ("january", 1); ("october", 10); ("august", 8); ("march", 3);
   ("april", 4); ("june", 6); ("july", 7); ("may", 5)].

(** [%Y]: [\d\d\d\d] *)
Definition dir_Y : Re.parser nat := Re.digits_4.

(** [%m]: [1[0-2]|0[1-9]|[1-9]] *)
Definition dir_m : Re.parser nat :=
  Re.palt (Re.bind (Re.digit_in 1 1) (fun _ =>
             Re.bind (Re.digit_in 0 2) (fun b => Re.pure (10 + b))))
    (Re.palt (Re.bind (Re.digit_in 0 0) (fun _ => Re.digit_in 1 9))
       (Re.digit_in 1 9)).

(** [%d]: [3[0-1]|[1-2]\d|0[1-9]|[1-9]| [1-9]] *)
Definition dir_d : Re.parser nat :=
  Re.palt (Re.bind (Re.digit_in 3 3) (fun _ =>
             Re.bind (Re.digit_in 0 1) (fun b => Re.pure (30 + b))))
    (Re.palt (Re.bind (Re.digit_in 1 2) (fun a =>
                Re.bind Re.digit (fun b => Re.pure (10 * a + b))))
       (Re.palt (Re.bind (Re.digit_in 0 0) (fun _ => Re.digit_in 1 9))
          (Re.palt (Re.digit_in 1 9)
             (Re.skip (Re.char_if (fun c => bool_decide (c = " "%char)))
                (Re.digit_in 1 9))))).

Definition dir_b : Re.parser nat := Re.one_of month_abbreviations.
Definition dir_B : Re.parser nat := Re.one_of month_names.

(** Year, month and day found so far; the library starts from 1900-01-01. *)
Definition fields : Type := nat * nat * nat.
Definition initial : fields := (1900, 1, 1).

Definition directive (c : ascii) (f : fields) : Re.parser fields :=
  let '(y, m, d) := f in
  match c with
  | "Y" => Re.bind dir_Y (fun v => Re.pure (v, m, d))
  | "m" => Re.bind dir_m (fun v => Re.pure (y, v, d))
  | "d" => Re.bind dir_d (fun v => Re.pure (y, m, v))
  | "b" => Re.bind dir_b (fun v => Re.pure (y, v, d))
  | "B" => Re.bind dir_B (fun v => Re.pure (y, v, d))
  | _ => fun _ => []
  end%char.

(** The expression for a format: a directive after [%], [\s+] for a run
    of whitespace, the character itself otherwise. *)
Fixpoint pattern (format : string) (f : fields) : Re.parser fields :=
  match format with
  | "" => Re.pure f
  | String c rest =>
      if bool_decide (c = "%"%char) then
        match rest with
        | String d rest' => Re.bind (directive d f) (pattern rest')
        | "" => fun _ => []
        end
      else if Py.isspace c then
        match rest with
        | String c' _ =>
            if Py.isspace c' then pattern rest f
            else Re.skip Re.plus_ws (pattern rest f)
        | "" => Re.skip Re.plus_ws (pattern rest f)
        end
      else
        Re.skip (Re.char_if (fun x =>
                   bool_decide (Py.lower_char x = Py.lower_char c)))
          (pattern rest f)
  end.

(** [datetime.strptime(data_string, format).date()], [None] standing for
    its [ValueError]. *)
Definition strptime (data_string format : string) : option date :=
  match Re.match_ (pattern format initial) data_string with
  | Some ((y, m, d), rest) =>
      if bool_decide (rest = "") then
        match date_new y m d with
        | inr x => Some x
        | inl _ => None
        end
      else None
  | None => None
  end.

End Strptime.

(** [^\s*(\d{1,2})[-/](\d{1,2})[-/](\d{4})\s*$] with its three groups. *)
Definition mdy_numeric_re : Re.parser (nat * nat * nat) :=
  let sep := Re.char_if (fun c => bool_decide (c = "-"%char) || bool_decide (c = "/"%char)) in
  Re.skip Re.star_ws
    (Re.bind Re.digits_1_2 (fun mm =>
       Re.skip sep (Re.bind Re.digits_1_2 (fun dd =>
         Re.skip sep (Re.bind Re.digits_4 (fun yyyy =>
           Re.skip Re.star_ws (Re.skip Re.eos (Re.pure (mm, dd, yyyy))))))))).

(** [for fmt in formats: try: return strptime(s, fmt) except ValueError: pass] *)
Fixpoint first_format (s : string) (formats : list string) : option date :=
  match formats with
  | [] => None
  | fmt :: formats' =>
      match Strptime.strptime s fmt with
      | Some d => Some d
      | None => first_format s formats'
      end
  end.

Definition parse_date (date_str : Py.value) : result date :=
  match date_str with
  | Py.None_ => Raise (Py.ValueError "filed_date missing")
  | Py.Str raw =>
      let s := Py.strip raw in
      if bool_decide (s = "") then Raise (Py.ValueError "filed_date missing")
      else
        match Strptime.strptime s "%Y-%m-%d" with
        | Some d => Ok d
        | None =>
            match Re.match_ mdy_numeric_re s with
            | Some ((mm, dd, yyyy), _) =>
                match date_new yyyy mm dd with
                | inr d => Ok d
                | inl e =>
                    Raise (Py.ValueError
                             ("filed_date parse failed (mdy numeric): "
                              +:+ Py.repr s +:+ ": " +:+ e))
                end
            | None =>
                match first_format s ["%b %d, %Y"; "%B %d, %Y"] with
                | Some d => Ok d
                | None =>
                    match first_format s ["%m/%d/%Y"; "%m-%d-%Y"] with
                    | Some d => Ok d
                    | None =>
                        Raise (Py.ValueError
                                 ("filed_date parse failed: " +:+ Py.repr s))
                    end
                end
            end
        end
  end.

(** ** PartyListParser *)

Definition role_words : list string :=
  ["plaintiff"; "defendant"; "plaintiffs"; "defendants"; "third_party";
   "intervenor"; "other"].

(** [\((plaintiff|defendant|plaintiffs|defendants|third_party|intervenor|other)\)]
    under [re.IGNORECASE], with its group. *)
Definition role_re : Re.parser string :=
  Re.skip (Re.char_if (fun c => bool_decide (c = "("%char)))
    (Re.bind (Re.any_word_ci role_words) (fun g =>
       Re.skip (Re.char_if (fun c => bool_decide (c = ")"%char))) (Re.pure g))).

(** [\([^)]+\)] *)
Definition parenthetical_re : Re.matcher :=
  Re.seq (Re.char_if (fun c => bool_decide (c = "("%char)))
    (Re.seq (Re.plus_if (fun c => negb (bool_decide (c = ")"%char))))
       (Re.char_if (fun c => bool_decide (c = ")"%char)))).

(** [[p.strip() for p in section.split(',') if p.strip()]] *)
Definition split_party_names (section : string) : list string :=
  Py.strip <$>
    filter (fun p => Py.strip p <> "")
      (Py.split_on (fun c => bool_decide (c = ","%char)) section).

(** The body of the loop over the major sections: the pairs it appends. *)
Definition parse_section (section : string) : list (string * string) :=
  let section := Py.strip section in
  if bool_decide (section = "") then []
  else
    match Re.search role_re section with
    | Some g =>
        let role := Py.lower g in
        let role := if Py.endswith_char "s" role then Py.drop_last role else role in
        let section := Py.strip (Re.delete_all parenthetical_re section) in
        let party_names := split_party_names section in
        (fun party_name => (party_name, role)) <$>
          filter (fun party_name => party_name <> "") party_names
    | None =>
        let party_names := split_party_names section in
        (fun party_name => (party_name, "other")) <$>
          filter (fun party_name => party_name <> "") party_names
    end.

Definition parse_parties (parties_str : Py.value) : list (string * string) :=
  if Py.falsy parties_str then []
  else
    match parties_str with
    | Py.None_ => []
    | Py.Str s =>
        let major_sections :=
          Py.split_on (fun c => bool_decide (c = ";"%char) || bool_decide (c = "/"%char)) s in
        section ← major_sections; parse_section section
    end.

(** ** The relational store *)

(** A raw record: the [dict] decoded from one JSON object. *)
Abbreviation docket := (gmap string Py.value).

(** [docket.get(key, default)] *)
Definition dict_get (d : docket) (key : string) (default : Py.value) : Py.value :=
  match d !! key with
  | Some v => v
  | None => default
  end.

(** A timestamp column holds [Some t] once a statement of the module has set
    it to [now()]; it is [None] while it still holds what the table
    declaration gives a new row. *)
Abbreviation timestamp := (option nat).

(** Modelled from the spec: the table declarations are not among the
    module's sources. A new name-variation row counts its first sighting
    and a new error row has not been retried, so that a second occurrence
    leaves [retry_count] at 1. *)
Definition seen_count_default : nat := 1.
Definition retry_count_default : nat := 0.

(** A row of [courts], [judges] or [parties], found by its normalized name:
    the id and the name as first seen. *)
Record entity_row := EntityRow { entity_id : nat; entity_name : string }.

(** A row of a name-variation table, found by (entity id, raw name). *)
Record variation_row := VariationRow { seen_count : nat; last_seen_at : timestamp }.

(** A row of [cases], found by its case number. *)
Record case_row := CaseRow {
  case_id : nat;
  court_id : nat;
  title : Py.value;
  filed_date : date;
  case_type_id : nat;
  judge_id : option nat;
  docket_text : Py.value;
  status : string;
  updated_at : timestamp
}.

Record counters := Counters {
  read : nat;
  inserted : nat;
  updated : nat;
  failed : nat
}.

(** A row of [ingest_runs], found by its run id. *)
Record run_row := RunRow {
  source_name : string;
  source_uri : option string;
  finished_at : timestamp;
  totals : option counters
}.

(** A row of [ingest_errors]. *)
Record error_row := ErrorRow {
  error_run_id : nat;
  error_record_hash : string;
  error_case_number : option string;
  error_code : string;
  error_message : string;
  details_raw : docket;
  retry_count : nat;
  error_last_seen_at : timestamp
}.

Global Instance entity_row_eq_dec : EqDecision entity_row.
Proof. solve_decision. Defined.
Global Instance variation_row_eq_dec : EqDecision variation_row.
Proof. solve_decision. Defined.
Global Instance value_eq_dec : EqDecision Py.value.
Proof. solve_decision. Defined.
Global Instance case_row_eq_dec : EqDecision case_row.
Proof. solve_decision. Defined.
Global Instance counters_eq_dec : EqDecision counters.
Proof. solve_decision. Defined.

Record tables := Tables {
  courts : gmap string entity_row;
  court_name_variations : gmap (nat * string) variation_row;
  judges : gmap string entity_row;
  judge_name_variations : gmap (nat * string) variation_row;
  case_types : gmap string nat;
  parties : gmap string entity_row;
  party_name_variations : gmap (nat * string) variation_row;
  cases : gmap string case_row;
  case_parties : gset (nat * nat * string);
  ingest_runs : gmap nat run_row;
  ingest_errors : list error_row
}.

(** The next id the store hands out, per table. *)
Record sequences := Sequences {
  courts_id_seq : nat;
  judges_id_seq : nat;
  case_types_id_seq : nat;
  parties_id_seq : nat;
  cases_id_seq : nat;
  ingest_runs_run_id_seq : nat
}.

(** One line of a quarantine file. *)
Record quarantine_line := QuarantineLine {
  q_run_id : nat;
  q_error_code : string;
  q_why : string;
  q_raw : docket;
  q_ts : nat;
  q_record_hash : string
}.

(** The run id of a quarantine file, [ingest_run_<run_id>.jsonl] under the
    quarantine directory, stands for its path. *)

(** The ingester, its connection and the world around it. *)
Record state := State {
  (* the connection: the tables as the open transaction sees them, the
     tables as last committed, and the sequences *)
  db : tables;
  committed : tables;
  seqs : sequences;
  (* [now()] in the open transaction and [datetime.utcnow()] *)
  now : nat;
  utcnow : nat;
  (* the quarantine files *)
  files : gmap nat (list quarantine_line);
  (* the attributes of the ingester *)
  courts_cache : gmap string nat;
  judges_cache : gmap string nat;
  case_types_cache : gmap string nat;
  parties_cache : gmap string nat;
  processed_cases : gset string;
  run_id : option nat;
  quarantine_path : option nat;
  warnings : list string;
  counts : counters
}.

Definition with_db (f : tables -> tables) (st : state) : state :=
  State (f (db st)) (committed st) (seqs st) (now st) (utcnow st) (files st)
    (courts_cache st) (judges_cache st) (case_types_cache st) (parties_cache st)
    (processed_cases st) (run_id st) (quarantine_path st) (warnings st) (counts st).

Definition with_committed (t : tables) (st : state) : state :=
  State (db st) t (seqs st) (now st) (utcnow st) (files st)
    (courts_cache st) (judges_cache st) (case_types_cache st) (parties_cache st)
    (processed_cases st) (run_id st) (quarantine_path st) (warnings st) (counts st).

Definition with_seqs (f : sequences -> sequences) (st : state) : state :=
  State (db st) (committed st) (f (seqs st)) (now st) (utcnow st) (files st)
    (courts_cache st) (judges_cache st) (case_types_cache st) (parties_cache st)
    (processed_cases st) (run_id st) (quarantine_path st) (warnings st) (counts st).

Definition with_clock (t u : nat) (st : state) : state :=
  State (db st) (committed st) (seqs st) t u (files st)
    (courts_cache st) (judges_cache st) (case_types_cache st) (parties_cache st)
    (processed_cases st) (run_id st) (quarantine_path st) (warnings st) (counts st).

Definition with_files (f : gmap nat (list quarantine_line) -> gmap nat (list quarantine_line))
    (st : state) : state :=
  State (db st) (committed st) (seqs st) (now st) (utcnow st) (f (files st))
    (courts_cache st) (judges_cache st) (case_types_cache st) (parties_cache st)
    (processed_cases st) (run_id st) (quarantine_path st) (warnings st) (counts st).

Definition with_courts_cache (f : gmap string nat -> gmap string nat) (st : state) : state :=
  State (db st) (committed st) (seqs st) (now st) (utcnow st) (files st)
    (f (courts_cache st)) (judges_cache st) (case_types_cache st) (parties_cache st)
    (processed_cases st) (run_id st) (quarantine_path st) (warnings st) (counts st).

Definition with_judges_cache (f : gmap string nat -> gmap string nat) (st : state) : state :=
  State (db st) (committed st) (seqs st) (now st) (utcnow st) (files st)
    (courts_cache st) (f (judges_cache st)) (case_types_cache st) (parties_cache st)
    (processed_cases st) (run_id st) (quarantine_path st) (warnings st) (counts st).

Definition with_case_types_cache (f : gmap string nat -> gmap string nat) (st : state) : state :=
  State (db st) (committed st) (seqs st) (now st) (utcnow st) (files st)
    (courts_cache st) (judges_cache st) (f (case_types_cache st)) (parties_cache st)
    (processed_cases st) (run_id st) (quarantine_path st) (warnings st) (counts st).

Definition with_parties_cache (f : gmap string nat -> gmap string nat) (st : state) : state :=
  State (db st) (committed st) (seqs st) (now st) (utcnow st) (files st)
    (courts_cache st) (judges_cache st) (case_types_cache st) (f (parties_cache st))
    (processed_cases st) (run_id st) (quarantine_path st) (warnings st) (counts st).

Definition with_processed_cases (f : gset string -> gset string) (st : state) : state :=
  State (db st) (committed st) (seqs st) (now st) (utcnow st) (files st)
    (courts_cache st) (judges_cache st) (case_types_cache st) (parties_cache st)
    (f (processed_cases st)) (run_id st) (quarantine_path st) (warnings st) (counts st).

Definition with_run_id (r : option nat) (st : state) : state :=
  State (db st) (committed st) (seqs st) (now st) (utcnow st) (files st)
    (courts_cache st) (judges_cache st) (case_types_cache st) (parties_cache st)
    (processed_cases st) r (quarantine_path st) (warnings st) (counts st).

Definition with_quarantine_path (q : option nat) (st : state) : state :=
  State (db st) (committed st) (seqs st) (now st) (utcnow st) (files st)
    (courts_cache st) (judges_cache st) (case_types_cache st) (parties_cache st)
    (processed_cases st) (run_id st) q (warnings st) (counts st).

Definition with_warnings (f : list string -> list string) (st : state) : state :=
  State (db st) (committed st) (seqs st) (now st) (utcnow st) (files st)
    (courts_cache st) (judges_cache st) (case_types_cache st) (parties_cache st)
    (processed_cases st) (run_id st) (quarantine_path st) (f (warnings st)) (counts st).

Definition with_counts (f : counters -> counters) (st : state) : state :=
  State (db st) (committed st) (seqs st) (now st) (utcnow st) (files st)
    (courts_cache st) (judges_cache st) (case_types_cache st) (parties_cache st)
    (processed_cases st) (run_id st) (quarantine_path st) (warnings st) (f (counts st)).

Definition with_courts (f : gmap string entity_row -> gmap string entity_row) (t : tables) : tables :=
  Tables (f (courts t)) (court_name_variations t) (judges t) (judge_name_variations t)
    (case_types t) (parties t) (party_name_variations t) (cases t) (case_parties t)
    (ingest_runs t) (ingest_errors t).

Definition with_court_name_variations
    (f : gmap (nat * string) variation_row -> gmap (nat * string) variation_row)
    (t : tables) : tables :=
  Tables (courts t) (f (court_name_variations t)) (judges t) (judge_name_variations t)
    (case_types t) (parties t) (party_name_variations t) (cases t) (case_parties t)
    (ingest_runs t) (ingest_errors t).

Definition with_judges (f : gmap string entity_row -> gmap string entity_row) (t : tables) : tables :=
  Tables (courts t) (court_name_variations t) (f (judges t)) (judge_name_variations t)
    (case_types t) (parties t) (party_name_variations t) (cases t) (case_parties t)
    (ingest_runs t) (ingest_errors t).

Definition with_judge_name_variations
    (f : gmap (nat * string) variation_row -> gmap (nat * string) variation_row)
    (t : tables) : tables :=
  Tables (courts t) (court_name_variations t) (judges t) (f (judge_name_variations t))
    (case_types t) (parties t) (party_name_variations t) (cases t) (case_parties t)
    (ingest_runs t) (ingest_errors t).

Definition with_case_types (f : gmap string nat -> gmap string nat) (t : tables) : tables :=
  Tables (courts t) (court_name_variations t) (judges t) (judge_name_variations t)
    (f (case_types t)) (parties t) (party_name_variations t) (cases t) (case_parties t)
    (ingest_runs t) (ingest_errors t).

Definition with_parties (f : gmap string entity_row -> gmap string entity_row) (t : tables) : tables :=
  Tables (courts t) (court_name_variations t) (judges t) (judge_name_variations t)
    (case_types t) (f (parties t)) (party_name_variations t) (cases t) (case_parties t)
    (ingest_runs t) (ingest_errors t).

Definition with_party_name_variations
    (f : gmap (nat * string) variation_row -> gmap (nat * string) variation_row)
    (t : tables) : tables :=
  Tables (courts t) (court_name_variations t) (judges t) (judge_name_variations t)
    (case_types t) (parties t) (f (party_name_variations t)) (cases t) (case_parties t)
    (ingest_runs t) (ingest_errors t).

Definition with_cases (f : gmap string case_row -> gmap string case_row) (t : tables) : tables :=
  Tables (courts t) (court_name_variations t) (judges t) (judge_name_variations t)
    (case_types t) (parties t) (party_name_variations t) (f (cases t)) (case_parties t)
    (ingest_runs t) (ingest_errors t).

Definition with_case_parties (f : gset (nat * nat * string) -> gset (nat * nat * string))
    (t : tables) : tables :=
  Tables (courts t) (court_name_variations t) (judges t) (judge_name_variations t)
    (case_types t) (parties t) (party_name_variations t) (cases t) (f (case_parties t))
    (ingest_runs t) (ingest_errors t).

Definition with_ingest_runs (f : gmap nat run_row -> gmap nat run_row) (t : tables) : tables :=
  Tables (courts t) (court_name_variations t) (judges t) (judge_name_variations t)
    (case_types t) (parties t) (party_name_variations t) (cases t) (case_parties t)
    (f (ingest_runs t)) (ingest_errors t).

Definition with_ingest_errors
    (f : list error_row -> list error_row) (t : tables) : tables :=
  Tables (courts t) (court_name_variations t) (judges t) (judge_name_variations t)
    (case_types t) (parties t) (party_name_variations t) (cases t) (case_parties t)
    (ingest_runs t) (f (ingest_errors t)).

(** ** Computations of the ingester

    A method runs on the state and either returns or raises; what it wrote
    before raising stays written. *)

Definition M (A : Type) : Type := state -> state * result A.

Definition ret {A} (a : A) : M A := fun st => (st, Ok a).

Definition raise {A} (e : Py.exn) : M A := fun st => (st, Raise e).

Definition bind {A B} (m : M A) (f : A -> M B) : M B :=
  fun st =>
    match m st with
    | (st', Ok a) => f a st'
    | (st', Raise e) => (st', Raise e)
    end.

(** [try: m except Exception as e: handler e] *)
Definition try_except {A} (m : M A) (handler : Py.exn -> M A) : M A :=
  fun st =>
    match m st with
    | (st', Ok a) => (st', Ok a)
    | (st', Raise e) => handler e st'
    end.

Definition gets {A} (f : state -> A) : M A := fun st => (st, Ok (f st)).

Definition modify (f : state -> state) : M unit := fun st => (f st, Ok tt).

Definition lift {A} (r : result A) : M A := fun st => (st, r).

Global Instance M_ret : MRet M := @ret.
Global Instance M_bind : MBind M := fun A B f m => bind m f.

(** [self.conn.commit()] and [self.conn.rollback()]; sequences are not
    transactional. *)
Definition commit : M unit := modify (fun st => with_committed (db st) st).
Definition rollback : M unit := modify (fun st => with_db (fun _ => committed st) st).

Definition with_courts_id_seq (n : nat) (q : sequences) : sequences :=
  Sequences n (judges_id_seq q) (case_types_id_seq q) (parties_id_seq q)
    (cases_id_seq q) (ingest_runs_run_id_seq q).
Definition with_judges_id_seq (n : nat) (q : sequences) : sequences :=
  Sequences (courts_id_seq q) n (case_types_id_seq q) (parties_id_seq q)
    (cases_id_seq q) (ingest_runs_run_id_seq q).
Definition with_case_types_id_seq (n : nat) (q : sequences) : sequences :=
  Sequences (courts_id_seq q) (judges_id_seq q) n (parties_id_seq q)
    (cases_id_seq q) (ingest_runs_run_id_seq q).
Definition with_parties_id_seq (n : nat) (q : sequences) : sequences :=
  Sequences (courts_id_seq q) (judges_id_seq q) (case_types_id_seq q) n
    (cases_id_seq q) (ingest_runs_run_id_seq q).
Definition with_cases_id_seq (n : nat) (q : sequences) : sequences :=
  Sequences (courts_id_seq q) (judges_id_seq q) (case_types_id_seq q) (parties_id_seq q)
    n (ingest_runs_run_id_seq q).
Definition with_ingest_runs_run_id_seq (n : nat) (q : sequences) : sequences :=
  Sequences (courts_id_seq q) (judges_id_seq q) (case_types_id_seq q) (parties_id_seq q)
    (cases_id_seq q) n.

(** ** EntityResolver *)

(** The string a value holds, once [not v] has been ruled out. *)
Definition str_of (v : Py.value) : string :=
  match v with
  | Py.Str s => s
  | Py.None_ => ""
  end.

(** [INSERT INTO <kind>_name_variations (<kind>_id, raw_name) VALUES (..)
    ON CONFLICT (<kind>_id, raw_name) DO UPDATE
    SET last_seen_at = now(), seen_count = seen_count + 1] *)
Definition upsert_variation (t : nat) (key : nat * string)
    (rows : gmap (nat * string) variation_row) : gmap (nat * string) variation_row :=
  match rows !! key with
  | Some row => <[key := VariationRow (seen_count row + 1) (Some t)]> rows
  | None => <[key := VariationRow seen_count_default None]> rows
  end.

(** [SELECT id FROM <table> WHERE normalized_name = %s], then [fetchone()] *)
Definition select_id (rows : gmap string entity_row) (normalized : string) : option nat :=
  entity_id <$> rows !! normalized.

Definition record_court_variation (court_id : nat) (raw_name : string) : M unit :=
  modify (fun st =>
    with_db (with_court_name_variations (upsert_variation (now st) (court_id, raw_name))) st).

(** [INSERT INTO courts (name, normalized_name) VALUES (..) RETURNING id] *)
Definition insert_court (name normalized : string) : M nat :=
  fun st =>
    let new_id := courts_id_seq (seqs st) in
    (with_seqs (with_courts_id_seq (S new_id))
       (with_db (with_courts (insert normalized (EntityRow new_id name))) st),
     Ok new_id).

Definition get_or_create_court (court_name : Py.value) : M nat :=
  if Py.falsy court_name then raise (Py.ValueError "Court name cannot be empty")
  else
    let raw := str_of court_name in
    let normalized := normalize_court_name raw in
    cache ← gets courts_cache;
    court_id ←
      match cache !! normalized with
      | Some court_id => ret court_id
      | None =>
          result ← gets (fun st => select_id (courts (db st)) normalized);
          court_id ←
            match result with
            | Some court_id => ret court_id
            | None => insert_court raw normalized
            end;
          modify (with_courts_cache (insert normalized court_id));;
          ret court_id
      end;
    record_court_variation court_id raw;;
    ret court_id.

Definition record_judge_variation (judge_id : nat) (raw_name : string) : M unit :=
  modify (fun st =>
    with_db (with_judge_name_variations (upsert_variation (now st) (judge_id, raw_name))) st).

(** [INSERT INTO judges (full_name, normalized_name) VALUES (..) RETURNING id] *)
Definition insert_judge (full_name normalized : string) : M nat :=
  fun st =>
    let new_id := judges_id_seq (seqs st) in
    (with_seqs (with_judges_id_seq (S new_id))
       (with_db (with_judges (insert normalized (EntityRow new_id full_name))) st),
     Ok new_id).

Definition get_or_create_judge (judge_name : Py.value) : M (option nat) :=
  if Py.falsy judge_name then ret None
  else
    let raw := str_of judge_name in
    let normalized := normalize_judge_name raw in
    if bool_decide (normalized = "") then ret None
    else
      cache ← gets judges_cache;
      judge_id ←
        match cache !! normalized with
        | Some judge_id => ret judge_id
        | None =>
            result ← gets (fun st => select_id (judges (db st)) normalized);
            judge_id ←
              match result with
              | Some judge_id => ret judge_id
              | None => insert_judge raw normalized
              end;
            modify (with_judges_cache (insert normalized judge_id));;
            ret judge_id
        end;
      record_judge_variation judge_id raw;;
      ret (Some judge_id).

(** [INSERT INTO case_types (name) VALUES (%s) RETURNING id] *)
Definition insert_case_type (name : string) : M nat :=
  fun st =>
    let new_id := case_types_id_seq (seqs st) in
    (with_seqs (with_case_types_id_seq (S new_id))
       (with_db (with_case_types (insert name new_id)) st),
     Ok new_id).

Definition get_or_create_case_type (case_type : Py.value) : M nat :=
  if Py.falsy case_type then raise (Py.ValueError "Case type cannot be empty")
  else
    let case_type := Py.strip (Py.lower (str_of case_type)) in
    cache ← gets case_types_cache;
    match cache !! case_type with
    | Some type_id => ret type_id
    | None =>
        result ← gets (fun st => case_types (db st) !! case_type);
        type_id ←
          match result with
          | Some type_id => ret type_id
          | None => insert_case_type case_type
          end;
        modify (with_case_types_cache (insert case_type type_id));;
        ret type_id
    end.

Definition record_party_variation (party_id : nat) (raw_name : string) : M unit :=
  modify (fun st =>
    with_db (with_party_name_variations (upsert_variation (now st) (party_id, raw_name))) st).

(** [INSERT INTO parties (name, normalized_name) VALUES (..) RETURNING id] *)
Definition insert_party (name normalized : string) : M nat :=
  fun st =>
    let new_id := parties_id_seq (seqs st) in
    (with_seqs (with_parties_id_seq (S new_id))
       (with_db (with_parties (insert normalized (EntityRow new_id name))) st),
     Ok new_id).

Definition get_or_create_party (party_name : Py.value) : M nat :=
  if Py.falsy party_name then raise (Py.ValueError "Party name cannot be empty")
  else
    let raw := str_of party_name in
    let normalized := normalize_party_name raw in
    cache ← gets parties_cache;
    party_id ←
      match cache !! normalized with
      | Some party_id => ret party_id
      | None =>
          result ← gets (fun st => select_id (parties (db st)) normalized);
          party_id ←
            match result with
            | Some party_id => ret party_id
            | None => insert_party raw normalized
            end;
          modify (with_parties_cache (insert normalized party_id));;
          ret party_id
      end;
    record_party_variation party_id raw;;
    ret party_id.

(** ** RecordProcessor *)

(** [docket.get(key, default).strip()] *)
Definition get_strip (d : docket) (key default : string) : result string :=
  match dict_get d key (Py.Str default) with
  | Py.Str s => Ok (Py.strip s)
  | Py.None_ => Raise (Py.none_has_no "strip")
  end.

(** [docket.get(key, default).lower()] *)
Definition get_lower (d : docket) (key default : string) : result string :=
  match dict_get d key (Py.Str default) with
  | Py.Str s => Ok (Py.lower s)
  | Py.None_ => Raise (Py.none_has_no "lower")
  end.

Definition valid_statuses : list string := ["active"; "closed"; "pending"; "dismissed"].

(** [f"Invalid status '{status}'. Must be one of: ..."] *)
Definition invalid_status_message (status_ : string) : string :=
  "Invalid status '" +:+ status_
  +:+ "'. Must be one of: active, closed, pending, dismissed".

(** [INSERT INTO cases (..) VALUES (..) ON CONFLICT (case_number) DO UPDATE
    SET .. = EXCLUDED..., updated_at = now() RETURNING id, (xmax = 0) AS inserted] *)
Definition upsert_case (case_number : string) (court : nat) (title_ : Py.value)
    (filed : date) (case_type : nat) (judge : option nat) (text : Py.value)
    (status_ : string) : M (nat * bool) :=
  fun st =>
    match cases (db st) !! case_number with
    | Some old =>
        let row := CaseRow (case_id old) court title_ filed case_type judge text status_
                     (Some (now st)) in
        (with_db (with_cases (insert case_number row)) st, Ok (case_id old, false))
    | None =>
        let new_id := cases_id_seq (seqs st) in
        let row := CaseRow new_id court title_ filed case_type judge text status_ None in
        (with_seqs (with_cases_id_seq (S new_id))
           (with_db (with_cases (insert case_number row)) st),
         Ok (new_id, true))
    end.

(** [INSERT INTO case_parties (case_id, party_id, role) VALUES (..)
    ON CONFLICT (case_id, party_id, role) DO NOTHING] *)
Definition insert_case_party (case party : nat) (role : string) : M unit :=
  modify (with_db (with_case_parties (fun links => {[ (case, party, role) ]} ∪ links))).

(** The loop over the parsed parties; a failure on one party is recorded as
    a warning and the loop goes on. *)
Fixpoint link_parties (case : nat) (case_number : string)
    (parties_ : list (string * string)) : M unit :=
  match parties_ with
  | [] => ret tt
  | (party_name, role) :: rest =>
      try_except
        (party_id ← get_or_create_party (Py.Str party_name);
         insert_case_party case party_id role)
        (fun e =>
           modify (with_warnings (fun w =>
             w ++ ["Error processing party for case " +:+ case_number +:+ ": "
                   +:+ Py.str_of_exn e])));;
      link_parties case case_number rest
  end.

Definition process_docket (d : docket) : M (bool * string) :=
  case_number ← lift (get_strip d "case_number" "");
  if bool_decide (case_number = "")
  then raise (Py.ValueError "case_number is required and cannot be empty")
  else
    let filed_date_str := dict_get d "filed_date" (Py.Str "") in
    filed ← lift (parse_date filed_date_str);
    court ← get_or_create_court (dict_get d "court" (Py.Str ""));
    judge ← get_or_create_judge (dict_get d "judge" Py.None_);
    case_type ← get_or_create_case_type (dict_get d "case_type" (Py.Str "civil"));
    status_ ← lift (get_lower d "status" "active");
    if negb (bool_decide (status_ ∈ valid_statuses))
    then raise (Py.ValueError (invalid_status_message status_))
    else
      '(case, is_inserted) ←
        upsert_case case_number court (dict_get d "title" (Py.Str "")) filed
          case_type judge (dict_get d "docket_text" (Py.Str "")) status_;
      let action := if is_inserted : bool then "inserted" else "updated" in
      modify (with_processed_cases (fun seen => {[ case_number ]} ∪ seen));;
      let parties_ := parse_parties (dict_get d "parties" (Py.Str "")) in
      (match parties_ with
       | [] => modify (with_warnings (fun w => w ++ ["No parties for case " +:+ case_number]))
       | _ => link_parties case case_number parties_
       end);;
      ret (true, action).

(** ** RunTracker and pipeline driver *)

(** [os.path.basename] *)
Definition basename (p : string) : string :=
  List.last (Py.split_on (fun c => bool_decide (c = "/"%char)) p) "".

(** [_determine_error_code]; the docket is not looked at. *)
Definition _determine_error_code (error : Py.exn) (d : docket) : string :=
  let error_msg := Py.lower (Py.str_of_exn error) in
  if Py.contains "case_number" error_msg then "MISSING_CASE_NUMBER"
  else if Py.contains "filed_date" error_msg || Py.contains "date" error_msg then "BAD_DATE"
  else if Py.contains "status" error_msg then "STATUS_UNMAPPED"
  else if Py.contains "court" error_msg then "FK_COURT"
  else if Py.contains "case_type" error_msg then "FK_CASE_TYPE"
  else if Py.contains "judge" error_msg then "FK_JUDGE"
  else "VALIDATION_ERROR".

(** [x or None] for a string [x] *)
Definition or_None (x : string) : option string :=
  if bool_decide (x = "") then None else Some x.

Definition incr_read (c : counters) : counters :=
  Counters (S (read c)) (inserted c) (updated c) (failed c).
Definition incr_inserted (c : counters) : counters :=
  Counters (read c) (S (inserted c)) (updated c) (failed c).
Definition incr_updated (c : counters) : counters :=
  Counters (read c) (inserted c) (S (updated c)) (failed c).
Definition incr_failed (c : counters) : counters :=
  Counters (read c) (inserted c) (updated c) (S (failed c)).

(** The time the statements of one record see. *)
Definition set_clock (c : nat * nat) : M unit := modify (with_clock (fst c) (snd c)).

(** The rows of the error table a failure of a run with a given record hash
    is matched with. *)
Definition matches_error (run : nat) (h : string) (row : error_row) : Prop :=
  error_run_id row = run /\ error_record_hash row = h.

Global Instance matches_error_dec run h row : Decision (matches_error run h row).
Proof. unfold matches_error. apply _. Defined.

(** [SET last_seen_at = now(), retry_count = retry_count + 1] *)
Definition bump_error (t : nat) (row : error_row) : error_row :=
  ErrorRow (error_run_id row) (error_record_hash row) (error_case_number row)
    (error_code row) (error_message row) (details_raw row)
    (retry_count row + 1) (Some t).

(** The two statements of [record_error]: [UPDATE ingest_errors SET ..
    WHERE run_id = %s AND record_hash = %s] and, when [cur.rowcount == 0],
    [INSERT INTO ingest_errors (..) VALUES (..)]. *)
Definition file_error (t run : nat) (h : string) (case_number : option string)
    (code msg : string) (raw_row : docket) (errors : list error_row) : list error_row :=
  let rowcount := length (filter (matches_error run h) errors) in
  let errors :=
    (fun row => if decide (matches_error run h row) then bump_error t row else row)
      <$> errors in
  if bool_decide (rowcount = 0)
  then errors ++ [ErrorRow run h case_number code msg raw_row retry_count_default None]
  else errors.

Section Driver.

(** [json.dumps(obj, ensure_ascii=False, separators=(",", ":"),
    sort_keys=True)] and [hashlib.sha256(..).hexdigest()] are library
    functions; the development depends on them only as functions. *)
Variable json_dumps_sorted : docket -> string.
Variable sha256_hexdigest : string -> string.

Definition canonical_json (obj : docket) : string := json_dumps_sorted obj.
Definition sha256_hex (s : string) : string := sha256_hexdigest s.

(** [INSERT INTO ingest_runs (source_name, source_uri) VALUES (..)
    RETURNING run_id], commit, remember the run. *)
Definition start_run (name : string) (uri : option string) : M nat :=
  new_id ← gets (fun st => ingest_runs_run_id_seq (seqs st));
  modify (fun st =>
    with_seqs (with_ingest_runs_run_id_seq (S new_id))
      (with_db (with_ingest_runs (insert new_id (RunRow name uri None None))) st));;
  commit;;
  modify (with_run_id (Some new_id));;
  ret new_id.

(** [UPDATE ingest_runs SET finished_at = now(), total_.. = .. WHERE
    run_id = %s], commit. *)
Definition finish_run (run : nat) (totals_ : counters) : M unit :=
  modify (fun st =>
    with_db (with_ingest_runs (fun runs =>
      match runs !! run with
      | Some row =>
          <[run := RunRow (source_name row) (source_uri row) (Some (now st)) (Some totals_)]> runs
      | None => runs
      end)) st);;
  commit.

Definition write_quarantine_jsonl (run : nat) (raw_row : docket)
    (code why : string) (path : option nat) : M nat :=
  let path := match path with Some p => p | None => run end in
  let record_hash := sha256_hex (canonical_json raw_row) in
  modify (fun st =>
    let rec := QuarantineLine run code why raw_row (utcnow st) record_hash in
    with_files (fun fs =>
      <[path := match fs !! path with Some ls => ls | None => [] end ++ [rec]]> fs) st);;
  ret path.

Definition record_error (run : nat) (raw_row : docket) (code error_msg : string)
    (case_number : option string) : M unit :=
  let record_hash := sha256_hex (canonical_json raw_row) in
  modify (fun st =>
    with_db (with_ingest_errors
      (file_error (now st) run record_hash case_number code error_msg raw_row)) st);;
  commit.

(** The handler of both [except] clauses, which differ in the error code. *)
Definition quarantine_and_record (run : nat) (d : docket) (code : string)
    (e : Py.exn) : M unit :=
  let error_msg := Py.str_of_exn e in
  stripped ← lift (get_strip d "case_number" "");
  let case_number := or_None stripped in
  previous ← gets quarantine_path;
  written ← write_quarantine_jsonl run d code error_msg previous;
  modify (with_quarantine_path (Some written));;
  record_error run d code error_msg case_number;;
  modify (with_counts incr_failed).

(** The loop [for i, docket in enumerate(dockets, 1)]. *)
Fixpoint ingest_loop (run : nat) (clock : nat -> nat * nat) (i : nat)
    (dockets : list docket) : M unit :=
  match dockets with
  | [] => ret tt
  | d :: rest =>
      set_clock (clock i);;
      modify (with_counts incr_read);;
      try_except
        ('(success, action) ← process_docket d;
         (if success : bool then
            if bool_decide (action = "inserted") then modify (with_counts incr_inserted)
            else if bool_decide (action = "updated") then modify (with_counts incr_updated)
            else ret tt
          else ret tt);;
         if bool_decide (i mod 100 = 0) then commit else ret tt)
        (fun e =>
           if Py.is_ValueError e
           then quarantine_and_record run d (_determine_error_code e d) e
           else quarantine_and_record run d "UNKNOWN" e);;
      ingest_loop run clock (S i) rest
  end.

(** [ingest_file], from the decoded content [dockets] of the file on.
    [clock i] is the time record [i] sees; the run is closed at
    [clock (len(dockets) + 1)]. *)
Definition ingest_file (json_file_path : string) (name : string)
    (dockets : list docket) (clock : nat -> nat * nat) : M unit :=
  let name := if bool_decide (name = "") then basename json_file_path else name in
  modify (with_counts (fun _ => Counters 0 0 0 0));;
  try_except
    (run ← start_run name (Some json_file_path);
     modify (with_quarantine_path None);;
     ingest_loop run clock 1 dockets;;
     commit;;
     set_clock (clock (S (length dockets)));;
     totals_ ← gets counts;
     finish_run run totals_)
    (fun e => rollback;; raise e).

End Driver.

(** ** A new ingester *)

Definition empty_tables : tables := Tables ∅ ∅ ∅ ∅ ∅ ∅ ∅ ∅ ∅ ∅ [].

(** [DocketIngester(db_config)] followed by [connect()], against a store
    holding [t] with sequences [q] and quarantine files [fs]. *)
Definition connect (t : tables) (q : sequences)
    (fs : gmap nat (list quarantine_line)) : state :=
  State t t q 0 0 fs ∅ ∅ ∅ ∅ ∅ None None [] (Counters 0 0 0 0).

Definition empty_store : state := connect empty_tables (Sequences 1 1 1 1 1 1) ∅.

(** ** Vocabulary of the statements *)

(** The honorific tokens [honorific_re] looks for, in lower case. *)
Definition honorifics : list string := ["hon"; "hon."; "judge"; "justice"].

(** [s] consists of whitespace only. *)
Definition blank (s : string) : Prop := Py.all_chars Py.isspace s = true.

(** A method respects a relation when every run of it takes a state to a
    related one, whether it returns or raises. *)
Definition respects (R : relation state) {A} (m : M A) : Prop :=
  forall st, R st (fst (m st)).

(** Two states agree on the part [f] reads. *)
Definition same {X} (f : state -> X) : relation state :=
  fun st st' => f st = f st'.

(** The id a get-or-create call settles on for the key [k]: the cached one,
    else the stored one, else the next of the sequence. *)
Definition resolved_id (cache : gmap string nat) (rows : gmap string entity_row)
    (next_id : nat) (k : string) : nat :=
  match cache !! k with
  | Some cached => cached
  | None =>
      match rows !! k with
      | Some row => entity_id row
      | None => next_id
      end
  end.

(** One more sighting of [key] at time [t]: a first row, or the row it had
    with [seen_count] one higher. *)
Definition observed (t : nat) (key : nat * string)
    (before after : gmap (nat * string) variation_row) : Prop :=
  after !! key
  = Some (match before !! key with
          | Some row => VariationRow (seen_count row + 1) (Some t)
          | None => VariationRow seen_count_default None
          end).


(** The checks of [process_docket], in the order it makes them. *)
Inductive step := AtCaseNumber | AtFiledDate | AtCourt | AtCaseType | AtStatus.

(** Which check rejects a record, and with what exception: a function of
    the record alone. *)
Definition rejection (d : docket) : option (step * Py.exn) :=
  match get_strip d "case_number" "" with
  | Raise e => Some (AtCaseNumber, e)
  | Ok case_number =>
      if bool_decide (case_number = "")
      then Some (AtCaseNumber,
                 Py.ValueError "case_number is required and cannot be empty")
      else
        match parse_date (dict_get d "filed_date" (Py.Str "")) with
        | Raise e => Some (AtFiledDate, e)
        | Ok _ =>
            if Py.falsy (dict_get d "court" (Py.Str ""))
            then Some (AtCourt, Py.ValueError "Court name cannot be empty")
            else if Py.falsy (dict_get d "case_type" (Py.Str "civil"))
            then Some (AtCaseType, Py.ValueError "Case type cannot be empty")
            else
              match get_lower d "status" "active" with
              | Raise e => Some (AtStatus, e)
              | Ok status_ =>
                  if bool_decide (status_ ∈ valid_statuses) then None
                  else Some (AtStatus, Py.ValueError (invalid_status_message status_))
              end
        end
  end.

(** The checks made before any entity is resolved. *)
Definition before_resolution (s : step) : bool :=
  match s with
  | AtCaseNumber | AtFiledDate | AtCourt => true
  | AtCaseType | AtStatus => false
  end.

(** The state a record that fails the check [s] leaves behind: the one
    the resolver calls [process_docket] makes before that check produce, in
    the order it makes them. *)
Definition resolved_before (s : step) (d : docket) (st : state) : state :=
  let s1 := fst (get_or_create_court (dict_get d "court" (Py.Str "")) st) in
  let s2 := fst (get_or_create_judge (dict_get d "judge" Py.None_) s1) in
  let s3 := fst (get_or_create_case_type (dict_get d "case_type" (Py.Str "civil")) s2) in
  match s with
  | AtCaseNumber | AtFiledDate | AtCourt => st
  | AtCaseType => s2
  | AtStatus => s3
  end.

(** The case number a record carries, when it has one. *)
Definition case_number_of (d : docket) : string :=
  match get_strip d "case_number" "" with
  | Ok case_number => case_number
  | Raise _ => ""
  end.

(** The party phase of [process_docket]. *)
Definition party_phase (case : nat) (case_number : string)
    (parties_ : list (string * string)) : M unit :=
  match parties_ with
  | [] => modify (with_warnings (fun w => w ++ ["No parties for case " +:+ case_number]))
  | _ => link_parties case case_number parties_
  end.

(** A valid record with a court in dotted form, a judge with an honorific
    and three parties; the same record with a status outside the closed
    set; and a record whose case number is [null]. *)
Definition sample_docket : docket :=
  <["case_number" := Py.Str "1:24-cv-1"]>
  (<["filed_date" := Py.Str "10-3-2024"]>
  (<["court" := Py.Str "S.D.N.Y."]>
  (<["judge" := Py.Str "Hon. Maria Rodriguez"]>
  (<["parties" := Py.Str "John Smith (plaintiff); Acme Corp, Jane Doe (defendants)"]> ∅)))).

Definition bad_status_docket : docket := <["status" := Py.Str "bogus"]> sample_docket.

Definition null_case_number_docket : docket := <["case_number" := Py.None_]> sample_docket.

(** The error handler of the driver re-reads the case number; it raises in
    its turn on a record whose case number is [null]. *)
Definition crashes (d : docket) : bool :=
  match get_strip d "case_number" "" with
  | Raise _ => true
  | Ok _ => false
  end.

(** The case number of a record is a string, or the record has none. *)
Definition text_case_number (d : docket) : Prop :=
  exists s, dict_get d "case_number" (Py.Str "") = Py.Str s.

Definition rejected (d : docket) : bool :=
  match rejection d with
  | Some _ => true
  | None => false
  end.

(** Every record read is counted once more, as inserted, updated or failed. *)
Definition balanced (c : counters) : Prop :=
  read c = inserted c + updated c + failed c.

(** The error code the driver files a rejected record under. *)
Definition error_code_of (e : Py.exn) (d : docket) : string :=
  if Py.is_ValueError e then _determine_error_code e d else "UNKNOWN".

(** The occurrences, in a batch, of rejected records with a given hash. *)
Definition occurrences (hash : docket -> string) (h : string)
    (dockets : list docket) : list docket :=
  filter (fun d => rejected d = true /\ hash d = h) dockets.

(** The lines of a quarantine file that carry a given hash. *)
Definition lines_with (h : string) (lines : list quarantine_line) : list quarantine_line :=
  filter (fun l => q_record_hash l = h) lines.

(** The lines of the quarantine file of a run; none when there is no file. *)
Definition quarantine_file (st : state) (run : nat) : list quarantine_line :=
  match files st !! run with
  | Some lines => lines
  | None => []
  end.

(** A case row without its update stamp. *)
Definition without_stamp (row : case_row) : case_row :=
  CaseRow (case_id row) (court_id row) (title row) (filed_date row)
    (case_type_id row) (judge_id row) (docket_text row) (status row) None.

(** Every cache entry is backed by the row of the store with that key and
    id. *)
Definition backed {Row} (id_of : Row -> nat) (cache : gmap string nat)
    (rows : gmap string Row) : Prop :=
  forall k id, cache !! k = Some id -> id_of <$> rows !! k = Some id.

Definition caches_backed (st : state) : Prop :=
  backed entity_id (courts_cache st) (courts (db st))
  /\ backed entity_id (judges_cache st) (judges (db st))
  /\ backed (fun id : nat => id) (case_types_cache st) (case_types (db st))
  /\ backed entity_id (parties_cache st) (parties (db st)).

(** What a get-or-create call on the key [k] does to the cache and the
    table of its kind and the id it returns: the cached id, else the
    stored one, else that of a row it adds. *)
Definition got {Row} (id_of : Row -> nat) (k : string)
    (cache : gmap string nat) (rows : gmap string Row)
    (cache' : gmap string nat) (rows' : gmap string Row) (id : nat) : Prop :=
  cache' = <[k := id]> cache
  /\ match cache !! k with
     | Some cached => id = cached /\ rows' = rows
     | None =>
         match rows !! k with
         | Some row => id = id_of row /\ rows' = rows
         | None => exists row, id_of row = id /\ rows' = <[k := row]> rows
         end
     end.


(** The store only grows: entity rows, once written, stay as they are,
    links stay, and a case keeps its id. *)
Definition extends (t t' : tables) : Prop :=
  courts t ⊆ courts t'
  /\ judges t ⊆ judges t'
  /\ case_types t ⊆ case_types t'
  /\ parties t ⊆ parties t'
  /\ case_parties t ⊆ case_parties t'
  /\ (forall cn row, cases t !! cn = Some row ->
        case_id <$> cases t' !! cn = Some (case_id row)).

Definition grows : relation state := fun st st' => extends (db st) (db st').

(** A second run in step with a first one whose store ends as [t]: the
    second sees the entities, links and case ids of [t] throughout, and
    each of its cases agrees, up to the update stamp, with the case of the
    first run or with the case of [t]. *)
Definition in_step (t : tables) (s1 s2 : state) : Prop :=
  caches_backed s1
  /\ caches_backed s2
  /\ courts (db s2) = courts t
  /\ judges (db s2) = judges t
  /\ case_types (db s2) = case_types t
  /\ parties (db s2) = parties t
  /\ case_parties (db s2) = case_parties t
  /\ (forall cn, case_id <$> cases (db s2) !! cn = case_id <$> cases t !! cn)
  /\ (forall cn,
        without_stamp <$> cases (db s2) !! cn = without_stamp <$> cases (db s1) !! cn
        \/ without_stamp <$> cases (db s2) !! cn = without_stamp <$> cases t !! cn).

(** The state in which record [i] of a run is processed: the clock set,
    the record counted as read. *)
Definition entered (clock : nat -> nat * nat) (i : nat) (st : state) : state :=
  with_counts incr_read (with_clock (fst (clock i)) (snd (clock i)) st).

(** The state after an accepted record has been counted, committed when
    its index is a multiple of 100. *)
Definition counted (i : nat) (ins : bool) (st : state) : state :=
  let st := with_counts (if ins then incr_inserted else incr_updated) st in
  if bool_decide (i mod 100 = 0) then with_committed (db st) st else st.

(** What the driver and the run tracker own, which [process_docket] leaves
    alone. *)
Definition driver_state (st : state) :=
  (ingest_errors (db st), ingest_runs (db st), files st, quarantine_path st,
   counts st, committed st, now st, utcnow st, run_id st).

(** The error rows of a run for a record hash, and their retry counts. *)
Definition error_rows (st : state) (run : nat) (h : string) : list error_row :=
  filter (matches_error run h) (ingest_errors (db st)).

Definition retries (st : state) (run : nat) (h : string) : list nat :=
  retry_count <$> error_rows st run h.

(** The retry counts after one more occurrence: a first row, or the rows
    there are, each one higher. *)
Definition retry_after (counts_ : list nat) : list nat :=
  match counts_ with
  | [] => [retry_count_default]
  | _ => (fun r => r + 1) <$> counts_
  end.

Definition accepted (d : docket) : bool := negb (rejected d).

Section RunStates.

Variable json : docket -> string.
Variable sha : string -> string.

(** The state in which the loop of a run starts, and the state in which
    the run ends once the loop has returned in [s]. *)
Definition run_started (json_file_path name : string) (st : state) : state :=
  let name := if bool_decide (name = "") then basename json_file_path else name in
  fst ((modify (with_counts (fun _ => Counters 0 0 0 0));;
        start_run name (Some json_file_path);;
        modify (with_quarantine_path None)) st).

Definition run_finished (run : nat) (c : nat * nat) (s : state) : state :=
  fst ((commit;; set_clock c;; totals_ ← gets counts; finish_run run totals_) s).

(** The content hash of a record. *)
Definition record_hash (d : docket) : string := sha256_hex sha (canonical_json json d).

End RunStates.

(** The parts of the state a call on one kind of entity leaves alone, as
    far as cases and entities go. *)
Definition beside_courts (st : state) :=
  (judges_cache st, judges (db st), case_types_cache st, case_types (db st),
   parties_cache st, parties (db st), cases (db st), case_parties (db st)).

Definition beside_judges (st : state) :=
  (courts_cache st, courts (db st), case_types_cache st, case_types (db st),
   parties_cache st, parties (db st), cases (db st), case_parties (db st)).

Definition beside_case_types (st : state) :=
  (courts_cache st, courts (db st), judges_cache st, judges (db st),
   parties_cache st, parties (db st), cases (db st), case_parties (db st)).

Definition beside_parties (st : state) :=
  (courts_cache st, courts (db st), judges_cache st, judges (db st),
   case_types_cache st, case_types (db st), cases (db st), case_parties (db st)).

Definition entities (st : state) :=
  (courts_cache st, courts (db st), judges_cache st, judges (db st),
   case_types_cache st, case_types (db st), parties_cache st, parties (db st)).

(** Cases, links and entities together. *)
Definition case_side (st : state) :=
  (entities st, cases (db st), case_parties (db st)).

(** ** Vocabulary of the further properties *)

(** A key in canonical form: lower-case words separated by single spaces,
    with no whitespace at either end. *)
Definition canonical (k : string) : Prop :=
  Py.join " " (Py.split_ws k) = k /\ Py.lower k = k.

(** A text of ASCII characters, on which [str.upper] and [str.lower] are
    the maps the model has. *)
Definition ascii_text (s : string) : Prop :=
  Py.all_chars (fun c => (nat_of_ascii c <? 128)%nat) s = true.

(** A character a court key can hold. *)
Definition court_key_char (c : ascii) : bool :=
  negb (bool_decide (c = "."%char)) && negb (Py.isspace c)
  && bool_decide (Py.upper_char c = c).

(** A word: not empty and free of whitespace. *)
Definition word (w : string) : Prop :=
  w <> "" /\ Py.all_chars (fun c => negb (Py.isspace c)) w = true.

(** The decimal digit [n] as a character. *)
Definition digit_char (n : nat) : ascii := ascii_of_nat (48 + n).

(** A number below 100 written with two digits, and a number below 10000
    written with four. *)
Definition two_digits (n : nat) : string :=
  String (digit_char (n / 10)) (String (digit_char (n mod 10)) "").

Definition four_digits (n : nat) : string :=
  two_digits (n / 100) +:+ two_digits (n mod 100).

(** The ways a month or a day is written: padded to two digits, or, below
    ten, as its one digit. *)
Definition written (n : nat) (text : string) : Prop :=
  text = two_digits n \/ (n < 10 /\ text = String (digit_char n) "").

(** The separators of a numeric date. *)
Definition date_separator (c : ascii) : Prop := c = "-"%char \/ c = "/"%char.

(** A date of the calendar. *)
Definition valid_date (y m d : nat) : Prop :=
  1 <= y <= 9999 /\ 1 <= m <= 12 /\ 1 <= d <= days_in_month y m.

(** The ways a month is written by name: its abbreviation or its full
    name, in any mix of upper and lower case. *)
Definition month_written (m : nat) (name : string) : Prop :=
  (Py.lower name, m) ∈ Strptime.month_abbreviations
  \/ (Py.lower name, m) ∈ Strptime.month_names.

(** The status a record is validated with: the text of its [status] field
    in lower case, "active" when it has none. *)
Definition status_of (d : docket) : string :=
  Py.lower (str_of (dict_get d "status" (Py.Str "active"))).

(** The error code each failing check of [process_docket] ends up filed
    under. *)
Definition code_of_check (s : step) (e : Py.exn) (d : docket) : string :=
  match e with
  | Py.AttributeError _ => "UNKNOWN"
  | Py.ValueError msg =>
      match s with
      | AtCaseNumber => "MISSING_CASE_NUMBER"
      | AtFiledDate =>
          if Py.contains "case_number" (Py.lower msg) then "MISSING_CASE_NUMBER"
          else "BAD_DATE"
      | AtCourt => "FK_COURT"
      | AtCaseType => "VALIDATION_ERROR"
      | AtStatus =>
          if Py.contains "case_number" (status_of d) then "MISSING_CASE_NUMBER"
          else if Py.contains "date" (status_of d) then "BAD_DATE"
          else "STATUS_UNMAPPED"
      end
  end.

(** The separators of the sections of a party list. *)
Definition section_separator (c : ascii) : bool :=
  bool_decide (c = ";"%char) || bool_decide (c = "/"%char).

(** A table has a row with a given id. *)
Definition has_court (t : tables) (id : nat) : Prop :=
  exists k row, courts t !! k = Some row /\ entity_id row = id.
Definition has_judge (t : tables) (id : nat) : Prop :=
  exists k row, judges t !! k = Some row /\ entity_id row = id.
Definition has_case_type (t : tables) (id : nat) : Prop :=
  exists k, case_types t !! k = Some id.
Definition has_party (t : tables) (id : nat) : Prop :=
  exists k row, parties t !! k = Some row /\ entity_id row = id.
Definition has_case (t : tables) (id : nat) : Prop :=
  exists cn row, cases t !! cn = Some row /\ case_id row = id.

(** Referential integrity, as the foreign keys of the schema ask for it:
    a case names a court, a case type and, if any, a judge that are there,
    and a link names a case and a party that are there. *)
Definition referential (t : tables) : Prop :=
  (forall cn row, cases t !! cn = Some row ->
     has_court t (court_id row)
     /\ has_case_type t (case_type_id row)
     /\ (forall j, judge_id row = Some j -> has_judge t j))
  /\ (forall c p r, (c, p, r) ∈ case_parties t -> has_case t c /\ has_party t p).

(** The caches agree with the store and the store is referentially
    intact. *)
Definition sound (st : state) : Prop :=
  caches_backed st /\ referential (db st).

(** The open transaction and the committed snapshot are both referentially
    intact, and the caches agree with the open transaction. *)
Definition sound_throughout (st : state) : Prop :=
  sound st /\ referential (committed st).

(** A property of tables that holds of the open transaction and of the
    committed snapshot. *)
Definition both (Q : tables -> Prop) (st : state) : Prop :=
  Q (db st) /\ Q (committed st).

(** A step keeps every property of a family that held of both. *)
Definition keeps_both {X} (F : X -> tables -> Prop) : relation state :=
  fun st st' => forall x, both (F x) st -> both (F x) st'.

(** The runs table holds exactly [runs]. *)
Definition runs_are (runs : gmap nat run_row) (t : tables) : Prop :=
  ingest_runs t = runs.

(** The source name a run is filed under. *)
Definition run_name (json_file_path name : string) : string :=
  if bool_decide (name = "") then basename json_file_path else name.

(** The quarantine line of a rejected record: the run, the error code and
    the message of its rejection, the record as read and its hash. *)
Definition quarantined (hash : docket -> string) (run : nat) (d : docket)
    (l : quarantine_line) : Prop :=
  exists s e,
    rejection d = Some (s, e)
    /\ q_run_id l = run
    /\ q_error_code l = error_code_of e d
    /\ q_why l = Py.str_of_exn e
    /\ q_raw l = d
    /\ q_record_hash l = hash d.

(** The three name-variation tables. *)
Definition variations (st : state) :=
  (court_name_variations (db st), judge_name_variations (db st),
   party_name_variations (db st)).


(** What the store and the ingester hold about judges. *)
Definition judge_side (st : state) :=
  (judges (db st), judge_name_variations (db st), judges_cache st).

(** What the upsert of a case reads besides the record. *)
Definition case_context (st : state) :=
  (cases (db st), cases_id_seq (seqs st), now st).

(** The party named [name] is stored and linked to the case with id [case]
    under [role]. *)
Definition linked (t : tables) (case : nat) (name role : string) : Prop :=
  exists row,
    parties t !! normalize_party_name name = Some row
    /\ (case, entity_id row, role) ∈ case_parties t.

(** The parties a record names. *)
Definition parties_of (d : docket) : list (string * string) :=
  parse_parties (dict_get d "parties" (Py.Str "")).

(** ** Self-test

    [selftest] runs a copy of [parse_date], the same statement for
    statement, on a table of inputs with the dates expected and on a list
    of inputs that must be refused; the printing is left out. *)

Definition test_cases : list (string * date) :=
  [("10-3-2024", Date 2024 10 3);
   ("4-5-2023", Date 2023 4 5);
   ("12-11-2025", Date 2025 12 11);
   ("6-6-2025", Date 2025 6 6);
   ("7-17-2022", Date 2022 7 17);
   ("9-25-2022", Date 2022 9 25);
   ("11-1-2025", Date 2025 11 1);
   ("8/8/2025", Date 2025 8 8);
   ("Oct 3, 2024", Date 2024 10 3);
   ("October 3, 2024", Date 2024 10 3);
   ("2024-10-03", Date 2024 10 3);
   ("03/15/2023", Date 2023 3 15)].

Definition invalid_cases : list Py.value :=
  [Py.Str "13-40-2024"; Py.Str ""; Py.None_].

(** One turn of the first loop on the tally [(passed, failed)]: any
    exception counts as a failure. *)
Definition check_case (tally : nat * nat) (case : string * date) : nat * nat :=
  let '(passed, failed_) := tally in
  let '(input_str, expected) := case in
  match parse_date (Py.Str input_str) with
  | Ok result_ =>
      if bool_decide (result_ = expected) then (passed + 1, failed_)
      else (passed, failed_ + 1)
  | Raise _ => (passed, failed_ + 1)
  end.

(** One turn of the second loop: a [ValueError] is a pass, a date is a
    failure, and another exception is reported and counted as neither. *)
Definition check_invalid (tally : nat * nat) (input_str : Py.value) : nat * nat :=
  let '(passed, failed_) := tally in
  match parse_date input_str with
  | Ok _ => (passed, failed_ + 1)
  | Raise e => if Py.is_ValueError e then (passed + 1, failed_) else (passed, failed_)
  end.

Definition selftest_tally (cases : list (string * date)) (invalid : list Py.value)
    : nat * nat :=
  fold_left check_invalid invalid (fold_left check_case cases (0, 0)).

(** [return failed == 0] *)
Definition selftest : bool :=
  bool_decide (snd (selftest_tally test_cases invalid_cases) = 0).

(** * Properties *)

(** ** DateResolver *)

(** C5. The resolver maps "10-3-2024", "Oct 3, 2024", "October 3, 2024" and
    "2024-10-03" to 2024-10-03 and "03/15/2023" to 2023-03-15; it raises a
    [ValueError] on "13-40-2024", on the empty string and on [None]. *)
Theorem parse_date_examples :
  parse_date (Py.Str "10-3-2024") = Ok (Date 2024 10 3)
  /\ parse_date (Py.Str "Oct 3, 2024") = Ok (Date 2024 10 3)
  /\ parse_date (Py.Str "October 3, 2024") = Ok (Date 2024 10 3)
  /\ parse_date (Py.Str "2024-10-03") = Ok (Date 2024 10 3)
  /\ parse_date (Py.Str "03/15/2023") = Ok (Date 2023 3 15)
  /\ (exists msg, parse_date (Py.Str "13-40-2024") = Raise (Py.ValueError msg))
  /\ (exists msg, parse_date (Py.Str "") = Raise (Py.ValueError msg))
  /\ (exists msg, parse_date Py.None_ = Raise (Py.ValueError msg)).
Proof.
  repeat split; try (vm_compute; reflexivity);
    eexists; vm_compute; reflexivity.
Qed.

(** ** PartyListParser *)

Section PartyParser.

Lemma word_ci_lower p : forall s g r, (g, r) ∈ Re.word_ci p s -> Py.lower g = p.
Proof.
  induction p as [|c p IH]; intros s g r Hin.
  - apply list_elem_of_singleton in Hin. by inversion Hin.
  - simpl in Hin. unfold Re.bind at 1 in Hin.
    apply list_elem_of_bind in Hin as [[d s1] [Hin Hd]].
    unfold Re.pchar in Hd. destruct s as [|x s]; [by apply elem_of_nil in Hd|].
    destruct (bool_decide (Py.lower_char x = c)) eqn:Hx;
      [|by apply elem_of_nil in Hd].
    apply list_elem_of_singleton in Hd. inversion Hd; subst d s1.
    unfold Re.bind in Hin.
    apply list_elem_of_bind in Hin as [[w s2] [Hin Hw]].
    apply list_elem_of_singleton in Hin. inversion Hin; subst g r.
    apply IH in Hw. apply bool_decide_eq_true in Hx.
    unfold Py.lower in *. simpl. by rewrite Hx, Hw.
Qed.

Lemma any_word_ci_lower ws : forall s g r,
  (g, r) ∈ Re.any_word_ci ws s -> Py.lower g ∈ ws.
Proof.
  induction ws as [|w ws IH]; intros s g r Hin.
  - by apply elem_of_nil in Hin.
  - simpl in Hin. unfold Re.palt in Hin. apply elem_of_app in Hin as [Hin|Hin].
    + apply word_ci_lower in Hin. subst w. apply list_elem_of_here.
    + apply list_elem_of_further. eauto.
Qed.

Lemma search_Some {A} (p : Re.parser A) s a :
  Re.search p s = Some a -> exists s' r, (a, r) ∈ p s'.
Proof.
  induction s as [|c s IH]; simpl.
  - destruct (p "") as [|[a' r] l] eqn:Hp; [done|].
    intros [= ->]. exists "", r. rewrite Hp. apply list_elem_of_here.
  - destruct (p (String c s)) as [|[a' r] l] eqn:Hp; [exact IH|].
    intros [= ->]. exists (String c s), r. rewrite Hp. apply list_elem_of_here.
Qed.

Lemma role_re_lower s g r : (g, r) ∈ role_re s -> Py.lower g ∈ role_words.
Proof.
  unfold role_re, Re.skip. intros Hin.
  apply list_elem_of_bind in Hin as [s1 [Hin _]].
  unfold Re.bind in Hin. apply list_elem_of_bind in Hin as [[w s2] [Hin Hw]].
  unfold Re.skip in Hin. apply list_elem_of_bind in Hin as [s3 [Hin _]].
  apply list_elem_of_singleton in Hin. inversion Hin; subst.
  by apply any_word_ci_lower in Hw.
Qed.

(** The five roles a link can carry. *)
Lemma singular_role g :
  Py.lower g ∈ role_words ->
  (if Py.endswith_char "s" (Py.lower g) then Py.drop_last (Py.lower g) else Py.lower g)
    ∈ ["plaintiff"; "defendant"; "third_party"; "intervenor"; "other"].
Proof.
  intros Hin. unfold role_words in Hin.
  repeat (apply elem_of_cons in Hin as [->|Hin]; [vm_compute; set_solver|]). 
  by apply elem_of_nil in Hin.
Qed.

Lemma split_party_names_nonempty section name :
  name ∈ split_party_names section -> name <> "".
Proof.
  unfold split_party_names. intros Hin.
  apply list_elem_of_fmap in Hin as [p [-> Hp]].
  by apply list_elem_of_filter in Hp as [Hp _].
Qed.

Lemma parse_section_sound section name role :
  (name, role) ∈ parse_section section ->
  name <> ""
  /\ role ∈ ["plaintiff"; "defendant"; "third_party"; "intervenor"; "other"].
Proof.
  unfold parse_section. case_bool_decide; [by intros ?%elem_of_nil|].
  destruct (Re.search role_re (Py.strip section)) as [g|] eqn:Hs; intros Hin;
    apply list_elem_of_fmap in Hin as [n [[= -> ->] Hn]];
    apply list_elem_of_filter in Hn as [Hne _]; split; try done.
  - apply search_Some in Hs as (s' & r & Hg).
    apply singular_role. by eapply role_re_lower.
  - set_solver.
Qed.

End PartyParser.

(** C8. The party string of the docstring parses to the three pairs in
    order; the parser is a total function of its input, and whatever the
    input, every pair it returns has a non-empty name and one of the five
    roles, empty or absent input giving the empty sequence. *)
Theorem parse_parties_example_total :
  parse_parties (Py.Str "John Smith (plaintiff); Acme Corp, Jane Doe (defendants)")
  = [("John Smith", "plaintiff"); ("Acme Corp", "defendant"); ("Jane Doe", "defendant")]
  /\ parse_parties (Py.Str "") = []
  /\ parse_parties Py.None_ = []
  /\ (forall v, exists pairs, parse_parties v = pairs
        /\ forall name role, (name, role) ∈ pairs ->
             name <> ""
             /\ role ∈ ["plaintiff"; "defendant"; "third_party"; "intervenor"; "other"]).
Proof.
  split; [vm_compute; reflexivity|].
  split; [reflexivity|]. split; [reflexivity|].
  intros v. eexists; split; [reflexivity|]. intros name role.
  unfold parse_parties. destruct (Py.falsy v); [by intros ?%elem_of_nil|].
  destruct v as [|s]; [by intros ?%elem_of_nil|].
  intros Hin. apply list_elem_of_bind in Hin as [section [Hin _]].
  by apply parse_section_sound in Hin.
Qed.

(** ** Normalizer *)

Section Normalizer.

Lemma isspace_lower_char c : Py.isspace c = true -> Py.lower_char c = c.
Proof.
  destruct c as [[] [] [] [] [] [] [] []]; try discriminate; reflexivity.
Qed.

Lemma lower_char_not_space c p :
  Py.lower_char c = p -> Py.isspace p = false -> Py.isspace c = false.
Proof.
  intros Hc Hp. destruct (Py.isspace c) eqn:Hs; [|done].
  apply isspace_lower_char in Hs as Hl. congruence.
Qed.

Lemma seq_cons (m1 m2 : Re.matcher) s r rs :
  m1 s = r :: rs -> Re.seq m1 m2 s = m2 r ++ (rs ≫= m2).
Proof. unfold Re.seq. by intros ->. Qed.

Lemma seq_nil (m1 m2 : Re.matcher) s : m1 s = [] -> Re.seq m1 m2 s = [].
Proof. unfold Re.seq. by intros ->. Qed.

Lemma lit_ci_cons p0 p c s :
  Re.lit_ci (String p0 p) (String c s)
  = if bool_decide (Py.lower_char c = p0) then Re.lit_ci p s else [].
Proof.
  simpl. unfold Re.seq, Re.char_ci, Re.char_if.
  case_bool_decide; simpl; [apply app_nil_r|done].
Qed.

Lemma lit_ci_nil_l p0 p : Re.lit_ci (String p0 p) "" = [].
Proof. reflexivity. Qed.

Lemma lit_ci_app tok s : Re.lit_ci (Py.lower tok) (tok +:+ s) = [s].
Proof.
  induction tok as [|c tok IH]; [done|].
  change (Re.lit_ci (String (Py.lower_char c) (Py.lower tok))
            (String c (tok +:+ s)) = [s]).
  rewrite lit_ci_cons, bool_decide_eq_true_2; done.
Qed.

Lemma lstrip_blank_app ws rest : blank ws -> Py.lstrip (ws +:+ rest) = Py.lstrip rest.
Proof.
  unfold blank. induction ws as [|c ws IH]; [done|]; simpl.
  intros [Hc Hws]%andb_true_iff.
  change (Py.lstrip (String c (ws +:+ rest)) = Py.lstrip rest).
  simpl. rewrite Hc. auto.
Qed.

Lemma star_ws_head s : exists tl, Re.star_if Py.isspace s = Py.lstrip s :: tl.
Proof.
  induction s as [|c s [tl IH]]; simpl; [by eexists|].
  destruct (Py.isspace c); [|by eexists].
  rewrite IH. by eexists.
Qed.

Lemma plus_ws_head ws rest :
  ws <> "" -> blank ws -> exists tl, Re.plus_ws (ws +:+ rest) = Py.lstrip rest :: tl.
Proof.
  destruct ws as [|c ws]; [done|]. intros _ [Hc Hws]%andb_true_iff.
  change (exists tl, Re.plus_ws (String c (ws +:+ rest)) = Py.lstrip rest :: tl).
  unfold Re.plus_ws, Re.plus_if, Re.seq, Re.char_if. rewrite Hc. simpl.
  destruct (star_ws_head (ws +:+ rest)) as [tl ->].
  rewrite lstrip_blank_app by done. by eexists.
Qed.

Lemma plus_ws_nil : Re.plus_ws "" = [].
Proof. reflexivity. Qed.

Lemma plus_ws_not_space c s : Py.isspace c = false -> Re.plus_ws (String c s) = [].
Proof. intros Hc. unfold Re.plus_ws, Re.plus_if, Re.seq, Re.char_if. by rewrite Hc. Qed.

Lemma split_ws_lstrip s : Py.split_ws (Py.lstrip s) = Py.split_ws s.
Proof.
  induction s as [|c s IH]; [done|]. simpl.
  destruct (Py.isspace c) eqn:Hc; [done|]. simpl. by rewrite Hc.
Qed.

Lemma split_ws_blank s : blank s -> Py.split_ws s = [].
Proof.
  unfold blank. induction s as [|c s IH]; [done|]. simpl.
  intros [-> Hs]%andb_true_iff. auto.
Qed.

(** A leading whitespace character keeps the honorific pattern from
    matching. *)
Lemma honorific_re_space c s : Py.isspace c = true -> honorific_re (String c s) = [].
Proof.
  intros Hc. unfold honorific_re, Re.alt.
  apply seq_nil.
  rewrite (seq_nil (Re.lit_ci "hon")).
  - rewrite !lit_ci_cons, (isspace_lower_char c Hc).
    destruct c as [[] [] [] [] [] [] [] []]; try discriminate; reflexivity.
  - rewrite lit_ci_cons, (isspace_lower_char c Hc).
    destruct c as [[] [] [] [] [] [] [] []]; try discriminate; reflexivity.
Qed.

Lemma app_String c s t : String c s +:+ t = String c (s +:+ t).
Proof. reflexivity. Qed.

Lemma app_empty t : "" +:+ t = t.
Proof. reflexivity. Qed.

Lemma opt_dot_space c s :
  Py.isspace c = true -> Re.opt (Re.char_ci ".") (String c s) = [String c s].
Proof.
  intros Hc. unfold Re.opt, Re.char_ci, Re.char_if.
  rewrite (isspace_lower_char c Hc), bool_decide_eq_false_2; [done|].
  intros ->. discriminate.
Qed.

(** Splits a token whose lower-case form is a known word into its
    characters, each with its lower-case form. *)
Ltac explode tok H :=
  repeat (destruct tok as [|? tok]; [discriminate H|]);
  destruct tok; [|discriminate H];
  unfold Py.lower in H; simpl in H; simplify_eq H; intros.

Ltac step_lit :=
  repeat (rewrite lit_ci_cons;
          first [ rewrite bool_decide_eq_true_2 by assumption
                | rewrite bool_decide_eq_false_2 by congruence ]).

(** After an honorific and at least one whitespace character the pattern
    matches, and its first match ends where the whitespace ends. *)
Lemma honorific_re_strips tok ws rest :
  Py.lower tok ∈ honorifics -> ws <> "" -> blank ws ->
  exists tl, honorific_re (tok +:+ ws +:+ rest) = Py.lstrip rest :: tl.
Proof.
  intros Htok Hne Hws. unfold honorifics in Htok.
  destruct (plus_ws_head ws rest Hne Hws) as [tl Hplus].
  destruct ws as [|w ws]; [done|]. apply andb_true_iff in Hws as [Hw Hws].
  rewrite app_String in *.
  unfold honorific_re, Re.alt.
  apply elem_of_cons in Htok as [Htok|Htok]; [|
  apply elem_of_cons in Htok as [Htok|Htok]; [|
  apply elem_of_cons in Htok as [Htok|Htok]; [|
  apply list_elem_of_singleton in Htok]]].
  - explode tok Htok. rewrite !app_String, app_empty.
    erewrite seq_cons; [rewrite Hplus; by eexists|].
    erewrite (seq_cons (Re.lit_ci "hon")); [| by step_lit].
    rewrite opt_dot_space by done. simpl. by step_lit.
  - explode tok Htok. rewrite !app_String, app_empty.
    erewrite seq_cons; [rewrite Hplus; by eexists|].
    erewrite (seq_cons (Re.lit_ci "hon")); [| by step_lit].
    unfold Re.opt, Re.char_ci, Re.char_if.
    rewrite bool_decide_eq_true_2 by assumption. simpl. by step_lit.
  - explode tok Htok. rewrite !app_String, app_empty.
    erewrite seq_cons; [rewrite Hplus; by eexists|].
    rewrite (seq_nil (Re.lit_ci "hon")) by (by step_lit).
    rewrite app_nil_l. by step_lit.
  - explode tok Htok. rewrite !app_String, app_empty.
    erewrite seq_cons; [rewrite Hplus; by eexists|].
    rewrite (seq_nil (Re.lit_ci "hon")) by (by step_lit).
    rewrite app_nil_l. by step_lit.
Qed.

(** Without whitespace after it an honorific is not matched. *)
Lemma honorific_re_alone tok : Py.lower tok ∈ honorifics -> honorific_re tok = [].
Proof.
  intros Htok. unfold honorifics in Htok. unfold honorific_re, Re.alt.
  apply elem_of_cons in Htok as [Htok|Htok]; [|
  apply elem_of_cons in Htok as [Htok|Htok]; [|
  apply elem_of_cons in Htok as [Htok|Htok]; [|
  apply list_elem_of_singleton in Htok]]].
  - explode tok Htok. unfold Re.seq. step_lit. reflexivity.
  - explode tok Htok. unfold Re.seq. step_lit. simpl.
    unfold Re.opt, Re.char_ci, Re.char_if.
    rewrite bool_decide_eq_true_2 by assumption. simpl.
    rewrite plus_ws_not_space; [done|]. by eapply lower_char_not_space.
  - explode tok Htok. unfold Re.seq. step_lit. reflexivity.
  - explode tok Htok. unfold Re.seq. step_lit. reflexivity.
Qed.

Lemma lower_no_space s :
  Py.all_chars (fun c => negb (Py.isspace c)) (Py.lower s) = true ->
  Py.all_chars (fun c => negb (Py.isspace c)) s = true.
Proof.
  induction s as [|c s IH]; [done|]. unfold Py.lower. simpl.
  intros [Hc Hs]%andb_true_iff. apply andb_true_iff. split; [|by apply IH].
  apply negb_true_iff. eapply lower_char_not_space; [done|by apply negb_true_iff].
Qed.

Lemma split_ws_word s :
  s <> "" -> Py.all_chars (fun c => negb (Py.isspace c)) s = true ->
  Py.split_ws s = [s].
Proof.
  induction s as [|c s IH]; [done|]. intros _ [Hc Hs]%andb_true_iff.
  apply negb_true_iff in Hc. simpl. rewrite Hc.
  destruct s as [|d s]; [done|].
  rewrite IH by done. simpl in Hs. apply andb_true_iff in Hs as [Hd _].
  apply negb_true_iff in Hd. by rewrite Hd.
Qed.

Lemma honorific_nonempty tok : Py.lower tok ∈ honorifics -> tok <> "".
Proof.
  intros H ->. unfold honorifics in H.
  repeat (apply elem_of_cons in H as [H|H]; [discriminate|]).
  by apply elem_of_nil in H.
Qed.

Lemma honorific_is_word tok :
  Py.lower tok ∈ honorifics -> Py.split_ws tok = [tok].
Proof.
  intros Htok. apply split_ws_word.
  - by apply honorific_nonempty.
  - apply lower_no_space. unfold honorifics in Htok.
    repeat (apply elem_of_cons in Htok as [->|Htok]; [reflexivity|]).
    by apply elem_of_nil in Htok.
Qed.

Lemma app_empty_r s : s +:+ "" = s.
Proof. induction s as [|c s IH]; [done|]. by rewrite app_String, IH. Qed.

Lemma lower_snoc tok c :
  Py.lower (tok +:+ String c "") = Py.lower tok +:+ String (Py.lower_char c) "".
Proof.
  induction tok as [|d tok IH]; [done|].
  rewrite app_String. unfold Py.lower in *. simpl. by rewrite IH, app_String.
Qed.

Lemma app_snoc tok c rest : (tok +:+ String c "") +:+ rest = tok +:+ String c rest.
Proof. induction tok as [|d tok IH]; [done|]. by rewrite !app_String, IH. Qed.

(** What a literal word matched is a spelling of it. *)
Lemma lit_ci_inv p : forall s r,
  r ∈ Re.lit_ci p s -> exists tok, s = tok +:+ r /\ Py.lower tok = p.
Proof.
  induction p as [|c p IH]; intros s r Hr.
  { apply list_elem_of_singleton in Hr as ->. by exists "". }
  destruct s as [|d s]; [by apply elem_of_nil in Hr|].
  rewrite lit_ci_cons in Hr. case_bool_decide as Hd; [|by apply elem_of_nil in Hr].
  destruct (IH s r Hr) as (tok & -> & Htok).
  exists (String d tok). split; [done|]. unfold Py.lower in *. simpl. by rewrite Hd, Htok.
Qed.

Lemma plus_ws_inv s r :
  r ∈ Re.plus_ws s -> exists c rest, s = String c rest /\ Py.isspace c = true.
Proof.
  destruct s as [|c rest]; [by intros ?%elem_of_nil|].
  destruct (Py.isspace c) eqn:Hc; [by eauto|].
  rewrite plus_ws_not_space by done. by intros ?%elem_of_nil.
Qed.

(** The pattern matches only at an honorific that whitespace follows. *)
Lemma honorific_re_inv s r :
  r ∈ honorific_re s ->
  exists tok c rest,
    s = tok +:+ String c rest /\ Py.lower tok ∈ honorifics /\ Py.isspace c = true.
Proof.
  unfold honorific_re, Re.seq, Re.alt, Re.opt. intros Hr.
  apply list_elem_of_bind in Hr as (r0 & Hr & Hr0).
  apply plus_ws_inv in Hr as (c & rest & -> & Hc).
  apply elem_of_app in Hr0 as [Hr0|Hr0].
  - apply list_elem_of_bind in Hr0 as (r1 & Hr0 & Hr1).
    apply lit_ci_inv in Hr1 as (tok & -> & Htok).
    apply elem_of_app in Hr0 as [Hr0|Hr0].
    + unfold Re.char_ci, Re.char_if in Hr0.
      destruct r1 as [|d r1]; [by apply elem_of_nil in Hr0|].
      case_bool_decide as Hd; [|by apply elem_of_nil in Hr0].
      apply list_elem_of_singleton in Hr0 as <-.
      exists (tok +:+ String d ""), c, rest.
      split; [by rewrite app_snoc|]. split; [|done].
      rewrite lower_snoc, Htok, Hd. unfold honorifics. set_solver.
    + apply list_elem_of_singleton in Hr0 as <-.
      exists tok, c, rest. split; [done|]. split; [|done].
      rewrite Htok. unfold honorifics. set_solver.
  - apply elem_of_app in Hr0 as [Hr0|Hr0];
      apply lit_ci_inv in Hr0 as (tok & -> & Htok);
      exists tok, c, rest; (split; [done|]); (split; [|done]);
      rewrite Htok; unfold honorifics; set_solver.
Qed.

(** A name that does not start with an honorific and whitespace is left
    to the collapsing of whitespace and to [lower]. *)
Lemma normalize_judge_name_plain raw :
  (forall tok c rest,
     raw = tok +:+ String c rest -> Py.isspace c = true -> Py.lower tok ∉ honorifics) ->
  normalize_judge_name raw = Py.lower (Py.join " " (Py.split_ws raw)).
Proof.
  intros Hplain. unfold normalize_judge_name, sub_at_start.
  destruct (honorific_re raw) as [|r tl] eqn:E.
  - case_bool_decide as Hraw; [by subst raw|done].
  - assert (Hr : r ∈ honorific_re raw) by (rewrite E; by left).
    apply honorific_re_inv in Hr as (tok & c & rest & Hraw & Htok & Hc).
    by destruct (Hplain tok c rest Hraw Hc).
Qed.

(** An honorific starts with an h or a j, in either case. *)
Lemma honorific_first_letter tok :
  Py.lower tok ∈ honorifics ->
  exists c tl, tok = String c tl
               /\ (Py.lower_char c = "h"%char \/ Py.lower_char c = "j"%char).
Proof.
  intros Htok. destruct tok as [|c tl].
  { by apply honorific_nonempty in Htok. }
  exists c, tl. split; [done|]. unfold honorifics, Py.lower in Htok. simpl in Htok.
  repeat (apply elem_of_cons in Htok as [Htok|Htok];
          [injection Htok as Hc _; by (left + right)|]).
  by apply elem_of_nil in Htok.
Qed.

Lemma plain_by_first_letter c0 s :
  Py.lower_char c0 <> "h"%char -> Py.lower_char c0 <> "j"%char ->
  forall tok c rest,
    String c0 s = tok +:+ String c rest -> Py.isspace c = true ->
    Py.lower tok ∉ honorifics.
Proof.
  intros Hh Hj tok c rest Hraw Hc Htok.
  apply honorific_first_letter in Htok as (d & tl & -> & Hd).
  rewrite app_String in Hraw. injection Hraw as -> _. by destruct Hd.
Qed.

End Normalizer.

(** C4, at the failing input. An honorific token (Hon, Hon., Judge,
    Justice in any case) is stripped when whitespace follows it, and what
    is left is collapsed and lowercased; a name that does not start with
    such a token and whitespace is collapsed and lowercased as it is; empty
    and blank input, and an honorific followed by whitespace only, give the
    empty key. An honorific with nothing after it is not stripped: its key
    is the token in lower case, not the empty key, and the judge resolver
    stores a judge under it. *)
Theorem normalize_judge_name_strips_honorific :
  (forall tok ws rest,
     Py.lower tok ∈ honorifics -> ws <> "" -> blank ws ->
     normalize_judge_name (tok +:+ ws +:+ rest)
     = Py.lower (Py.join " " (Py.split_ws rest)))
  /\ (forall raw,
        (forall tok c rest,
           raw = tok +:+ String c rest -> Py.isspace c = true ->
           Py.lower tok ∉ honorifics) ->
        normalize_judge_name raw = Py.lower (Py.join " " (Py.split_ws raw)))
  /\ (forall s, blank s -> normalize_judge_name s = "")
  /\ (forall tok ws,
        Py.lower tok ∈ honorifics -> ws <> "" -> blank ws ->
        normalize_judge_name (tok +:+ ws) = "")
  /\ (forall tok,
        Py.lower tok ∈ honorifics ->
        normalize_judge_name tok = Py.lower tok /\ normalize_judge_name tok <> "")
  /\ (let r := get_or_create_judge (Py.Str "Judge") empty_store in
      normalize_judge_name "Judge" = "judge"
      /\ snd r = Ok (Some 1)
      /\ judges (db (fst r)) !! "judge" = Some (EntityRow 1 "Judge")).
Proof.
  assert (Hstrip : forall tok ws rest,
     Py.lower tok ∈ honorifics -> ws <> "" -> blank ws ->
     normalize_judge_name (tok +:+ ws +:+ rest)
     = Py.lower (Py.join " " (Py.split_ws rest))).
  { intros tok ws rest Htok Hne Hws. unfold normalize_judge_name, sub_at_start.
    destruct (honorific_re_strips tok ws rest Htok Hne Hws) as [tl ->].
    rewrite split_ws_lstrip. case_bool_decide as Hempty; [|done].
    destruct tok; [by apply honorific_nonempty in Htok|discriminate]. }
  assert (Halone : forall tok,
     Py.lower tok ∈ honorifics -> normalize_judge_name tok = Py.lower tok).
  { intros tok Htok. unfold normalize_judge_name, sub_at_start.
    rewrite honorific_re_alone, honorific_is_word by done.
    case_bool_decide as Hempty; [|done]. by subst tok. }
  split; [exact Hstrip|]. split; [exact normalize_judge_name_plain|].
  split; [|split; [|split]].
  - intros s Hs. unfold normalize_judge_name, sub_at_start.
    case_bool_decide; [done|]. destruct s as [|c s]; [done|].
    apply andb_true_iff in Hs as Hcs. destruct Hcs as [Hc _].
    rewrite honorific_re_space by done. by rewrite split_ws_blank.
  - intros tok ws Htok Hne Hws.
    rewrite <- (app_empty_r ws). by rewrite Hstrip.
  - intros tok Htok. split; [by apply Halone|].
    rewrite Halone by done. intros Hempty. rewrite Hempty in Htok.
    unfold honorifics in Htok. set_solver.
  - vm_compute. done.
Qed.

(** C4, witness: "Hon. Maria Rodriguez", "Sarah  Chen", which has no
    honorific, a blank string, "JUDGE " and "Justice". *)
Lemma normalize_judge_name_strips_honorific_witness :
  normalize_judge_name ("Hon." +:+ " " +:+ "Maria  Rodriguez") = "maria rodriguez"
  /\ normalize_judge_name "Sarah  Chen" = "sarah chen"
  /\ normalize_judge_name "  " = ""
  /\ normalize_judge_name ("JUDGE" +:+ " ") = ""
  /\ normalize_judge_name "Justice" = "justice".
Proof.
  destruct normalize_judge_name_strips_honorific as (H1 & H2 & H3 & H4 & H5 & _).
  split; [|split; [|split; [|split]]].
  - rewrite (H1 "Hon." " " "Maria  Rodriguez");
      [reflexivity|vm_compute; set_solver|discriminate|reflexivity].
  - rewrite (H2 "Sarah  Chen"); [reflexivity|].
    apply plain_by_first_letter; discriminate.
  - apply (H3 "  "). reflexivity.
  - apply (H4 "JUDGE" " "); [vm_compute; set_solver|discriminate|reflexivity].
  - destruct (H5 "Justice") as [-> _]; [vm_compute; set_solver|reflexivity].
Defined.

(** ** Reasoning about methods *)

Section Methods.

Context (R : relation state) `{!PreOrder R}.

Lemma respects_ret {A} (a : A) : respects R (ret a).
Proof. intros st. reflexivity. Qed.

Lemma respects_mret {A} (a : A) : respects R (mret a : M A).
Proof. intros st. reflexivity. Qed.

Lemma respects_raise {A} e : respects R (raise e : M A).
Proof. intros st. reflexivity. Qed.

Lemma respects_lift {A} (r : result A) : respects R (lift r).
Proof. intros st. reflexivity. Qed.

Lemma respects_gets {A} (f : state -> A) : respects R (gets f).
Proof. intros st. reflexivity. Qed.

Lemma respects_modify f : (forall st, R st (f st)) -> respects R (modify f).
Proof. intros H st. apply H. Qed.

Lemma respects_bind {A B} (m : M A) (f : A -> M B) :
  respects R m -> (forall a, respects R (f a)) -> respects R (m ≫= f).
Proof.
  intros Hm Hf st. unfold mbind, M_bind, bind.
  specialize (Hm st). destruct (m st) as [st' [a|e]]; simpl in *; [|done].
  etrans; [exact Hm|apply Hf].
Qed.

Lemma respects_try_except {A} (m : M A) h :
  respects R m -> (forall e, respects R (h e)) -> respects R (try_except m h).
Proof.
  intros Hm Hh st. unfold try_except.
  specialize (Hm st). destruct (m st) as [st' [a|e]]; simpl in *; [done|].
  etrans; [exact Hm|apply Hh].
Qed.

End Methods.

Global Instance same_preorder {X} (f : state -> X) : PreOrder (same f).
Proof. split; [by intros ?|intros ??? H1 H2; unfold same in *; congruence]. Qed.

(** Takes a method apart along its structure; what is left are the
    statements that write, and the calls. *)
Ltac frame_step :=
  first
    [ apply respects_ret | apply respects_mret | apply respects_raise
    | apply respects_lift | apply respects_gets
    | apply respects_bind
    | apply respects_try_except
    | match goal with
      | |- respects _ (match ?x with _ => _ end) => destruct x
      end ].

Ltac frame := repeat (frame_step; try apply _; intros).

Lemma respects_run (R : relation state) {A} (m : M A) st st' r :
  respects R m -> m st = (st', r) -> R st st'.
Proof. intros H E. specialize (H st). by rewrite E in H. Qed.

(** Settles that a method leaves alone a part of the state none of its
    statements writes. *)
Ltac keeps :=
  unfold get_or_create_court, get_or_create_judge, get_or_create_case_type,
    get_or_create_party, record_court_variation, record_judge_variation,
    record_party_variation, insert_case_party, commit, set_clock;
  frame;
  first [ apply respects_modify; [apply _ .. | intros; reflexivity]
        | intros ?; reflexivity
        | intros ?; unfold upsert_case; simpl; case_match; reflexivity ].

(** ** EntityResolver *)

Section EntityResolver.

Lemma falsy_Str raw : raw <> "" -> Py.falsy (Py.Str raw) = false.
Proof. intros H. simpl. by apply bool_decide_eq_false_2. Qed.

Lemma upsert_observed t key rows : observed t key rows (upsert_variation t key rows).
Proof.
  unfold observed, upsert_variation.
  destruct (rows !! key); by rewrite lookup_insert_eq.
Qed.


Lemma upsert_is_Some t key rows : is_Some (upsert_variation t key rows !! key).
Proof. rewrite upsert_observed. eauto. Qed.

Lemma get_or_create_court_run raw st :
  raw <> "" ->
  let k := normalize_court_name raw in
  let id := resolved_id (courts_cache st) (courts (db st)) (courts_id_seq (seqs st)) k in
  exists st',
    get_or_create_court (Py.Str raw) st = (st', Ok id)
    /\ courts_cache st' !! k = Some id
    /\ court_name_variations (db st')
       = upsert_variation (now st) (id, raw) (court_name_variations (db st))
    /\ now st' = now st.
Proof.
  intros Hraw k id. unfold get_or_create_court.
  rewrite falsy_Str by done. subst id. unfold resolved_id. simpl. fold k.
  unfold mbind, M_bind, bind, gets, select_id. simpl.
  destruct (courts_cache st !! k) as [cached|] eqn:Hc; simpl.
  - eexists; split; [reflexivity|]. simpl. by rewrite Hc.
  - destruct (courts (db st) !! k) as [row|] eqn:Hr; simpl;
      (eexists; split; [reflexivity|]); simpl; by rewrite lookup_insert_eq.
Qed.

Lemma get_or_create_judge_run raw st :
  raw <> "" -> normalize_judge_name raw <> "" ->
  let k := normalize_judge_name raw in
  let id := resolved_id (judges_cache st) (judges (db st)) (judges_id_seq (seqs st)) k in
  exists st',
    get_or_create_judge (Py.Str raw) st = (st', Ok (Some id))
    /\ judges_cache st' !! k = Some id
    /\ judge_name_variations (db st')
       = upsert_variation (now st) (id, raw) (judge_name_variations (db st))
    /\ now st' = now st.
Proof.
  intros Hraw Hk k id. unfold get_or_create_judge.
  rewrite falsy_Str by done. subst id. unfold resolved_id. simpl. fold k.
  rewrite bool_decide_eq_false_2 by done.
  unfold mbind, M_bind, bind, gets, select_id. simpl.
  destruct (judges_cache st !! k) as [cached|] eqn:Hc; simpl.
  - eexists; split; [reflexivity|]. simpl. by rewrite Hc.
  - destruct (judges (db st) !! k) as [row|] eqn:Hr; simpl;
      (eexists; split; [reflexivity|]); simpl; by rewrite lookup_insert_eq.
Qed.

Lemma get_or_create_party_run raw st :
  raw <> "" ->
  let k := normalize_party_name raw in
  let id := resolved_id (parties_cache st) (parties (db st)) (parties_id_seq (seqs st)) k in
  exists st',
    get_or_create_party (Py.Str raw) st = (st', Ok id)
    /\ parties_cache st' !! k = Some id
    /\ party_name_variations (db st')
       = upsert_variation (now st) (id, raw) (party_name_variations (db st))
    /\ now st' = now st.
Proof.
  intros Hraw k id. unfold get_or_create_party.
  rewrite falsy_Str by done. subst id. unfold resolved_id. simpl. fold k.
  unfold mbind, M_bind, bind, gets, select_id. simpl.
  destruct (parties_cache st !! k) as [cached|] eqn:Hc; simpl.
  - eexists; split; [reflexivity|]. simpl. by rewrite Hc.
  - destruct (parties (db st) !! k) as [row|] eqn:Hr; simpl;
      (eexists; split; [reflexivity|]); simpl; by rewrite lookup_insert_eq.
Qed.


End EntityResolver.

(** C3, at the failing inputs. A court name of periods and spaces, a blank
    party name and a blank case type have the empty key, and each is
    resolved: the call returns an id and a row with the empty key is
    stored. *)
Theorem blank_names_are_resolved :
  (normalize_court_name ". ." = ""
   /\ let r := get_or_create_court (Py.Str ". .") empty_store in
      snd r = Ok 1 /\ courts (db (fst r)) !! "" = Some (EntityRow 1 ". ."))
  /\ (normalize_party_name "  " = ""
      /\ let r := get_or_create_party (Py.Str "  ") empty_store in
         snd r = Ok 1 /\ parties (db (fst r)) !! "" = Some (EntityRow 1 "  "))
  /\ (Py.strip (Py.lower " ") = ""
      /\ let r := get_or_create_case_type (Py.Str " ") empty_store in
         snd r = Ok 1 /\ case_types (db (fst r)) !! "" = Some 1).
Proof. repeat split; vm_compute; reflexivity. Qed.

(** ** RecordProcessor *)

Section RecordProcessor.

Local Arguments get_or_create_court : simpl never.
Local Arguments get_or_create_judge : simpl never.
Local Arguments get_or_create_case_type : simpl never.
Local Arguments get_or_create_party : simpl never.
Local Arguments upsert_case : simpl never.
Local Arguments link_parties : simpl never.
Local Arguments parse_parties : simpl never.
Local Arguments parse_date : simpl never.

Lemma falsy_inv v : Py.falsy v = false -> exists raw, v = Py.Str raw /\ raw <> "".
Proof.
  destruct v as [|raw]; [done|]. simpl. intros H%bool_decide_eq_false. eauto.
Qed.

Lemma get_or_create_court_falsy v st :
  Py.falsy v = true ->
  get_or_create_court v st = (st, Raise (Py.ValueError "Court name cannot be empty")).
Proof. intros H. unfold get_or_create_court. by rewrite H. Qed.

Lemma get_or_create_court_returns v st :
  Py.falsy v = false -> exists st' id, get_or_create_court v st = (st', Ok id).
Proof.
  intros (raw & -> & Hraw)%falsy_inv.
  destruct (get_or_create_court_run raw st Hraw) as (st' & E & _). eauto.
Qed.

Lemma get_or_create_judge_returns v st :
  exists st' j, get_or_create_judge v st = (st', Ok j).
Proof.
  destruct (Py.falsy v) eqn:Hv.
  { unfold get_or_create_judge. rewrite Hv. by eexists _, _. }
  apply falsy_inv in Hv as (raw & -> & Hraw).
  destruct (decide (normalize_judge_name raw = "")) as [Hk|Hk].
  - unfold get_or_create_judge. rewrite falsy_Str by done. simpl.
    rewrite bool_decide_eq_true_2 by done. by eexists _, _.
  - destruct (get_or_create_judge_run raw st Hraw Hk) as (st' & E & _). eauto.
Qed.

Lemma get_or_create_case_type_falsy v st :
  Py.falsy v = true ->
  get_or_create_case_type v st = (st, Raise (Py.ValueError "Case type cannot be empty")).
Proof. intros H. unfold get_or_create_case_type. by rewrite H. Qed.

Lemma get_or_create_case_type_returns v st :
  Py.falsy v = false -> exists st' id, get_or_create_case_type v st = (st', Ok id).
Proof.
  intros Hv. unfold get_or_create_case_type. rewrite Hv.
  unfold mbind, M_bind, bind, gets. simpl.
  destruct (case_types_cache st !! _); [by eexists _, _|]. simpl.
  destruct (case_types (db st) !! _); by eexists _, _.
Qed.

Lemma get_or_create_party_returns raw st :
  raw <> "" -> exists st' id, get_or_create_party (Py.Str raw) st = (st', Ok id).
Proof.
  intros Hraw. destruct (get_or_create_party_run raw st Hraw) as (st' & E & _). eauto.
Qed.

Lemma upsert_case_returns cn c t f ct j x s st :
  exists st' id ins, upsert_case cn c t f ct j x s st = (st', Ok (id, ins)).
Proof. unfold upsert_case. destruct (cases (db st) !! cn); by eexists _, _, _. Qed.

Lemma link_parties_returns case cn l :
  forall st, exists st', link_parties case cn l st = (st', Ok tt).
Proof.
  induction l as [|[name role] l IH]; intros st; [by eexists|].
  unfold link_parties; fold link_parties.
  unfold mbind, M_bind, bind, try_except.
  destruct (get_or_create_party (Py.Str name) st) as [st1 [pid|e]]; simpl; apply IH.
Qed.

Lemma party_phase_returns case cn l st :
  exists st', party_phase case cn l st = (st', Ok tt).
Proof.
  destruct l; [by eexists|]. apply link_parties_returns.
Qed.

(** The run of an accepted record, call by call. *)
Lemma process_docket_accepted d st :
  rejection d = None ->
  exists filed status_ s1 court s2 judge s3 case_type s4 case ins s5,
    let cn := case_number_of d in
    cn <> ""
    /\ parse_date (dict_get d "filed_date" (Py.Str "")) = Ok filed
    /\ get_lower d "status" "active" = Ok status_
    /\ status_ ∈ valid_statuses
    /\ get_or_create_court (dict_get d "court" (Py.Str "")) st = (s1, Ok court)
    /\ get_or_create_judge (dict_get d "judge" Py.None_) s1 = (s2, Ok judge)
    /\ get_or_create_case_type (dict_get d "case_type" (Py.Str "civil")) s2
       = (s3, Ok case_type)
    /\ upsert_case cn court (dict_get d "title" (Py.Str "")) filed case_type judge
         (dict_get d "docket_text" (Py.Str "")) status_ s3
       = (s4, Ok (case, ins))
    /\ party_phase case cn (parse_parties (dict_get d "parties" (Py.Str "")))
         (with_processed_cases (fun seen => {[ cn ]} ∪ seen) s4)
       = (s5, Ok tt)
    /\ process_docket d st
       = (s5, Ok (true, if ins then "inserted" else "updated")).
Proof.
  unfold rejection, case_number_of. intros Hrej.
  destruct (get_strip d "case_number" "") as [cn|] eqn:Hcn; [|done].
  case_bool_decide as Hne; [done|].
  destruct (parse_date _) as [filed|] eqn:Hdate; [|done].
  destruct (Py.falsy (dict_get d "court" _)) eqn:Hcourt; [done|].
  destruct (Py.falsy (dict_get d "case_type" _)) eqn:Htype; [done|].
  destruct (get_lower d "status" "active") as [status_|] eqn:Hstatus; [|done].
  case_bool_decide as Hvalid; [|done].
  destruct (get_or_create_court_returns _ st Hcourt) as (s1 & court & E1).
  destruct (get_or_create_judge_returns (dict_get d "judge" Py.None_) s1)
    as (s2 & judge & E2).
  destruct (get_or_create_case_type_returns _ s2 Htype) as (s3 & case_type & E3).
  destruct (upsert_case_returns cn court (dict_get d "title" (Py.Str "")) filed
              case_type judge (dict_get d "docket_text" (Py.Str "")) status_ s3)
    as (s4 & case & ins & E4).
  destruct (party_phase_returns case cn
              (parse_parties (dict_get d "parties" (Py.Str "")))
              (with_processed_cases (fun seen => {[ cn ]} ∪ seen) s4)) as (s5 & E5).
  exists filed, status_, s1, court, s2, judge, s3, case_type, s4, case, ins, s5.
  repeat (split; [done|]).
  unfold process_docket, mbind, M_bind, bind, lift, modify. rewrite Hcn. simpl.
  rewrite bool_decide_eq_false_2 by done.
  rewrite Hdate, E1, E2, E3, Hstatus. simpl.
  rewrite bool_decide_eq_true_2 by done. simpl.
  rewrite E4. unfold party_phase in E5.
  destruct (parse_parties _); simpl in *.
  - unfold modify in E5. injection E5 as <-. done.
  - by rewrite E5.
Qed.

(** The run of a rejected record: the exception is the one [rejection]
    names; a record rejected before any entity is resolved leaves the
    state as it was; one rejected later leaves the state the resolver
    calls made before the failing check produced. *)
Lemma process_docket_rejected d st s e :
  rejection d = Some (s, e) ->
  match s with
  | AtCaseNumber | AtFiledDate | AtCourt => process_docket d st = (st, Raise e)
  | AtCaseType =>
      exists s1 court s2 judge,
        get_or_create_court (dict_get d "court" (Py.Str "")) st = (s1, Ok court)
        /\ get_or_create_judge (dict_get d "judge" Py.None_) s1 = (s2, Ok judge)
        /\ process_docket d st = (s2, Raise e)
  | AtStatus =>
      exists s1 court s2 judge s3 case_type,
        get_or_create_court (dict_get d "court" (Py.Str "")) st = (s1, Ok court)
        /\ get_or_create_judge (dict_get d "judge" Py.None_) s1 = (s2, Ok judge)
        /\ get_or_create_case_type (dict_get d "case_type" (Py.Str "civil")) s2
           = (s3, Ok case_type)
        /\ process_docket d st = (s3, Raise e)
  end.
Proof.
  unfold rejection. intros Hrej.
  unfold process_docket, mbind, M_bind, bind, lift, raise.
  destruct (get_strip d "case_number" "") as [cn|] eqn:Hcn;
    [|by simplify_eq].
  case_bool_decide as Hne; [by simplify_eq|].
  destruct (parse_date _) as [filed|] eqn:Hdate; [|by simplify_eq].
  destruct (Py.falsy (dict_get d "court" _)) eqn:Hcourt.
  { simplify_eq. by rewrite get_or_create_court_falsy. }
  destruct (get_or_create_court_returns _ st Hcourt) as (s1 & court & E1).
  destruct (get_or_create_judge_returns (dict_get d "judge" Py.None_) s1)
    as (s2 & judge & E2).
  destruct (Py.falsy (dict_get d "case_type" _)) eqn:Htype.
  { simplify_eq. exists s1, court, s2, judge. rewrite E1, E2.
    by rewrite get_or_create_case_type_falsy. }
  destruct (get_or_create_case_type_returns _ s2 Htype) as (s3 & case_type & E3).
  destruct (get_lower d "status" "active") as [status_|] eqn:Hstatus.
  - case_bool_decide as Hvalid; [done|]. simplify_eq.
    exists s1, court, s2, judge, s3, case_type. rewrite E1, E2, E3. simpl.
    rewrite ?bool_decide_eq_false_2 by done. done.
  - simplify_eq. exists s1, court, s2, judge, s3, case_type. by rewrite E1, E2, E3.
Qed.

Lemma link_parties_keeps {X} (f : state -> X) case cn l :
  (forall v, respects (same f) (get_or_create_party v)) ->
  (forall c p r, respects (same f) (insert_case_party c p r)) ->
  (forall g st, f (with_warnings g st) = f st) ->
  respects (same f) (link_parties case cn l).
Proof.
  intros Hp Hi Hw. induction l as [|[name role] l IH].
  - apply respects_ret; apply _.
  - unfold link_parties; fold link_parties.
    frame; eauto. apply respects_modify; [apply _ ..|]. intros st. symmetry. apply Hw.
Qed.

Lemma link_parties_keeps_cases case cn l :
  respects (same (fun st => cases (db st))) (link_parties case cn l).
Proof. apply link_parties_keeps; intros; [keeps..|done]. Qed.

End RecordProcessor.

(** C1, counterexample. A record with a valid case number, date and court
    but a status outside the closed set is rejected, and the court row it
    caused to be written is in the store afterwards. *)
Lemma rejected_record_leaves_court_row :
  snd (process_docket bad_status_docket empty_store)
  = Raise (Py.ValueError (invalid_status_message "bogus"))
  /\ courts (db (fst (process_docket bad_status_docket empty_store)))
     <> courts (db empty_store).
Proof.
  split; [vm_compute; reflexivity|].
  intros H. apply (f_equal (fun m => m !! "SDNY")) in H.
  vm_compute in H. discriminate.
Qed.

(** C1, as the code has it. A record that fails one of the checks of
    [process_docket] (case number, filed date, court, case type, status)
    makes the call raise the exception of that check and causes no write to
    the cases, the case-party links, the parties and the party name
    variations. When the check is that of the case number, the date or the
    court, nothing at all is written; when it is that of the case type or
    the status, the state is the one the resolver calls made before the
    check produced, and the court name variation of the record is in it. *)
Theorem rejected_record_writes_no_case d st s e :
  rejection d = Some (s, e) ->
  let st' := fst (process_docket d st) in
  snd (process_docket d st) = Raise e
  /\ cases (db st') = cases (db st)
  /\ case_parties (db st') = case_parties (db st)
  /\ parties (db st') = parties (db st)
  /\ party_name_variations (db st') = party_name_variations (db st)
  /\ st' = resolved_before s d st
  /\ (before_resolution s = true -> st' = st)
  /\ (before_resolution s = false ->
      exists raw id,
        dict_get d "court" (Py.Str "") = Py.Str raw
        /\ is_Some (court_name_variations (db st') !! (id, raw))).
Proof.
  intros Hrej. simpl.
  pose proof (process_docket_rejected d st s e Hrej) as Hrun.
  assert (Hkeep : forall {X} (f : state -> X),
             (forall v, respects (same f) (get_or_create_court v)) ->
             (forall v, respects (same f) (get_or_create_judge v)) ->
             (forall v, respects (same f) (get_or_create_case_type v)) ->
             f (fst (process_docket d st)) = f st).
  { intros X f Hc Hj Ht. destruct s.
    - by rewrite Hrun.
    - by rewrite Hrun.
    - by rewrite Hrun.
    - destruct Hrun as (s1 & court & s2 & judge & E1 & E2 & ->). simpl.
      pose proof (respects_run _ _ _ _ _ (Hc _) E1) as R1.
      pose proof (respects_run _ _ _ _ _ (Hj _) E2) as R2.
      unfold same in *. congruence.
    - destruct Hrun as (s1 & court & s2 & judge & s3 & ct & E1 & E2 & E3 & ->). simpl.
      pose proof (respects_run _ _ _ _ _ (Hc _) E1) as R1.
      pose proof (respects_run _ _ _ _ _ (Hj _) E2) as R2.
      pose proof (respects_run _ _ _ _ _ (Ht _) E3) as R3.
      unfold same in *. congruence. }
  assert (Hcourt : forall s1 court,
             get_or_create_court (dict_get d "court" (Py.Str "")) st = (s1, Ok court) ->
             exists raw id,
               dict_get d "court" (Py.Str "") = Py.Str raw
               /\ is_Some (court_name_variations (db s1) !! (id, raw))).
  { intros s1 court E1.
    destruct (Py.falsy (dict_get d "court" (Py.Str ""))) eqn:Hf.
    { rewrite get_or_create_court_falsy in E1 by done. discriminate. }
    apply falsy_inv in Hf as (raw & Hraw & Hne). rewrite Hraw in E1.
    destruct (get_or_create_court_run raw st Hne) as (s1' & E1' & _ & Hv & _).
    rewrite E1 in E1'. injection E1' as <- _.
    eexists raw, _. split; [done|]. rewrite Hv. apply upsert_is_Some. }
  split.
  { destruct s; try (by rewrite Hrun).
    - destruct Hrun as (?&?&?&?&?&?&E). by rewrite E.
    - destruct Hrun as (?&?&?&?&?&?&?&?&?&E). by rewrite E. }
  split; [apply (Hkeep _ (fun st => cases (db st))); intros; keeps|].
  split; [apply (Hkeep _ (fun st => case_parties (db st))); intros; keeps|].
  split; [apply (Hkeep _ (fun st => parties (db st))); intros; keeps|].
  split; [apply (Hkeep _ (fun st => party_name_variations (db st))); intros; keeps|].
  split; [|split].
  - unfold resolved_before. destruct s; try (by rewrite Hrun).
    + destruct Hrun as (s1 & court & s2 & judge & E1 & E2 & ->).
      rewrite E1. cbn [fst]. by rewrite E2.
    + destruct Hrun as (s1 & court & s2 & judge & s3 & ct & E1 & E2 & E3 & ->).
      rewrite E1. cbn [fst]. rewrite E2. cbn [fst]. by rewrite E3.
  - intros Hs. destruct s; try discriminate; by rewrite Hrun.
  - intros Hs. destruct s; try discriminate.
    + destruct Hrun as (s1 & court & s2 & judge & E1 & E2 & ->). simpl.
      destruct (Hcourt s1 court E1) as (raw & id & Hraw & Hv).
      exists raw, id. split; [done|].
      assert (R2 : same (fun st => court_name_variations (db st)) s1 s2).
      { eapply respects_run; [|exact E2]. keeps. }
      unfold same in R2. by rewrite <- R2.
    + destruct Hrun as (s1 & court & s2 & judge & s3 & ct & E1 & E2 & E3 & ->). simpl.
      destruct (Hcourt s1 court E1) as (raw & id & Hraw & Hv).
      exists raw, id. split; [done|].
      assert (R2 : same (fun st => court_name_variations (db st)) s1 s2).
      { eapply respects_run; [|exact E2]. keeps. }
      assert (R3 : same (fun st => court_name_variations (db st)) s2 s3).
      { eapply respects_run; [|exact E3]. keeps. }
      unfold same in R2, R3. by rewrite <- R3, <- R2.
Qed.

(** C1, witness: the record with the bad status, on the empty store. *)
Lemma rejected_record_writes_no_case_witness :
  let st' := fst (process_docket bad_status_docket empty_store) in
  snd (process_docket bad_status_docket empty_store)
  = Raise (Py.ValueError (invalid_status_message "bogus"))
  /\ cases (db st') = cases (db empty_store)
  /\ case_parties (db st') = case_parties (db empty_store)
  /\ parties (db st') = parties (db empty_store)
  /\ party_name_variations (db st') = party_name_variations (db empty_store)
  /\ st' = resolved_before AtStatus bad_status_docket empty_store
  /\ (before_resolution AtStatus = true -> st' = empty_store)
  /\ (before_resolution AtStatus = false ->
      exists raw id,
        dict_get bad_status_docket "court" (Py.Str "") = Py.Str raw
        /\ is_Some (court_name_variations (db st') !! (id, raw))).
Proof.
  apply (rejected_record_writes_no_case bad_status_docket empty_store AtStatus).
  vm_compute. reflexivity.
Defined.

Section StatusDefault.

Lemma parse_date_error v e :
  parse_date v = Raise e -> exists m, e = Py.ValueError (String "f" m).
Proof.
  unfold parse_date. destruct v as [|raw]; [intros [= <-]; by eexists|].
  case_bool_decide; [intros [= <-]; by eexists|].
  destruct (Strptime.strptime _ _); [done|].
  destruct (Re.match_ mdy_numeric_re _) as [[[[mm dd] yyyy] rest]|].
  - destruct (date_new yyyy mm dd); [|done]. intros [= <-]. by eexists.
  - destruct (first_format _ _); [done|].
    destruct (first_format _ _); [done|]. intros [= <-]. by eexists.
Qed.

Lemma invalid_status_message_head s : exists m, invalid_status_message s = String "I" m.
Proof. by eexists. Qed.

Lemma upsert_case_run cn c t f ct j x s st st' id ins :
  upsert_case cn c t f ct j x s st = (st', Ok (id, ins)) ->
  cases (db st')
  = <[cn := CaseRow id c t f ct j x s (if ins then None else Some (now st))]> (cases (db st))
  /\ id = match cases (db st) !! cn with
          | Some old => case_id old
          | None => cases_id_seq (seqs st)
          end
  /\ ins = bool_decide (cases (db st) !! cn = None).
Proof.
  unfold upsert_case. destruct (cases (db st) !! cn) as [old|] eqn:Hold;
    intros [= <- <- <-]; simpl; done.
Qed.

Lemma party_phase_keeps_cases case cn l :
  respects (same (fun st => cases (db st))) (party_phase case cn l).
Proof.
  destruct l; [apply respects_modify; [apply _ ..|done]|].
  apply link_parties_keeps_cases.
Qed.

End StatusDefault.

(** C10. A record without a status field is never rejected for its status:
    when [process_docket] raises, the exception is not the invalid-status
    one, and when it returns, the case stored under the record's case
    number has status "active". *)
Theorem missing_status_defaults_to_active d st :
  d !! "status" = None ->
  match process_docket d st with
  | (st', Ok _) =>
      exists row, cases (db st') !! case_number_of d = Some row /\ status row = "active"
  | (_, Raise e) => forall s, e <> Py.ValueError (invalid_status_message s)
  end.
Proof.
  intros Hstatus.
  assert (Hlower : get_lower d "status" "active" = Ok "active").
  { unfold get_lower, dict_get. by rewrite Hstatus. }
  destruct (rejection d) as [[s e]|] eqn:Hrej.
  - assert (He : forall s', e <> Py.ValueError (invalid_status_message s')).
    { intros s'. destruct (invalid_status_message_head s') as [m ->].
      revert Hrej. unfold rejection. rewrite Hlower.
      destruct (get_strip d "case_number" "") as [cn|e0] eqn:Hcn.
      2:{ unfold get_strip in Hcn. destruct (dict_get _ _ _); [|done].
          injection Hcn as <-. by intros [= <- <-]. }
      case_bool_decide; [by intros [= <- <-]|].
      destruct (parse_date _) as [filed|e1] eqn:Hdate.
      2:{ apply parse_date_error in Hdate as [m' ->]. by intros [= <- <-]. }
      destruct (Py.falsy _); [by intros [= <- <-]|].
      destruct (Py.falsy _); [by intros [= <- <-]|].
      done. }
    pose proof (process_docket_rejected d st s e Hrej) as Hrun.
    destruct s; try (by rewrite Hrun).
    + destruct Hrun as (?&?&?&?&?&?&->). done.
    + destruct Hrun as (?&?&?&?&?&?&?&?&?&->). done.
  - destruct (process_docket_accepted d st Hrej)
      as (filed & status_ & s1 & court & s2 & judge & s3 & ct & s4 & case & ins & s5
          & Hcn & Hdate & Hst & Hvalid & E1 & E2 & E3 & E4 & E5 & ->).
    rewrite Hlower in Hst. injection Hst as <-.
    apply upsert_case_run in E4 as (Hcases & _ & _).
    pose proof (respects_run _ _ _ _ _ (party_phase_keeps_cases _ _ _) E5) as Hkeep.
    unfold same in Hkeep. simpl in Hkeep. rewrite <- Hkeep, Hcases.
    rewrite lookup_insert_eq. by eexists.
Qed.

(** C10, witness: the sample record, which has no status field, on the
    empty store. *)
Lemma missing_status_defaults_to_active_witness :
  exists row,
    cases (db (fst (process_docket sample_docket empty_store))) !! "1:24-cv-1" = Some row
    /\ status row = "active".
Proof.
  pose proof (missing_status_defaults_to_active sample_docket empty_store) as H.
  destruct (process_docket sample_docket empty_store) as [st' [r|e]] eqn:E.
  - apply H. reflexivity.
  - exfalso. apply (f_equal snd) in E. vm_compute in E. discriminate.
Defined.

(** ** Pipeline driver *)

Section PipelineDriver.

Variable json : docket -> string.
Variable sha : string -> string.

Local Arguments process_docket : simpl never.
Local Arguments quarantine_and_record : simpl never.
Local Arguments ingest_loop : simpl never.

(** One turn of the loop. *)
Lemma ingest_loop_cons run clock i d rest st :
  ingest_loop json sha run clock i (d :: rest) st
  = match process_docket d (entered clock i st) with
    | (s, Ok (success, action)) =>
        ingest_loop json sha run clock (S i) rest
          (fst (((if success : bool then
                    if bool_decide (action = "inserted")
                    then modify (with_counts incr_inserted)
                    else if bool_decide (action = "updated")
                    then modify (with_counts incr_updated)
                    else ret tt
                  else ret tt);;
                 if bool_decide (i mod 100 = 0) then commit else ret tt) s))
    | (s, Raise e) =>
        match quarantine_and_record json sha run d (error_code_of e d) e s with
        | (s', Ok _) => ingest_loop json sha run clock (S i) rest s'
        | (s', Raise e') => (s', Raise e')
        end
    end.
Proof.
  unfold ingest_loop at 1; fold (ingest_loop json sha).
  unfold mbind, M_bind, bind, try_except, set_clock, modify, entered, error_code_of.
  simpl.
  destruct (process_docket d _) as [s [[success action]|e]]; simpl.
  - destruct success; simpl.
    + case_bool_decide; simpl; [by case_bool_decide|].
      case_bool_decide; simpl; by case_bool_decide.
    + by case_bool_decide.
  - destruct (Py.is_ValueError e);
      by destruct (quarantine_and_record _ _ _ _ _ _ _) as [s' [[]|e']].
Qed.

Lemma ingest_loop_accepted run clock i d rest st :
  rejection d = None ->
  exists s ins,
    process_docket d (entered clock i st)
    = (s, Ok (true, if ins : bool then "inserted" else "updated"))
    /\ ingest_loop json sha run clock i (d :: rest) st
       = ingest_loop json sha run clock (S i) rest (counted i ins s).
Proof.
  intros Hrej.
  destruct (process_docket_accepted d (entered clock i st) Hrej)
    as (?&?&?&?&?&?&?&?&?&?& ins & s &?&?&?&?&?&?&?&?&?& E).
  exists s, ins. split; [done|].
  rewrite ingest_loop_cons, E. unfold counted.
  destruct ins; simpl; by case_bool_decide.
Qed.

Lemma rejection_raises d st s e :
  rejection d = Some (s, e) -> exists sx, process_docket d st = (sx, Raise e).
Proof.
  intros Hrej. pose proof (process_docket_rejected d st s e Hrej) as Hrun.
  destruct s; eauto.
  - destruct Hrun as (?&?&?&?&?&?&?). eauto.
  - destruct Hrun as (?&?&?&?&?&?&?&?&?&?). eauto.
Qed.

(** The handler on a record whose case number can be read again. *)
Lemma quarantine_and_record_run run d code e st :
  crashes d = false ->
  exists st',
    quarantine_and_record json sha run d code e st = (st', Ok tt)
    /\ counts st' = incr_failed (counts st)
    /\ quarantine_path st' = Some (default run (quarantine_path st))
    /\ files st'
       = <[default run (quarantine_path st) :=
             quarantine_file st (default run (quarantine_path st))
             ++ [QuarantineLine run code (Py.str_of_exn e) d (utcnow st)
                   (sha256_hex sha (canonical_json json d))]]> (files st)
    /\ ingest_errors (db st')
       = file_error (now st) run (sha256_hex sha (canonical_json json d))
           (or_None (case_number_of d)) code (Py.str_of_exn e) d (ingest_errors (db st))
    /\ committed st' = db st'
    /\ same (fun st => (courts (db st), court_name_variations (db st), judges (db st),
                        judge_name_variations (db st), case_types (db st),
                        parties (db st), party_name_variations (db st),
                        cases (db st), case_parties (db st), ingest_runs (db st),
                        seqs st, now st, utcnow st,
                        courts_cache st, judges_cache st, case_types_cache st,
                        parties_cache st, processed_cases st, run_id st, warnings st))
         st st'.
Proof.
  unfold crashes, case_number_of. intros Hc.
  destruct (get_strip d "case_number" "") as [cn|] eqn:Hcn; [|done].
  unfold quarantine_and_record, mbind, M_bind, bind, lift. rewrite Hcn.
  unfold write_quarantine_jsonl, record_error, commit, modify, gets, mbind, M_bind, bind.
  simpl. eexists. split; [reflexivity|]. simpl.
  unfold quarantine_file.
  destruct (quarantine_path st); simpl; repeat split; done.
Qed.

Lemma ingest_loop_rejected run clock i d rest st s e :
  rejection d = Some (s, e) -> crashes d = false ->
  exists sx sy,
    process_docket d (entered clock i st) = (sx, Raise e)
    /\ quarantine_and_record json sha run d (error_code_of e d) e sx = (sy, Ok tt)
    /\ ingest_loop json sha run clock i (d :: rest) st
       = ingest_loop json sha run clock (S i) rest sy.
Proof.
  intros Hrej Hc.
  destruct (rejection_raises d (entered clock i st) s e Hrej) as [sx E].
  destruct (quarantine_and_record_run run d (error_code_of e d) e sx Hc) as (sy & E' & _).
  exists sx, sy. split; [done|]. split; [done|].
  by rewrite ingest_loop_cons, E, E'.
Qed.

(** A record whose case number is [null] ends the loop with the exception
    of the handler, counted as read and as nothing else. *)
Lemma ingest_loop_crash run clock i d rest st :
  crashes d = true ->
  exists sx,
    ingest_loop json sha run clock i (d :: rest) st
    = (sx, Raise (Py.none_has_no "strip"))
    /\ counts sx = incr_read (counts st).
Proof.
  unfold crashes. intros Hc.
  destruct (get_strip d "case_number" "") as [|e] eqn:Hcn; [done|].
  assert (e = Py.none_has_no "strip") as ->.
  { unfold get_strip in Hcn. destruct (dict_get _ _ _); by simplify_eq. }
  assert (Hrej : rejection d = Some (AtCaseNumber, Py.none_has_no "strip")).
  { unfold rejection. by rewrite Hcn. }
  pose proof (process_docket_rejected d (entered clock i st) _ _ Hrej) as E.
  simpl in E. rewrite ingest_loop_cons, E.
  unfold quarantine_and_record, mbind, M_bind, bind, lift. rewrite Hcn.
  by eexists.
Qed.

End PipelineDriver.

(** C9, at the failing input. In a batch of a valid record followed by one
    whose case number is [null], the second record makes [process_docket]
    raise an [AttributeError]; the handler of the driver raises it again,
    the run ends with that exception, and the record has been counted as
    read but neither as inserted, updated nor failed. *)
Theorem null_case_number_is_read_but_not_counted json sha clock :
  let r := ingest_file json sha "raw_dockets.json" ""
             [sample_docket; null_case_number_docket] clock empty_store in
  snd r = Raise (Py.none_has_no "strip")
  /\ counts (fst r) = Counters 2 1 0 0
  /\ ~ balanced (counts (fst r)).
Proof.
  assert (E : let r := ingest_file json sha "raw_dockets.json" ""
                [sample_docket; null_case_number_docket] clock empty_store in
              snd r = Raise (Py.none_has_no "strip")
              /\ counts (fst r) = Counters 2 1 0 0).
  { vm_compute. done. }
  destruct E as [E1 E2]. repeat split; [done..|].
  rewrite E2. unfold balanced. simpl. lia.
Qed.

Section DriverState.

Lemma process_docket_keeps {X} (f : state -> X) d :
  (forall v, respects (same f) (get_or_create_court v)) ->
  (forall v, respects (same f) (get_or_create_judge v)) ->
  (forall v, respects (same f) (get_or_create_case_type v)) ->
  (forall v, respects (same f) (get_or_create_party v)) ->
  (forall cn c t fd ct j x s, respects (same f) (upsert_case cn c t fd ct j x s)) ->
  (forall c p r, respects (same f) (insert_case_party c p r)) ->
  (forall g st, f (with_warnings g st) = f st) ->
  (forall g st, f (with_processed_cases g st) = f st) ->
  respects (same f) (process_docket d).
Proof.
  intros Hc Hj Ht Hp Hu Hi Hw Hs. unfold process_docket.
  frame; eauto;
    match goal with
    | |- respects _ (link_parties _ _ _) => apply link_parties_keeps; eauto
    | |- respects _ (modify _) =>
        apply respects_modify; [apply _ ..|]; intros st; symmetry; eauto
    end.
Qed.

Lemma process_docket_keeps_driver_state d :
  respects (same driver_state) (process_docket d).
Proof. apply process_docket_keeps; intros; try done; keeps. Qed.

End DriverState.

Section RunTracker.

Variable json : docket -> string.
Variable sha : string -> string.

Local Arguments process_docket : simpl never.
Local Arguments quarantine_and_record : simpl never.
Local Arguments ingest_loop : simpl never.

(** One turn of the loop on a record the handler can deal with, as the run
    tracker sees it. *)
Lemma ingest_loop_step run clock i d rest st :
  crashes d = false ->
  exists s,
    ingest_loop json sha run clock i (d :: rest) st
    = ingest_loop json sha run clock (S i) rest s
    /\ if rejected d then
         exists code msg,
           counts s = incr_failed (incr_read (counts st))
           /\ quarantine_path s = Some (default run (quarantine_path st))
           /\ files s
              = <[default run (quarantine_path st) :=
                    quarantine_file st (default run (quarantine_path st))
                    ++ [QuarantineLine run code msg d (snd (clock i))
                          (sha256_hex sha (canonical_json json d))]]> (files st)
           /\ ingest_errors (db s)
              = file_error (fst (clock i)) run (sha256_hex sha (canonical_json json d))
                  (or_None (case_number_of d)) code msg d (ingest_errors (db st))
       else
         exists ins : bool,
           counts s = (if ins then incr_inserted else incr_updated) (incr_read (counts st))
           /\ quarantine_path s = quarantine_path st
           /\ files s = files st
           /\ ingest_errors (db s) = ingest_errors (db st).
Proof.
  intros Hc. unfold rejected.
  destruct (rejection d) as [[s e]|] eqn:Hrej.
  - destruct (ingest_loop_rejected json sha run clock i d rest st s e Hrej Hc)
      as (sx & sy & E & E' & ->).
    exists sy. split; [done|].
    destruct (quarantine_and_record_run json sha run d (error_code_of e d) e sx Hc)
      as (sy' & E'' & Hcounts & Hpath & Hfiles & Herr & _).
    rewrite E' in E''. injection E'' as <-.
    pose proof (respects_run _ _ _ _ _ (process_docket_keeps_driver_state d) E) as Hk.
    unfold same, driver_state in Hk. simpl in Hk.
    injection Hk as He Hr Hf Hq Hn Hco Hno Hu Hrun.
    exists (error_code_of e d), (Py.str_of_exn e).
    rewrite Hcounts, Hpath, Hfiles, Herr. unfold quarantine_file.
    rewrite <- Hn, <- Hq, <- Hf, <- He, <- Hno, <- Hu. done.
  - destruct (ingest_loop_accepted json sha run clock i d rest st Hrej)
      as (s & ins & E & ->).
    exists (counted i ins s). split; [done|]. exists ins.
    pose proof (respects_run _ _ _ _ _ (process_docket_keeps_driver_state d) E) as Hk.
    unfold same, driver_state in Hk. simpl in Hk.
    injection Hk as He Hr Hf Hq Hn Hco Hno Hu Hrun.
    unfold counted. rewrite Hn, Hq, Hf, He.
    case_bool_decide; destruct ins; done.
Qed.

Lemma occurrences_cons h d rest :
  occurrences (fun d => sha256_hex sha (canonical_json json d)) h (d :: rest)
  = (if rejected d && bool_decide (sha256_hex sha (canonical_json json d) = h)
     then [d] else [])
    ++ occurrences (fun d => sha256_hex sha (canonical_json json d)) h rest.
Proof.
  unfold occurrences. rewrite filter_cons.
  destruct (rejected d); simpl; repeat case_decide; repeat case_bool_decide;
    simpl; try done; naive_solver.
Qed.

Lemma matches_bump t run h row :
  matches_error run h (bump_error t row) <-> matches_error run h row.
Proof. done. Qed.

Lemma error_rows_update t run h (errors : list error_row) :
  filter (matches_error run h)
    ((fun row => if decide (matches_error run h row) then bump_error t row else row)
       <$> errors)
  = bump_error t <$> filter (matches_error run h) errors.
Proof.
  induction errors as [|row errors IH]; [done|].
  rewrite fmap_cons, !filter_cons.
  destruct (decide (matches_error run h row)) as [Hm|Hm].
  - rewrite decide_True by done. rewrite fmap_cons. by f_equal.
  - by rewrite decide_False by done.
Qed.

Lemma error_rows_update_ne t run h run' h' (errors : list error_row) :
  (run', h') <> (run, h) ->
  filter (matches_error run' h')
    ((fun row => if decide (matches_error run h row) then bump_error t row else row)
       <$> errors)
  = filter (matches_error run' h') errors.
Proof.
  intros Hne. induction errors as [|row errors IH]; [done|].
  rewrite fmap_cons, !filter_cons.
  destruct (decide (matches_error run h row)) as [Hm|Hm].
  - assert (~ matches_error run' h' row) as Hm'.
    { intros [<- <-]. destruct Hm as [<- <-]. done. }
    rewrite !decide_False; [done|done|]. by rewrite matches_bump.
  - by rewrite IH.
Qed.

Lemma retries_file_error t run h cn code msg raw errors :
  retry_count <$> filter (matches_error run h) (file_error t run h cn code msg raw errors)
  = retry_after (retry_count <$> filter (matches_error run h) errors).
Proof.
  unfold file_error. case_bool_decide as Hcount.
  - apply length_zero_iff_nil in Hcount.
    rewrite filter_app, error_rows_update, Hcount, filter_cons, filter_nil.
    rewrite decide_True by done. reflexivity.
  - rewrite error_rows_update.
    destruct (filter (matches_error run h) errors) as [|row rows]; [done|].
    unfold retry_after. rewrite !fmap_cons, <- !list_fmap_compose. done.
Qed.

Lemma error_rows_file_error_ne t run h run' h' cn code msg raw errors :
  (run', h') <> (run, h) ->
  filter (matches_error run' h') (file_error t run h cn code msg raw errors)
  = filter (matches_error run' h') errors.
Proof.
  intros Hne. unfold file_error. case_bool_decide.
  - rewrite filter_app, error_rows_update_ne, filter_cons, filter_nil by done.
    rewrite decide_False; [apply app_nil_r|]. intros [<- <-]. done.
  - by apply error_rows_update_ne.
Qed.

Lemma lines_with_snoc h lines l :
  lines_with h (lines ++ [l])
  = lines_with h lines ++ (if bool_decide (q_record_hash l = h) then [l] else []).
Proof.
  unfold lines_with. rewrite filter_app. f_equal.
  rewrite filter_cons, filter_nil.
  repeat case_decide; repeat case_bool_decide; simpl; try done; naive_solver.
Qed.

(** The loop on a batch free of [null] case numbers returns, and the run
    tracker has then counted every record once, appended one quarantine
    line per rejected record and raised the retry count of its hash once
    per occurrence after the first. *)
Lemma ingest_loop_tracks run clock dockets : forall i st,
  Forall (fun d => crashes d = false) dockets ->
  default run (quarantine_path st) = run ->
  exists st',
    ingest_loop json sha run clock i dockets st = (st', Ok tt)
    /\ read (counts st') = read (counts st) + length dockets
    /\ failed (counts st') = failed (counts st) + length (filter (fun d => rejected d = true) dockets)
    /\ inserted (counts st') + updated (counts st')
       = inserted (counts st) + updated (counts st)
         + length (filter (fun d => accepted d = true) dockets)
    /\ default run (quarantine_path st') = run
    /\ (forall h,
          length (lines_with h (quarantine_file st' run))
          = length (lines_with h (quarantine_file st run))
            + length (occurrences (fun d => sha256_hex sha (canonical_json json d)) h dockets))
    /\ (forall h,
          retries st' run h
          = Nat.iter
              (length (occurrences (fun d => sha256_hex sha (canonical_json json d)) h dockets))
              retry_after (retries st run h)).
Proof.
  induction dockets as [|d rest IH]; intros i st Hsafe Hpath.
  { exists st. repeat split; simpl; try done; intros; lia. }
  apply Forall_cons in Hsafe as [Hd Hrest].
  destruct (ingest_loop_step run clock i d rest st Hd) as (s & -> & Hs).
  assert (Hpath' : default run (quarantine_path s) = run).
  { destruct (rejected d).
    - destruct Hs as (code & msg & _ & -> & _). done.
    - destruct Hs as (ins & _ & -> & _). done. }
  destruct (IH (S i) s Hrest Hpath')
    as (st' & E & Hread & Hfailed & Hacc & Hq & Hlines & Hretries).
  exists st'. split; [done|].
  rewrite Hread, Hfailed, Hacc. rewrite !filter_cons. unfold accepted.
  split; [|split; [|split; [|split; [done|split]]]].
  - destruct (rejected d).
    + destruct Hs as (code & msg & -> & _). simpl. lia.
    + destruct Hs as (ins & -> & _). destruct ins; simpl; lia.
  - destruct (rejected d); simpl.
    + destruct Hs as (code & msg & -> & _). simpl. lia.
    + destruct Hs as (ins & -> & _). destruct ins; simpl; lia.
  - destruct (rejected d); simpl.
    + destruct Hs as (code & msg & -> & _). simpl. lia.
    + destruct Hs as (ins & -> & _). destruct ins; simpl; lia.
  - intros h. rewrite Hlines, occurrences_cons, length_app.
    destruct (rejected d); simpl.
    + destruct Hs as (code & msg & _ & _ & Hfiles & _).
      rewrite Hpath in Hfiles.
      assert (Hqf : quarantine_file s run
                    = quarantine_file st run
                      ++ [QuarantineLine run code msg d (snd (clock i))
                            (sha256_hex sha (canonical_json json d))]).
      { unfold quarantine_file at 1. by rewrite Hfiles, lookup_insert_eq. }
      rewrite Hqf, lines_with_snoc, length_app. simpl.
      case_bool_decide; simpl; lia.
    + destruct Hs as (ins & _ & _ & Hfiles & _).
      assert (Hqf : quarantine_file s run = quarantine_file st run).
      { unfold quarantine_file. by rewrite Hfiles. }
      rewrite Hqf. lia.
  - intros h. rewrite Hretries, occurrences_cons, length_app.
    rewrite Nat.add_comm, Nat.iter_add. f_equal.
    destruct (rejected d); simpl.
    + destruct Hs as (code & msg & _ & _ & _ & Herr).
      unfold retries, error_rows. rewrite Herr. case_bool_decide as Hh; simpl.
      * subst h. apply retries_file_error.
      * by rewrite error_rows_file_error_ne by congruence.
    + destruct Hs as (ins & _ & _ & _ & Herr). unfold retries, error_rows. by rewrite Herr.
Qed.

(** The loop returns only on a batch free of [null] case numbers. *)
Lemma ingest_loop_returns_safe run clock dockets : forall i st st',
  ingest_loop json sha run clock i dockets st = (st', Ok tt) ->
  Forall (fun d => crashes d = false) dockets.
Proof.
  induction dockets as [|d rest IH]; intros i st st' E; [done|].
  destruct (crashes d) eqn:Hd.
  - destruct (ingest_loop_crash json sha run clock i d rest st Hd) as (sx & E' & _).
    rewrite E' in E. discriminate.
  - apply Forall_cons. split; [done|].
    destruct (ingest_loop_step run clock i d rest st Hd) as (s & E' & _).
    rewrite E' in E. eauto.
Qed.

End RunTracker.

Section Runs.

Variable json : docket -> string.
Variable sha : string -> string.

Local Arguments ingest_loop : simpl never.

Lemma ingest_file_unfold path name dockets clock st :
  ingest_file json sha path name dockets clock st
  = match ingest_loop json sha (ingest_runs_run_id_seq (seqs st)) clock 1 dockets
            (run_started path name st) with
    | (s, Ok _) =>
        (run_finished (ingest_runs_run_id_seq (seqs st)) (clock (S (length dockets))) s,
         Ok tt)
    | (s, Raise e) => (with_db (fun _ => committed s) s, Raise e)
    end.
Proof.
  unfold ingest_file, run_started, run_finished, start_run, finish_run, rollback,
    commit, set_clock, try_except, mbind, M_bind, bind, modify, gets, raise.
  simpl.
  by destruct (ingest_loop _ _ _ _ _ _ _) as [s [[]|e]].
Qed.

Lemma run_started_view path name st :
  counts (run_started path name st) = Counters 0 0 0 0
  /\ quarantine_path (run_started path name st) = None
  /\ files (run_started path name st) = files st
  /\ ingest_errors (db (run_started path name st)) = ingest_errors (db st).
Proof. done. Qed.

Lemma run_finished_view run c s :
  counts (run_finished run c s) = counts s
  /\ files (run_finished run c s) = files s
  /\ ingest_errors (db (run_finished run c s)) = ingest_errors (db s).
Proof. done. Qed.

Lemma rejected_or_accepted (dockets : list docket) :
  length (filter (fun d => rejected d = true) dockets)
  + length (filter (fun d => accepted d = true) dockets)
  = length dockets.
Proof.
  induction dockets as [|d rest IH]; [done|].
  rewrite !filter_cons.
  repeat case_decide; unfold accepted in *; destruct (rejected d);
    simpl in *; try done; lia.
Qed.

(** A run that ends normally has counted every record it read as inserted,
    updated or failed. *)
Lemma ingest_file_balanced path name dockets clock st :
  snd (ingest_file json sha path name dockets clock st) = Ok tt ->
  balanced (counts (fst (ingest_file json sha path name dockets clock st))).
Proof.
  rewrite ingest_file_unfold.
  destruct (ingest_loop _ _ _ _ _ _ _) as [s [[]|e]] eqn:E; [|done].
  intros _. simpl.
  pose proof (ingest_loop_returns_safe _ _ _ _ _ _ _ _ E) as Hsafe.
  destruct (ingest_loop_tracks json sha (ingest_runs_run_id_seq (seqs st)) clock
              dockets 1 (run_started path name st) Hsafe eq_refl)
    as (s' & E' & Hread & Hfailed & Hacc & _).
  rewrite E in E'. injection E' as <-.
  unfold balanced. simpl in *.
  pose proof (rejected_or_accepted dockets). lia.
Qed.

End Runs.

(** The deduplication of errors where the handler can process the batch.
    In a run on a batch free of [null] case numbers, started on a store
    with no error row and no quarantine file for the new run id, if the
    rejected records with the hash of [d] are [d] itself, twice, then the
    run ends normally, the error table holds exactly one row of the run for
    that hash, with [retry_count] 1, and the quarantine file of the run
    holds two lines with that hash. *)
Lemma identical_rejected_record_twice json sha path name dockets clock st d :
  let run := ingest_runs_run_id_seq (seqs st) in
  (forall h, error_rows st run h = []) ->
  files st !! run = None ->
  Forall (fun d' => crashes d' = false) dockets ->
  occurrences (record_hash json sha) (record_hash json sha d) dockets = [d; d] ->
  let r := ingest_file json sha path name dockets clock st in
  snd r = Ok tt
  /\ (exists row,
        error_rows (fst r) run (record_hash json sha d) = [row]
        /\ retry_count row = 1)
  /\ length (lines_with (record_hash json sha d) (quarantine_file (fst r) run)) = 2.
Proof.
  intros run Herrors Hfile Hsafe Hocc. simpl.
  rewrite ingest_file_unfold. fold run.
  destruct (ingest_loop_tracks json sha run clock dockets 1 (run_started path name st)
              Hsafe eq_refl)
    as (s & E & _ & _ & _ & _ & Hlines & Hretries).
  rewrite E. simpl. split; [done|].
  specialize (Hlines (record_hash json sha d)).
  specialize (Hretries (record_hash json sha d)).
  unfold record_hash in *. rewrite Hocc in Hlines, Hretries. simpl in *. split.
  - unfold retries in Hretries.
    change (error_rows (run_started path name st) run
              (sha256_hex sha (canonical_json json d)))
      with (error_rows st run (sha256_hex sha (canonical_json json d))) in Hretries.
    rewrite Herrors in Hretries. simpl in Hretries.
    change (error_rows (run_finished run (clock (S (length dockets))) s) run
              (sha256_hex sha (canonical_json json d)))
      with (error_rows s run (sha256_hex sha (canonical_json json d))).
    destruct (error_rows s run _) as [|row [|row' rows]]; try done.
    exists row. split; [done|]. by injection Hretries.
  - unfold quarantine_file in *. simpl in *. rewrite Hfile in Hlines.
    simpl in Hlines. done.
Qed.

(** The record with the bad status, the valid record and the record with
    the bad status again, on the empty store, with a constant standing for
    the serialization and the identity for the digest. *)
Lemma identical_rejected_record_twice_witness :
  let json := fun _ : docket => "{}" in
  let sha := fun s : string => s in
  let dockets := [bad_status_docket; sample_docket; bad_status_docket] in
  let run := ingest_runs_run_id_seq (seqs empty_store) in
  let r := ingest_file json sha "raw_dockets.json" "" dockets (fun i => (i, i))
             empty_store in
  snd r = Ok tt
  /\ (exists row,
        error_rows (fst r) run (record_hash json sha bad_status_docket) = [row]
        /\ retry_count row = 1)
  /\ length (lines_with (record_hash json sha bad_status_docket)
               (quarantine_file (fst r) run)) = 2.
Proof.
  intros json sha dockets run.
  apply (identical_rejected_record_twice json sha "raw_dockets.json" "" dockets
           (fun i => (i, i)) empty_store bad_status_docket).
  - intros h. reflexivity.
  - reflexivity.
  - repeat constructor.
  - vm_compute. reflexivity.
Defined.

(** C6, at the failing input. The record whose case number is [null] is
    malformed, and submitted twice in one run it is filed nowhere: the
    handler raises on its first occurrence, the run is aborted, and the
    store holds no error row and the quarantine file no line for its hash.
    A rejected record whose case number is a string or absent is filed as
    the claim says: one error row with [retry_count] 1 and two quarantine
    lines. *)
Theorem null_case_number_record_twice_is_not_filed json sha clock :
  (let d := null_case_number_docket in
   let h := record_hash json sha d in
   let r := ingest_file json sha "raw_dockets.json" "" [d; d] clock empty_store in
   rejected d = true
   /\ snd r = Raise (Py.none_has_no "strip")
   /\ error_rows (fst r) 1 h = []
   /\ lines_with h (quarantine_file (fst r) 1) = [])
  /\ (forall path name st d,
        let run := ingest_runs_run_id_seq (seqs st) in
        let h := record_hash json sha d in
        (forall h', error_rows st run h' = []) ->
        files st !! run = None ->
        rejected d = true -> text_case_number d ->
        let r := ingest_file json sha path name [d; d] clock st in
        snd r = Ok tt
        /\ (exists row, error_rows (fst r) run h = [row] /\ retry_count row = 1)
        /\ length (lines_with h (quarantine_file (fst r) run)) = 2).
Proof.
  split; [vm_compute; done|].
  intros path name st d run h Herrors Hfile Hrej [s Hs].
  assert (Hsafe : crashes d = false) by (unfold crashes, get_strip; by rewrite Hs).
  apply (identical_rejected_record_twice json sha path name [d; d] clock st d);
    [exact Herrors|exact Hfile|by repeat constructor|].
  unfold occurrences. rewrite !filter_cons, filter_nil.
  by rewrite !decide_True.
Qed.

(** ** Idempotence of a run *)

Section Kinds.

Context {Row : Type} (id_of : Row -> nat).

Lemma got_backed k cache rows cache' rows' id :
  got id_of k cache rows cache' rows' id ->
  backed id_of cache rows ->
  backed id_of cache' rows' /\ id_of <$> rows' !! k = Some id.
Proof.
  intros [-> Hgot] Hb.
  assert (Hk : id_of <$> rows' !! k = Some id /\ rows ⊆ rows').
  { destruct (cache !! k) as [c|] eqn:Hc.
    - destruct Hgot as [-> ->]. split; [by apply Hb|done].
    - destruct (rows !! k) as [row|] eqn:Hr.
      + destruct Hgot as [-> ->]. by rewrite Hr.
      + destruct Hgot as (row & <- & ->). rewrite lookup_insert_eq. split; [done|].
        by apply insert_subseteq. }
  destruct Hk as [Hk Hsub]. split; [|done].
  intros k' id'. rewrite lookup_insert. case_decide as Hkk.
  - subst k'. by intros [= <-].
  - intros Hc'. apply Hb in Hc'.
    destruct (rows !! k') as [row|] eqn:Hr; [|done].
    by rewrite (lookup_weaken _ _ _ _ Hr Hsub).
Qed.

Lemma got_subseteq k cache rows cache' rows' id :
  got id_of k cache rows cache' rows' id -> rows ⊆ rows'.
Proof.
  intros [_ Hgot]. destruct (cache !! k); [by destruct Hgot as [_ ->]|].
  destruct (rows !! k) eqn:Hr; [by destruct Hgot as [_ ->]|].
  destruct Hgot as (row & _ & ->). by apply insert_subseteq.
Qed.

(** The same call in a second run whose table already holds all the first
    run ends with: the same id, and the table is left alone. *)
Lemma got_in_step k cacheA rowsA cacheA' rowsA' idA cacheB cacheB' rowsB' idB t :
  got id_of k cacheA rowsA cacheA' rowsA' idA ->
  backed id_of cacheA rowsA ->
  rowsA' ⊆ t ->
  backed id_of cacheB t ->
  got id_of k cacheB t cacheB' rowsB' idB ->
  idB = idA /\ rowsB' = t /\ backed id_of cacheB' t.
Proof.
  intros HA HbA Hsub HbB HB.
  destruct (got_backed _ _ _ _ _ _ HA HbA) as [_ HidA].
  destruct (rowsA' !! k) as [rowA|] eqn:HrA; [|done].
  pose proof (lookup_weaken _ _ _ _ HrA Hsub) as Ht.
  simpl in HidA. injection HidA as HidA.
  destruct (got_backed _ _ _ _ _ _ HB HbB) as [HbB' HidB].
  destruct HB as [-> HB].
  assert (rowsB' = t) as ->.
  { destruct (cacheB !! k); [by destruct HB as [_ ->]|].
    rewrite Ht in HB. by destruct HB as [_ ->]. }
  rewrite Ht in HidB. simpl in HidB. injection HidB as HidB.
  split; [congruence|]. split; [done|]. done.
Qed.

End Kinds.

Section Resolvers.

Lemma get_or_create_court_got v st st' r :
  get_or_create_court v st = (st', r) ->
  match r with
  | Ok id =>
      Py.falsy v = false
      /\ got entity_id (normalize_court_name (str_of v))
           (courts_cache st) (courts (db st)) (courts_cache st') (courts (db st')) id
  | Raise _ => Py.falsy v = true /\ st' = st
  end.
Proof.
  unfold get_or_create_court. destruct (Py.falsy v); [by intros [= <- <-]|].
  unfold mbind, M_bind, bind, gets, select_id, got. simpl.
  destruct (courts_cache st !! _) as [c|] eqn:Hc; simpl.
  - intros [= <- <-]. simpl. by rewrite insert_id.
  - destruct (courts (db st) !! _) as [row|] eqn:Hr; simpl;
      intros [= <- <-]; simpl;
      repeat match goal with
             | |- _ /\ _ => split
             | |- exists _, _ => eexists
             end; try reflexivity; reflexivity.
Qed.

Lemma get_or_create_judge_got v st st' r :
  get_or_create_judge v st = (st', r) ->
  match r with
  | Ok (Some id) =>
      got entity_id (normalize_judge_name (str_of v))
        (judges_cache st) (judges (db st)) (judges_cache st') (judges (db st')) id
  | Ok None => st' = st
  | Raise _ => False
  end.
Proof.
  unfold get_or_create_judge. destruct (Py.falsy v); [by intros [= <- <-]|].
  case_bool_decide; [by intros [= <- <-]|].
  unfold mbind, M_bind, bind, gets, select_id, got. simpl.
  destruct (judges_cache st !! _) as [c|] eqn:Hc; simpl.
  - intros [= <- <-]. simpl. by rewrite insert_id.
  - destruct (judges (db st) !! _) as [row|] eqn:Hr; simpl;
      intros [= <- <-]; simpl;
      repeat match goal with
             | |- _ /\ _ => split
             | |- exists _, _ => eexists
             end; try reflexivity; reflexivity.
Qed.

Lemma get_or_create_case_type_got v st st' r :
  get_or_create_case_type v st = (st', r) ->
  match r with
  | Ok id =>
      Py.falsy v = false
      /\ got (fun id : nat => id) (Py.strip (Py.lower (str_of v)))
           (case_types_cache st) (case_types (db st))
           (case_types_cache st') (case_types (db st')) id
  | Raise _ => Py.falsy v = true /\ st' = st
  end.
Proof.
  unfold get_or_create_case_type. destruct (Py.falsy v); [by intros [= <- <-]|].
  unfold mbind, M_bind, bind, gets, got. simpl.
  destruct (case_types_cache st !! _) as [c|] eqn:Hc; simpl.
  - intros [= <- <-]. simpl. by rewrite insert_id.
  - destruct (case_types (db st) !! _) as [row|] eqn:Hr; simpl;
      intros [= <- <-]; simpl;
      repeat match goal with
             | |- _ /\ _ => split
             | |- exists _, _ => eexists
             end; try reflexivity; reflexivity.
Qed.

Lemma get_or_create_party_got v st st' r :
  get_or_create_party v st = (st', r) ->
  match r with
  | Ok id =>
      Py.falsy v = false
      /\ got entity_id (normalize_party_name (str_of v))
           (parties_cache st) (parties (db st)) (parties_cache st') (parties (db st')) id
  | Raise _ => Py.falsy v = true /\ st' = st
  end.
Proof.
  unfold get_or_create_party. destruct (Py.falsy v); [by intros [= <- <-]|].
  unfold mbind, M_bind, bind, gets, select_id, got. simpl.
  destruct (parties_cache st !! _) as [c|] eqn:Hc; simpl.
  - intros [= <- <-]. simpl. by rewrite insert_id.
  - destruct (parties (db st) !! _) as [row|] eqn:Hr; simpl;
      intros [= <- <-]; simpl;
      repeat match goal with
             | |- _ /\ _ => split
             | |- exists _, _ => eexists
             end; try reflexivity; reflexivity.
Qed.

Lemma get_or_create_court_beside v :
  respects (same beside_courts) (get_or_create_court v).
Proof. keeps. Qed.

Lemma get_or_create_judge_beside v :
  respects (same beside_judges) (get_or_create_judge v).
Proof. keeps. Qed.

Lemma get_or_create_case_type_beside v :
  respects (same beside_case_types) (get_or_create_case_type v).
Proof. keeps. Qed.

Lemma get_or_create_party_beside v :
  respects (same beside_parties) (get_or_create_party v).
Proof. keeps. Qed.

Lemma upsert_case_beside cn c t f ct j x s :
  respects (same (fun st => (entities st, case_parties (db st))))
    (upsert_case cn c t f ct j x s).
Proof. keeps. Qed.

Lemma insert_case_party_beside c p r :
  respects (same (fun st => (entities st, cases (db st)))) (insert_case_party c p r).
Proof. keeps. Qed.

End Resolvers.


Section Spellings.

Local Arguments get_or_create_court : simpl never.
Local Arguments get_or_create_judge : simpl never.
Local Arguments get_or_create_case_type : simpl never.
Local Arguments get_or_create_party : simpl never.






End Spellings.



Section Growth.

Global Instance extends_preorder : PreOrder extends.
Proof.
  split.
  - intros t. unfold extends. repeat split; try done.
    intros cn row H. by rewrite H.
  - intros t1 t2 t3 (Hc1 & Hj1 & Ht1 & Hp1 & Hl1 & Hi1) (Hc2 & Hj2 & Ht2 & Hp2 & Hl2 & Hi2).
    unfold extends. repeat split; try (etrans; done).
    intros cn row H. apply Hi1 in H.
    destruct (cases t2 !! cn) as [row2|] eqn:H2; [|done].
    apply Hi2 in H2. simpl in H. congruence.
Qed.

Global Instance grows_preorder : PreOrder grows.
Proof.
  split; [intros st; unfold grows; reflexivity|].
  intros s1 s2 s3 H1 H2. unfold grows in *. by etrans.
Qed.

(** Splits an agreement of two states on a tuple of parts into its
    components. *)
Ltac parts H :=
  unfold same, beside_courts, beside_judges, beside_case_types, beside_parties,
    entities, case_side in H;
  simpl in H; injection H; clear H; intros.

Ltac unchanged :=
  match goal with
  | H : ?a = ?b |- ?a ⊆ ?b => by rewrite H
  | H : cases ?t = cases ?t' |- forall cn row, cases ?t !! cn = Some row -> _ =>
      let Hrow := fresh in intros ? ? Hrow; rewrite <- H, Hrow; done
  end.

Lemma get_or_create_court_grows v : respects grows (get_or_create_court v).
Proof.
  intros st. destruct (get_or_create_court v st) as [st' r] eqn:E. simpl.
  pose proof (respects_run _ _ _ _ _ (get_or_create_court_beside v) E) as Hs.
  apply get_or_create_court_got in E. parts Hs.
  destruct r as [id|e]; [|destruct E as [_ ->]; reflexivity].
  destruct E as [_ Hgot]. apply got_subseteq in Hgot.
  unfold grows, extends. repeat split; try done; unchanged.
Qed.

Lemma get_or_create_judge_grows v : respects grows (get_or_create_judge v).
Proof.
  intros st. destruct (get_or_create_judge v st) as [st' r] eqn:E. simpl.
  pose proof (respects_run _ _ _ _ _ (get_or_create_judge_beside v) E) as Hs.
  apply get_or_create_judge_got in E. parts Hs.
  destruct r as [[id|]|e]; [|subst st'; reflexivity|done].
  apply got_subseteq in E.
  unfold grows, extends. repeat split; try done; unchanged.
Qed.

Lemma get_or_create_case_type_grows v : respects grows (get_or_create_case_type v).
Proof.
  intros st. destruct (get_or_create_case_type v st) as [st' r] eqn:E. simpl.
  pose proof (respects_run _ _ _ _ _ (get_or_create_case_type_beside v) E) as Hs.
  apply get_or_create_case_type_got in E. parts Hs.
  destruct r as [id|e]; [|destruct E as [_ ->]; reflexivity].
  destruct E as [_ Hgot]. apply got_subseteq in Hgot.
  unfold grows, extends. repeat split; try done; unchanged.
Qed.

Lemma get_or_create_party_grows v : respects grows (get_or_create_party v).
Proof.
  intros st. destruct (get_or_create_party v st) as [st' r] eqn:E. simpl.
  pose proof (respects_run _ _ _ _ _ (get_or_create_party_beside v) E) as Hs.
  apply get_or_create_party_got in E. parts Hs.
  destruct r as [id|e]; [|destruct E as [_ ->]; reflexivity].
  destruct E as [_ Hgot]. apply got_subseteq in Hgot.
  unfold grows, extends. repeat split; try done; unchanged.
Qed.

Lemma upsert_case_grows cn c t f ct j x s :
  respects grows (upsert_case cn c t f ct j x s).
Proof.
  intros st. destruct (upsert_case cn c t f ct j x s st) as [st' r] eqn:E. simpl.
  pose proof (respects_run _ _ _ _ _ (upsert_case_beside cn c t f ct j x s) E) as Hs.
  parts Hs.
  destruct (upsert_case_returns cn c t f ct j x s st) as (st'' & id & ins & E').
  rewrite E in E'. injection E' as <- ->.
  apply upsert_case_run in E as (Hcases & Hid & Hins).
  unfold grows, extends. repeat split; try done; try unchanged.
  intros cn' row Hrow. rewrite Hcases, lookup_insert. case_decide as Hcn.
  - subst cn'. rewrite Hrow in Hid. simpl. by subst id.
  - by rewrite Hrow.
Qed.

Lemma insert_case_party_grows c p r : respects grows (insert_case_party c p r).
Proof.
  intros st. unfold insert_case_party, modify, grows, extends. simpl.
  repeat split; try done; [set_solver|].
  intros cn row H. by rewrite H.
Qed.

Lemma link_parties_grows case cn l : respects grows (link_parties case cn l).
Proof.
  induction l as [|[name role] l IH]; [apply respects_ret; apply _|].
  unfold link_parties; fold link_parties.
  frame; eauto using get_or_create_party_grows, insert_case_party_grows.
  apply respects_modify;
    first [apply _ | intros st; unfold grows; simpl; reflexivity].
Qed.

Lemma process_docket_grows d : respects grows (process_docket d).
Proof.
  unfold process_docket.
  frame; eauto using get_or_create_court_grows, get_or_create_judge_grows,
    get_or_create_case_type_grows, upsert_case_grows, link_parties_grows;
    apply respects_modify;
    first [apply _ | intros st; unfold grows; simpl; reflexivity].
Qed.

End Growth.

Section InStep.

(** Rewrites the parts a call left alone back to what they were. *)
Ltac rw_parts H :=
  unfold same, beside_courts, beside_judges, beside_case_types, beside_parties,
    entities, case_side in H;
  simpl in H; injection H; clear H;
  repeat (let E := fresh "E" in intros E; rewrite <- ?E; clear E).

Lemma get_or_create_court_in_step t v sA sB sA' r :
  in_step t sA sB ->
  get_or_create_court v sA = (sA', r) ->
  extends (db sA') t ->
  exists sB', get_or_create_court v sB = (sB', r) /\ in_step t sA' sB'.
Proof.
  intros Hstep EA Hext.
  destruct (get_or_create_court v sB) as [sB' rB] eqn:EB. exists sB'.
  pose proof (respects_run _ _ _ _ _ (get_or_create_court_beside v) EA) as HsA.
  pose proof (respects_run _ _ _ _ _ (get_or_create_court_beside v) EB) as HsB.
  pose proof (get_or_create_court_got _ _ _ _ EA) as GA.
  pose proof (get_or_create_court_got _ _ _ _ EB) as GB.
  destruct r as [idA|e].
  - destruct GA as [Hv GA]. destruct rB as [idB|e]; [|destruct GB; congruence].
    destruct GB as [_ GB].
    unfold in_step, caches_backed in *.
    destruct Hstep as ((Ac & Aj & At & Ap) & (Bc & Bj & Bt & Bp) & Hc & Hj & Ht & Hp & Hl & Hids & Hcases).
    destruct Hext as (Xc & _).
    rewrite Hc in Bc, GB.
    destruct (got_in_step _ _ _ _ _ _ _ _ _ _ _ _ GA Ac Xc Bc GB) as (-> & Hrows & Hb).
    destruct (got_backed _ _ _ _ _ _ _ GA Ac) as [Hb' _].
    rw_parts HsA. rw_parts HsB. rewrite Hrows.
    repeat split; done.
  - destruct GA as [Hv ->].
    rewrite get_or_create_court_falsy in EA by done.
    rewrite get_or_create_court_falsy in EB by done.
    by simplify_eq.
Qed.

Lemma get_or_create_judge_decided v st :
  if Py.falsy v || bool_decide (normalize_judge_name (str_of v) = "")
  then get_or_create_judge v st = (st, Ok None)
  else exists st' id, get_or_create_judge v st = (st', Ok (Some id)).
Proof.
  unfold get_or_create_judge. destruct (Py.falsy v) eqn:Hv; simpl; [done|].
  case_bool_decide as Hk; [done|].
  apply falsy_inv in Hv as (raw & -> & Hraw).
  destruct (get_or_create_judge_run raw st Hraw Hk) as (st' & E & _).
  unfold get_or_create_judge in E. rewrite falsy_Str in E by done. simpl in E.
  rewrite bool_decide_eq_false_2 in E by done. eauto.
Qed.

Lemma get_or_create_judge_in_step t v sA sB sA' r :
  in_step t sA sB ->
  get_or_create_judge v sA = (sA', r) ->
  extends (db sA') t ->
  exists sB', get_or_create_judge v sB = (sB', r) /\ in_step t sA' sB'.
Proof.
  intros Hstep EA Hext.
  pose proof (get_or_create_judge_decided v sA) as DA.
  pose proof (get_or_create_judge_decided v sB) as DB.
  destruct (Py.falsy v || bool_decide (normalize_judge_name (str_of v) = "")).
  { rewrite DA in EA. injection EA as <- <-. eauto. }
  destruct DA as (sA'' & idA & DA). rewrite DA in EA. injection EA as -> <-.
  destruct DB as (sB' & idB & EB). exists sB'.
  pose proof (respects_run _ _ _ _ _ (get_or_create_judge_beside v) DA) as HsA.
  pose proof (respects_run _ _ _ _ _ (get_or_create_judge_beside v) EB) as HsB.
  pose proof (get_or_create_judge_got _ _ _ _ DA) as GA.
  pose proof (get_or_create_judge_got _ _ _ _ EB) as GB.
  simpl in GA, GB.
  unfold in_step, caches_backed in *.
  destruct Hstep as ((Ac & Aj & At & Ap) & (Bc & Bj & Bt & Bp) & Hc & Hj & Ht & Hp & Hl & Hids & Hcases).
  destruct Hext as (_ & Xj & _).
  rewrite Hj in Bj, GB.
  destruct (got_in_step _ _ _ _ _ _ _ _ _ _ _ _ GA Aj Xj Bj GB) as (-> & Hrows & Hb).
  destruct (got_backed _ _ _ _ _ _ _ GA Aj) as [Hb' _].
  rewrite EB. split; [done|].
  rw_parts HsA. rw_parts HsB. rewrite Hrows.
  repeat split; done.
Qed.

Lemma get_or_create_case_type_in_step t v sA sB sA' r :
  in_step t sA sB ->
  get_or_create_case_type v sA = (sA', r) ->
  extends (db sA') t ->
  exists sB', get_or_create_case_type v sB = (sB', r) /\ in_step t sA' sB'.
Proof.
  intros Hstep EA Hext.
  destruct (get_or_create_case_type v sB) as [sB' rB] eqn:EB. exists sB'.
  pose proof (respects_run _ _ _ _ _ (get_or_create_case_type_beside v) EA) as HsA.
  pose proof (respects_run _ _ _ _ _ (get_or_create_case_type_beside v) EB) as HsB.
  pose proof (get_or_create_case_type_got _ _ _ _ EA) as GA.
  pose proof (get_or_create_case_type_got _ _ _ _ EB) as GB.
  destruct r as [idA|e].
  - destruct GA as [Hv GA]. destruct rB as [idB|e]; [|destruct GB; congruence].
    destruct GB as [_ GB].
    unfold in_step, caches_backed in *.
    destruct Hstep as ((Ac & Aj & At & Ap) & (Bc & Bj & Bt & Bp) & Hc & Hj & Ht & Hp & Hl & Hids & Hcases).
    destruct Hext as (_ & _ & Xt & _).
    rewrite Ht in Bt, GB.
    destruct (got_in_step _ _ _ _ _ _ _ _ _ _ _ _ GA At Xt Bt GB) as (-> & Hrows & Hb).
    destruct (got_backed _ _ _ _ _ _ _ GA At) as [Hb' _].
    rw_parts HsA. rw_parts HsB. rewrite Hrows.
    repeat split; done.
  - destruct GA as [Hv ->].
    rewrite get_or_create_case_type_falsy in EA by done.
    rewrite get_or_create_case_type_falsy in EB by done.
    by simplify_eq.
Qed.

Lemma get_or_create_party_falsy v st :
  Py.falsy v = true ->
  get_or_create_party v st = (st, Raise (Py.ValueError "Party name cannot be empty")).
Proof. intros H. unfold get_or_create_party. by rewrite H. Qed.

Lemma get_or_create_party_in_step t v sA sB sA' r :
  in_step t sA sB ->
  get_or_create_party v sA = (sA', r) ->
  extends (db sA') t ->
  exists sB', get_or_create_party v sB = (sB', r) /\ in_step t sA' sB'.
Proof.
  intros Hstep EA Hext.
  destruct (get_or_create_party v sB) as [sB' rB] eqn:EB. exists sB'.
  pose proof (respects_run _ _ _ _ _ (get_or_create_party_beside v) EA) as HsA.
  pose proof (respects_run _ _ _ _ _ (get_or_create_party_beside v) EB) as HsB.
  pose proof (get_or_create_party_got _ _ _ _ EA) as GA.
  pose proof (get_or_create_party_got _ _ _ _ EB) as GB.
  destruct r as [idA|e].
  - destruct GA as [Hv GA]. destruct rB as [idB|e]; [|destruct GB; congruence].
    destruct GB as [_ GB].
    unfold in_step, caches_backed in *.
    destruct Hstep as ((Ac & Aj & At & Ap) & (Bc & Bj & Bt & Bp) & Hc & Hj & Ht & Hp & Hl & Hids & Hcases).
    destruct Hext as (_ & _ & _ & Xp & _).
    rewrite Hp in Bp, GB.
    destruct (got_in_step _ _ _ _ _ _ _ _ _ _ _ _ GA Ap Xp Bp GB) as (-> & Hrows & Hb).
    destruct (got_backed _ _ _ _ _ _ _ GA Ap) as [Hb' _].
    rw_parts HsA. rw_parts HsB. rewrite Hrows.
    repeat split; done.
  - destruct GA as [Hv ->].
    rewrite get_or_create_party_falsy in EA by done.
    rewrite get_or_create_party_falsy in EB by done.
    by simplify_eq.
Qed.

(** Being in step is a matter of cases, links and entities only. *)
Lemma in_step_case_side t sA sB sA' sB' :
  in_step t sA sB ->
  case_side sA = case_side sA' -> case_side sB = case_side sB' ->
  in_step t sA' sB'.
Proof.
  intros Hstep HA HB. unfold in_step, caches_backed in *.
  rw_parts HA. rw_parts HB. done.
Qed.

Lemma grows_case_side st st' : case_side st = case_side st' -> grows st st'.
Proof.
  intros H. unfold grows, extends. rw_parts H.
  repeat split; try done. intros cn row Hrow. by rewrite Hrow.
Qed.

Lemma upsert_case_in_step t cn c ti f ct j x s sA sB sA' id ins :
  in_step t sA sB ->
  upsert_case cn c ti f ct j x s sA = (sA', Ok (id, ins)) ->
  extends (db sA') t ->
  exists sB',
    upsert_case cn c ti f ct j x s sB = (sB', Ok (id, false)) /\ in_step t sA' sB'.
Proof.
  intros Hstep EA Hext.
  pose proof (respects_run _ _ _ _ _ (upsert_case_beside cn c ti f ct j x s) EA) as HsA.
  apply upsert_case_run in EA as (HcasesA & HidA & HinsA).
  destruct Hext as (_ & _ & _ & _ & _ & Xids).
  assert (Ht : case_id <$> cases t !! cn = Some id).
  { rewrite (Xids cn (CaseRow id c ti f ct j x s (if ins then None else Some (now sA)))); [done|].
    by rewrite HcasesA, lookup_insert_eq. }
  unfold in_step, caches_backed in *.
  destruct Hstep as ((Ac & Aj & At & Ap) & (Bc & Bj & Bt & Bp) & Hc & Hj & Hty & Hp & Hl & Hids & Hcases).
  assert (Hold : case_id <$> cases (db sB) !! cn = Some id) by (by rewrite Hids).
  destruct (cases (db sB) !! cn) as [old|] eqn:HB; [|done].
  simpl in Hold. injection Hold as Hold.
  destruct (upsert_case cn c ti f ct j x s sB) as [sB' rB] eqn:EB.
  pose proof (respects_run _ _ _ _ _ (upsert_case_beside cn c ti f ct j x s) EB) as HsB.
  assert (rB = Ok (id, false)
          /\ cases (db sB')
             = <[cn := CaseRow id c ti f ct j x s (Some (now sB))]> (cases (db sB)))
    as [-> HcasesB].
  { unfold upsert_case in EB. rewrite HB in EB. injection EB as <- <-.
    simpl. by rewrite Hold. }
  exists sB'. split; [done|].
  rw_parts HsA. rw_parts HsB.
  repeat split; try done.
  - intros cn'. rewrite HcasesB, lookup_insert. case_decide as Hcn.
    + subst cn'. by rewrite Ht.
    + apply Hids.
  - intros cn'. rewrite HcasesB, HcasesA, !lookup_insert. case_decide as Hcn.
    + left. done.
    + apply Hcases.
Qed.

Lemma insert_case_party_in_step t c p r sA sB :
  in_step t sA sB ->
  extends (db (fst (insert_case_party c p r sA))) t ->
  in_step t (fst (insert_case_party c p r sA)) (fst (insert_case_party c p r sB)).
Proof.
  intros Hstep Hext. unfold insert_case_party, modify in *. simpl in *.
  destruct Hext as (_ & _ & _ & _ & Xl & _). simpl in Xl.
  unfold in_step, caches_backed in *. simpl.
  destruct Hstep as ((?&?&?&?) & (?&?&?&?) & Hc & Hj & Hty & Hp & Hl & Hids & Hcases).
  repeat split; try done. rewrite Hl in *. set_solver.
Qed.

Lemma link_parties_in_step t case cn l : forall sA sB sA',
  in_step t sA sB ->
  link_parties case cn l sA = (sA', Ok tt) ->
  extends (db sA') t ->
  exists sB', link_parties case cn l sB = (sB', Ok tt) /\ in_step t sA' sB'.
Proof.
  induction l as [|[name role] l IH]; intros sA sB sA' Hstep EA Hext.
  { injection EA as <-. by exists sB. }
  unfold link_parties in EA |- *; fold link_parties in EA |- *.
  unfold mbind, M_bind, bind, try_except in EA |- *.
  destruct (get_or_create_party (Py.Str name) sA) as [a1 [pid|e]] eqn:E1.
  - simpl in EA.
    assert (Hg : grows (fst (insert_case_party case pid role a1)) sA')
      by (eapply respects_run; [apply link_parties_grows|exact EA]).
    assert (Hext2 : extends (db (fst (insert_case_party case pid role a1))) t)
      by (etrans; [exact Hg|exact Hext]).
    assert (Hext1 : extends (db a1) t).
    { etrans; [|exact Hext2]. apply (insert_case_party_grows case pid role a1). }
    destruct (get_or_create_party_in_step _ _ _ _ _ _ Hstep E1 Hext1) as (b1 & -> & Hstep1).
    simpl.
    pose proof (insert_case_party_in_step t case pid role a1 b1 Hstep1 Hext2) as Hstep2.
    eapply IH; [exact Hstep2|exact EA|exact Hext].
  - simpl in EA.
    pose proof (get_or_create_party_got _ _ _ _ E1) as [Hv ->].
    rewrite get_or_create_party_falsy in E1 by done. injection E1 as <-.
    rewrite get_or_create_party_falsy by done. simpl.
    unfold modify in *. simpl in *.
    eapply IH; [|exact EA|exact Hext].
    eapply in_step_case_side; [exact Hstep|done..].
Qed.

Lemma party_phase_in_step t case cn l sA sB sA' :
  in_step t sA sB ->
  party_phase case cn l sA = (sA', Ok tt) ->
  extends (db sA') t ->
  exists sB', party_phase case cn l sB = (sB', Ok tt) /\ in_step t sA' sB'.
Proof.
  destruct l as [|p l]; [|apply link_parties_in_step].
  intros Hstep EA _. injection EA as <-. eexists. split; [reflexivity|].
  eapply in_step_case_side; [exact Hstep|done..].
Qed.

Lemma party_phase_grows case cn l : respects grows (party_phase case cn l).
Proof.
  destruct l; [|apply link_parties_grows].
  apply respects_modify; first [apply _ | intros st; by apply grows_case_side].
Qed.

End InStep.

Section Records.

Lemma grows_run {A} (m : M A) st st' r t :
  respects grows m -> m st = (st', r) -> extends (db st') t -> extends (db st) t.
Proof.
  intros Hm E Hext. etrans; [|exact Hext]. exact (respects_run _ _ _ _ _ Hm E).
Qed.

(** A record processed in the second run meets the outcome it met in the
    first, except that an accepted record is now an update, and leaves the
    second run in step. *)
Lemma process_docket_in_step t d sA sB sA' r :
  in_step t sA sB ->
  process_docket d sA = (sA', r) ->
  extends (db sA') t ->
  exists sB',
    process_docket d sB
    = (sB', match r with
            | Ok (success, _) => Ok (success, "updated")
            | Raise e => Raise e
            end)
    /\ in_step t sA' sB'.
Proof.
  intros Hstep EA Hext.
  destruct (rejection d) as [[s e]|] eqn:Hrej.
  - pose proof (process_docket_rejected d sA s e Hrej) as RA.
    pose proof (process_docket_rejected d sB s e Hrej) as RB.
    destruct s.
    + rewrite RA in EA. injection EA as <- <-. by eauto.
    + rewrite RA in EA. injection EA as <- <-. by eauto.
    + rewrite RA in EA. injection EA as <- <-. by eauto.
    + destruct RA as (a1 & c & a2 & j & A1 & A2 & RA).
      rewrite RA in EA. injection EA as <- <-.
      destruct RB as (b1 & cB & b2 & jB & B1 & B2 & ->).
      pose proof (grows_run _ _ _ _ _ (get_or_create_judge_grows _) A2 Hext) as X1.
      destruct (get_or_create_court_in_step _ _ _ _ _ _ Hstep A1 X1) as (b1' & B1' & S1).
      rewrite B1 in B1'. injection B1' as <- <-.
      destruct (get_or_create_judge_in_step _ _ _ _ _ _ S1 A2 Hext) as (b2' & B2' & S2).
      rewrite B2 in B2'. injection B2' as <- <-. by eauto.
    + destruct RA as (a1 & c & a2 & j & a3 & ct & A1 & A2 & A3 & RA).
      rewrite RA in EA. injection EA as <- <-.
      destruct RB as (b1 & cB & b2 & jB & b3 & ctB & B1 & B2 & B3 & ->).
      pose proof (grows_run _ _ _ _ _ (get_or_create_case_type_grows _) A3 Hext) as X2.
      pose proof (grows_run _ _ _ _ _ (get_or_create_judge_grows _) A2 X2) as X1.
      destruct (get_or_create_court_in_step _ _ _ _ _ _ Hstep A1 X1) as (b1' & B1' & S1).
      rewrite B1 in B1'. injection B1' as <- <-.
      destruct (get_or_create_judge_in_step _ _ _ _ _ _ S1 A2 X2) as (b2' & B2' & S2).
      rewrite B2 in B2'. injection B2' as <- <-.
      destruct (get_or_create_case_type_in_step _ _ _ _ _ _ S2 A3 Hext) as (b3' & B3' & S3).
      rewrite B3 in B3'. injection B3' as <- <-. by eauto.
  - destruct (process_docket_accepted d sA Hrej)
      as (filed & status_ & a1 & c & a2 & j & a3 & ct & a4 & case & ins & a5
          & Hcn & Hdate & Hst & Hvalid & A1 & A2 & A3 & A4 & A5 & RA).
    rewrite RA in EA. injection EA as <- <-.
    destruct (process_docket_accepted d sB Hrej)
      as (filedB & statusB & b1 & cB & b2 & jB & b3 & ctB & b4 & caseB & insB & b5
          & _ & HdateB & HstB & _ & B1 & B2 & B3 & B4 & B5 & ->).
    rewrite Hdate in HdateB. injection HdateB as <-.
    rewrite Hst in HstB. injection HstB as <-.
    pose proof (grows_run _ _ _ _ _ (party_phase_grows _ _ _) A5 Hext) as X4'.
    assert (X4 : extends (db a4) t) by exact X4'.
    pose proof (grows_run _ _ _ _ _ (upsert_case_grows _ _ _ _ _ _ _ _) A4 X4) as X3.
    pose proof (grows_run _ _ _ _ _ (get_or_create_case_type_grows _) A3 X3) as X2.
    pose proof (grows_run _ _ _ _ _ (get_or_create_judge_grows _) A2 X2) as X1.
    destruct (get_or_create_court_in_step _ _ _ _ _ _ Hstep A1 X1) as (b1' & B1' & S1).
    rewrite B1 in B1'. injection B1' as <- <-.
    destruct (get_or_create_judge_in_step _ _ _ _ _ _ S1 A2 X2) as (b2' & B2' & S2).
    rewrite B2 in B2'. injection B2' as <- <-.
    destruct (get_or_create_case_type_in_step _ _ _ _ _ _ S2 A3 X3) as (b3' & B3' & S3).
    rewrite B3 in B3'. injection B3' as <- <-.
    destruct (upsert_case_in_step _ _ _ _ _ _ _ _ _ _ _ _ _ _ S3 A4 X4) as (b4' & B4' & S4).
    rewrite B4 in B4'. injection B4' as <- <- ->.
    assert (S4' : in_step t
                    (with_processed_cases (fun seen => {[ case_number_of d ]} ∪ seen) a4)
                    (with_processed_cases (fun seen => {[ case_number_of d ]} ∪ seen) b4))
      by (eapply in_step_case_side; [exact S4|done..]).
    destruct (party_phase_in_step _ _ _ _ _ _ _ S4' A5 Hext) as (b5' & B5' & S5).
    rewrite B5 in B5'. injection B5' as <-.
    by eauto.
Qed.

End Records.

Section SecondRun.

Variable json : docket -> string.
Variable sha : string -> string.

Local Arguments process_docket : simpl never.
Local Arguments quarantine_and_record : simpl never.
Local Arguments ingest_loop : simpl never.

Ltac by_case_side :=
  apply respects_modify; first [apply _ | intros ?; by apply grows_case_side].

Lemma quarantine_and_record_grows run d code e :
  respects grows (quarantine_and_record json sha run d code e).
Proof.
  unfold quarantine_and_record, write_quarantine_jsonl, record_error, commit.
  frame; by_case_side.
Qed.

Lemma ingest_loop_grows run clock dockets : forall i,
  respects grows (ingest_loop json sha run clock i dockets).
Proof.
  induction dockets as [|d rest IH]; intros i; [apply respects_ret; apply _|].
  unfold ingest_loop; fold (ingest_loop json sha).
  unfold set_clock, commit.
  repeat (first [ apply process_docket_grows | apply quarantine_and_record_grows
                | apply IH | frame_step ];
          try apply _; intros);
    by_case_side.
Qed.

Lemma accepted_cons d (rest : list docket) :
  length (filter (fun d => accepted d = true) (d :: rest))
  = (if rejected d then 0 else 1) + length (filter (fun d => accepted d = true) rest).
Proof.
  rewrite filter_cons. case_decide as H; unfold accepted in H;
    destruct (rejected d); simpl in *; done.
Qed.

(** The loop of the second run, in step with the loop of the first: it
    returns, every accepted record is an update, and the second run ends
    in step. *)
Lemma ingest_loop_in_step t runA runB clockA clockB dockets :
  forall iA iB sA sB sA',
    in_step t sA sB ->
    ingest_loop json sha runA clockA iA dockets sA = (sA', Ok tt) ->
    extends (db sA') t ->
    exists sB',
      ingest_loop json sha runB clockB iB dockets sB = (sB', Ok tt)
      /\ in_step t sA' sB'
      /\ inserted (counts sB') = inserted (counts sB)
      /\ updated (counts sB')
         = updated (counts sB) + length (filter (fun d => accepted d = true) dockets).
Proof.
  induction dockets as [|d rest IH]; intros iA iB sA sB sA' Hstep EA Hext.
  { injection EA as <-. exists sB. rewrite filter_nil. simpl.
    split; [done|]. split; [done|]. split; [done|lia]. }
  assert (Hentered : in_step t (entered clockA iA sA) (entered clockB iB sB))
    by (eapply in_step_case_side; [exact Hstep|done..]).
  rewrite accepted_cons. unfold rejected.
  destruct (rejection d) as [[s e]|] eqn:Hrej.
  - destruct (crashes d) eqn:Hc.
    { destruct (ingest_loop_crash json sha runA clockA iA d rest sA Hc) as (sx & E & _).
      rewrite E in EA. discriminate. }
    destruct (ingest_loop_rejected json sha runA clockA iA d rest sA s e Hrej Hc)
      as (ax & ay & PA & QA & LA).
    rewrite LA in EA.
    destruct (ingest_loop_rejected json sha runB clockB iB d rest sB s e Hrej Hc)
      as (bx & by_ & PB & QB & ->).
    pose proof (grows_run _ _ _ _ _ (ingest_loop_grows _ _ _ _) EA Hext) as Xy.
    pose proof (grows_run _ _ _ _ _ (quarantine_and_record_grows _ _ _ _) QA Xy) as Xx.
    destruct (process_docket_in_step _ _ _ _ _ _ Hentered PA Xx) as (bx' & PB' & Sx).
    rewrite PB in PB'. injection PB' as <-.
    destruct (quarantine_and_record_run json sha runA d (error_code_of e d) e ax Hc)
      as (ay' & QA' & _ & _ & _ & _ & _ & FA).
    rewrite QA in QA'. injection QA' as <-.
    destruct (quarantine_and_record_run json sha runB d (error_code_of e d) e bx Hc)
      as (by' & QB' & CB & _ & _ & _ & _ & FB).
    rewrite QB in QB'. injection QB' as <-.
    assert (Sy : in_step t ay by_).
    { eapply in_step_case_side; [exact Sx|..].
      - unfold same in FA. unfold case_side, entities. injection FA; intros; congruence.
      - unfold same in FB. unfold case_side, entities. injection FB; intros; congruence. }
    destruct (IH (S iA) (S iB) ay by_ sA' Sy EA Hext) as (sB' & EB & Send & Hins & Hupd).
    exists sB'. split; [done|]. split; [done|].
    pose proof (respects_run _ _ _ _ _ (process_docket_keeps_driver_state d) PB) as Hk.
    unfold same, driver_state in Hk. simpl in Hk.
    rewrite Hins, Hupd, CB. simpl.
    assert (counts bx = incr_read (counts sB)) as ->
      by (injection Hk; intros; congruence).
    simpl. split; [done|lia].
  - destruct (ingest_loop_accepted json sha runA clockA iA d rest sA Hrej)
      as (a & insA & PA & LA).
    rewrite LA in EA.
    destruct (ingest_loop_accepted json sha runB clockB iB d rest sB Hrej)
      as (b & insB & PB & ->).
    pose proof (grows_run _ _ _ _ _ (ingest_loop_grows _ _ _ _) EA Hext) as Xc.
    assert (Xa : extends (db a) t).
    { etrans; [|exact Xc]. apply (grows_case_side a (counted iA insA a)).
      unfold counted. by case_bool_decide. }
    destruct (process_docket_in_step _ _ _ _ _ _ Hentered PA Xa) as (b' & PB' & Sa).
    rewrite PB in PB'. injection PB' as <- HinsB.
    assert (insB = false) as -> by (by destruct insB).
    assert (Sc : in_step t (counted iA insA a) (counted iB false b)).
    { eapply in_step_case_side; [exact Sa|..]; unfold counted; by case_bool_decide. }
    destruct (IH (S iA) (S iB) _ _ sA' Sc EA Hext) as (sB' & EB & Send & Hins & Hupd).
    exists sB'. split; [done|]. split; [done|].
    pose proof (respects_run _ _ _ _ _ (process_docket_keeps_driver_state d) PB) as Hk.
    unfold same, driver_state in Hk. simpl in Hk.
    rewrite Hins, Hupd.
    assert (counts b = incr_read (counts sB)) as Hb
      by (injection Hk; intros; congruence).
    unfold counted. simpl. case_bool_decide; simpl; rewrite Hb; simpl; split; try done; lia.
Qed.

End SecondRun.

(** C2, counterexample. The same batch ingested a second time, later,
    leaves a different Case state: the case carries the update stamp of the
    second run. *)
Lemma second_run_restamps_the_case :
  let run1 := ingest_file (fun _ => "{}") (fun s => s) "raw_dockets.json" ""
                [sample_docket; sample_docket] (fun _ => (1, 1)) empty_store in
  let run2 := ingest_file (fun _ => "{}") (fun s => s) "raw_dockets.json" ""
                [sample_docket; sample_docket] (fun _ => (2, 2)) (fst run1) in
  snd run1 = Ok tt /\ snd run2 = Ok tt
  /\ cases (db (fst run2)) <> cases (db (fst run1)).
Proof.
  split; [vm_compute; reflexivity|]. split; [vm_compute; reflexivity|].
  intros H. apply (f_equal (fun m => updated_at <$> m !! "1:24-cv-1")) in H.
  vm_compute in H. discriminate.
Qed.

(** C2, as the code has it. When a run on a batch ends normally, a second
    run on the same batch, on the store the first one left and with caches
    that agree with that store (those of the first run, or the empty ones
    of a new ingester), ends normally too; it leaves the parties and the
    case-party links as they were and the cases as they were up to their
    update stamp; it inserts nothing and updates as many cases as the first
    run inserted and updated. *)
Theorem second_run_updates_only json sha path name dockets clock1 clock2 st0 st1 :
  caches_backed st0 ->
  ingest_file json sha path name dockets clock1 st0 = (st1, Ok tt) ->
  caches_backed st1
  /\ forall st1',
       db st1' = db st1 -> caches_backed st1' ->
       exists st2,
         ingest_file json sha path name dockets clock2 st1' = (st2, Ok tt)
         /\ parties (db st2) = parties (db st1)
         /\ case_parties (db st2) = case_parties (db st1)
         /\ without_stamp <$> cases (db st2) = without_stamp <$> cases (db st1)
         /\ inserted (counts st2) = 0
         /\ updated (counts st2) = inserted (counts st1) + updated (counts st1).
Proof.
  intros Hb0 E1. rewrite ingest_file_unfold in E1.
  destruct (ingest_loop json sha _ clock1 1 dockets (run_started path name st0))
    as [sA [[]|e]] eqn:LA; [|discriminate].
  injection E1 as <-.
  set (runA := ingest_runs_run_id_seq (seqs st0)) in *.
  set (st1 := run_finished runA (clock1 (S (length dockets))) sA).
  assert (Hext : extends (db sA) (db st1)) by (by apply (grows_case_side sA st1)).
  pose proof (ingest_loop_returns_safe _ _ _ _ _ _ _ _ LA) as Hsafe.
  destruct (ingest_loop_tracks json sha runA clock1 dockets 1 (run_started path name st0)
              Hsafe eq_refl) as (sA' & LA' & _ & _ & HaccA & _).
  rewrite LA in LA'. injection LA' as <-.
  assert (Hkey : forall st1',
             db st1' = db st1 -> caches_backed st1' ->
             exists sB,
               ingest_loop json sha (ingest_runs_run_id_seq (seqs st1')) clock2 1 dockets
                 (run_started path name st1') = (sB, Ok tt)
               /\ in_step (db st1) sA sB
               /\ inserted (counts sB) = 0
               /\ updated (counts sB) = length (filter (fun d => accepted d = true) dockets)).
  { intros st1' Hdb Hb1.
    assert (Hstart : in_step (db st1) (run_started path name st0)
                       (run_started path name st1')).
    { unfold in_step. split; [exact Hb0|]. split; [exact Hb1|].
      change (db (run_started path name st1'))
        with (with_ingest_runs
                (insert (ingest_runs_run_id_seq (seqs st1'))
                   (RunRow (if bool_decide (name = "") then basename path else name)
                      (Some path) None None)) (db st1')).
      rewrite Hdb. simpl. repeat split; try done. intros cn. by right. }
    destruct (ingest_loop_in_step json sha (db st1) runA
                (ingest_runs_run_id_seq (seqs st1')) clock1 clock2 dockets 1 1 _ _ _
                Hstart LA Hext) as (sB & LB & Hend & Hins & Hupd).
    exists sB. split; [done|]. split; [done|]. by rewrite Hins, Hupd. }
  split.
  - destruct (Hkey (connect (db st1) (seqs st1) (files st1)) eq_refl) as (sB & _ & Hend & _).
    { unfold caches_backed, backed. simpl. repeat split; intros k id; by rewrite lookup_empty. }
    destruct Hend as (Hb & _). exact Hb.
  - intros st1' Hdb Hb1.
    destruct (Hkey st1' Hdb Hb1) as (sB & LB & Hend & Hins & Hupd).
    rewrite ingest_file_unfold, LB. eexists. split; [reflexivity|].
    destruct Hend as (_ & _ & _ & _ & _ & Hp & Hl & _ & Hcases).
    split; [exact Hp|]. split; [exact Hl|]. split; [|split].
    + apply map_eq. intros cn. rewrite !lookup_fmap.
      destruct (Hcases cn) as [H|H]; exact H.
    + exact Hins.
    + simpl in *. lia.
Qed.

(** C2, witness: the sample record, the record with the bad status and the
    sample record again, on the empty store, the second run going on with
    the ingester of the first. *)
Lemma second_run_updates_only_witness :
  exists st1 st2,
    ingest_file (fun _ => "{}") (fun s => s) "raw_dockets.json" ""
      [sample_docket; bad_status_docket; sample_docket] (fun i => (i, i)) empty_store
    = (st1, Ok tt)
    /\ ingest_file (fun _ => "{}") (fun s => s) "raw_dockets.json" ""
         [sample_docket; bad_status_docket; sample_docket] (fun i => (10 + i, 10 + i)) st1
       = (st2, Ok tt)
    /\ parties (db st2) = parties (db st1)
    /\ case_parties (db st2) = case_parties (db st1)
    /\ without_stamp <$> cases (db st2) = without_stamp <$> cases (db st1)
    /\ inserted (counts st2) = 0
    /\ updated (counts st2) = inserted (counts st1) + updated (counts st1).
Proof.
  destruct (ingest_file (fun _ => "{}") (fun s => s) "raw_dockets.json" ""
              [sample_docket; bad_status_docket; sample_docket] (fun i => (i, i))
              empty_store) as [st1 r] eqn:E1.
  assert (r = Ok tt) as ->.
  { apply (f_equal snd) in E1. vm_compute in E1. congruence. }
  assert (Hb0 : caches_backed empty_store).
  { unfold caches_backed, backed. simpl. repeat split; intros k id; by rewrite lookup_empty. }
  destruct (second_run_updates_only (fun _ => "{}") (fun s => s) "raw_dockets.json" ""
              [sample_docket; bad_status_docket; sample_docket] (fun i => (i, i))
              (fun i => (10 + i, 10 + i)) empty_store st1 Hb0 E1) as [Hb1 H2].
  destruct (H2 st1 eq_refl Hb1) as (st2 & E2 & H).
  exists st1, st2. split; [reflexivity|]. split; [exact E2|exact H].
Defined.

(** * Further properties *)

Section Strings.

Lemma app_assoc_s (a b c : string) : (a +:+ b) +:+ c = a +:+ (b +:+ c).
Proof. induction a as [|x a IH]; [done|]. by rewrite !app_String, IH. Qed.

Lemma rev_app_append s : forall acc, String.rev_app s acc = String.rev_app s "" +:+ acc.
Proof.
  induction s as [|c s IH]; intros acc; simpl; [done|].
  rewrite (IH (String c acc)), (IH (String c "")), app_assoc_s.
  by rewrite app_String, app_empty.
Qed.

Lemma rev_cons c s : String.rev (String c s) = String.rev s +:+ String c "".
Proof. unfold String.rev. simpl. apply rev_app_append. Qed.

Lemma rev_app_snoc s c : forall acc,
  String.rev_app (s +:+ String c "") acc = String c (String.rev_app s acc).
Proof.
  induction s as [|x s IH]; intros acc; [done|]. rewrite app_String. apply IH.
Qed.

Lemma rev_snoc s c : String.rev (s +:+ String c "") = String c (String.rev s).
Proof. apply rev_app_snoc. Qed.

Lemma rev_involutive s : String.rev (String.rev s) = s.
Proof.
  induction s as [|c s IH]; [done|]. by rewrite rev_cons, rev_snoc, IH.
Qed.

Lemma lstrip_app a b :
  Py.lstrip (a +:+ b) = if Py.all_chars Py.isspace a then Py.lstrip b else Py.lstrip a +:+ b.
Proof.
  induction a as [|c a IH]; [done|]. rewrite app_String. simpl.
  destruct (Py.isspace c); simpl; [done|]. by rewrite app_String.
Qed.

Lemma lstrip_empty_blank s : Py.lstrip s = "" <-> Py.all_chars Py.isspace s = true.
Proof.
  induction s as [|c s IH]; simpl; [done|].
  destruct (Py.isspace c); simpl; [done|]. split; discriminate.
Qed.

Lemma rev_empty s : String.rev s = "" -> s = "".
Proof. intros H. rewrite <- (rev_involutive s), H. done. Qed.

Lemma rstrip_cons c s :
  Py.rstrip (String c s)
  = match Py.rstrip s with
    | "" => if Py.isspace c then "" else String c ""
    | r => String c r
    end.
Proof.
  unfold Py.rstrip. rewrite rev_cons, lstrip_app.
  destruct (Py.all_chars Py.isspace (String.rev s)) eqn:Hb.
  - apply lstrip_empty_blank in Hb. rewrite Hb. simpl.
    by destruct (Py.isspace c).
  - rewrite rev_snoc.
    destruct (String.rev (Py.lstrip (String.rev s))) eqn:Hr; [|done].
    apply rev_empty in Hr. apply lstrip_empty_blank in Hr. congruence.
Qed.

End Strings.

Section Keys.

Lemma upper_char_idem c : Py.upper_char (Py.upper_char c) = Py.upper_char c.
Proof. destruct c as [[] [] [] [] [] [] [] []]; reflexivity. Qed.

Lemma upper_lower_char c : Py.upper_char (Py.lower_char c) = Py.upper_char c.
Proof. destruct c as [[] [] [] [] [] [] [] []]; reflexivity. Qed.

Lemma lower_char_idem c : Py.lower_char (Py.lower_char c) = Py.lower_char c.
Proof. destruct c as [[] [] [] [] [] [] [] []]; reflexivity. Qed.

Lemma isspace_upper_char c : Py.isspace (Py.upper_char c) = Py.isspace c.
Proof. destruct c as [[] [] [] [] [] [] [] []]; reflexivity. Qed.

Lemma isspace_lower c : Py.isspace (Py.lower_char c) = Py.isspace c.
Proof. destruct c as [[] [] [] [] [] [] [] []]; reflexivity. Qed.

Lemma period_upper_char c : Py.upper_char c = "."%char <-> c = "."%char.
Proof. destruct c as [[] [] [] [] [] [] [] []]; split; try discriminate; reflexivity. Qed.

Lemma normalize_court_name_filter court :
  normalize_court_name court
  = Py.filter_chars (fun c => negb (bool_decide (c = "."%char) || Py.isspace c))
      (Py.upper court).
Proof. unfold normalize_court_name. by case_bool_decide; subst. Qed.

Lemma normalize_court_name_cons c s :
  normalize_court_name (String c s)
  = if bool_decide (c = "."%char) || Py.isspace c then normalize_court_name s
    else String (Py.upper_char c) (normalize_court_name s).
Proof.
  rewrite !normalize_court_name_filter. unfold Py.upper. simpl.
  rewrite isspace_upper_char.
  assert (bool_decide (Py.upper_char c = "."%char) = bool_decide (c = "."%char)) as ->.
  { apply bool_decide_ext, period_upper_char. }
  by destruct (_ || _).
Qed.

End Keys.

(** X1. On names of ASCII characters the court key ignores case, periods
    and whitespace: it is the same for a name and for the name in lower
    case, it holds no period, no whitespace and no lower-case letter, and
    normalizing a key gives the key back. Inserting a period or an ASCII
    whitespace character anywhere in a name leaves its key as it is. *)
Theorem normalize_court_name_ignores_case_periods_spaces :
  (forall s, ascii_text s -> normalize_court_name (Py.lower s) = normalize_court_name s)
  /\ (forall a b c,
        c = "."%char \/ Py.isspace c = true ->
        normalize_court_name (a +:+ String c b) = normalize_court_name (a +:+ b))
  /\ (forall s, ascii_text s ->
        Py.all_chars court_key_char (normalize_court_name s) = true)
  /\ (forall s, ascii_text s ->
        normalize_court_name (normalize_court_name s) = normalize_court_name s).
Proof.
  split; [|split; [|split]].
  - intros s _. rewrite !normalize_court_name_filter. f_equal.
    unfold Py.upper, Py.lower. induction s as [|c s IH]; [done|]. simpl.
    by rewrite upper_lower_char, IH.
  - intros a b c Hc. induction a as [|x a IH].
    + rewrite !app_empty, normalize_court_name_cons.
      destruct Hc as [-> | ->]; [done|]. by rewrite orb_true_r.
    + rewrite !app_String, !normalize_court_name_cons, IH. done.
  - intros s _. induction s as [|c s IH]; [done|].
    rewrite normalize_court_name_cons.
    destruct (bool_decide (c = "."%char) || Py.isspace c) eqn:Hk; [done|].
    apply orb_false_iff in Hk as [Hp Hs]. simpl. rewrite IH, andb_true_r.
    unfold court_key_char.
    rewrite isspace_upper_char, Hs, upper_char_idem.
    rewrite (bool_decide_eq_true_2 (Py.upper_char c = Py.upper_char c)) by done.
    apply bool_decide_eq_false in Hp.
    rewrite bool_decide_eq_false_2; [done|]. by rewrite period_upper_char.
  - intros s _. induction s as [|c s IH]; [done|].
    rewrite normalize_court_name_cons.
    destruct (bool_decide (c = "."%char) || Py.isspace c) eqn:Hk; [done|].
    rewrite normalize_court_name_cons, IH, upper_char_idem, isspace_upper_char.
    apply orb_false_iff in Hk as [Hp Hs]. rewrite Hs, orb_false_r.
    apply bool_decide_eq_false in Hp.
    rewrite bool_decide_eq_false_2; [done|]. by rewrite period_upper_char.
Qed.

(** X1, witness: "S.D.N.Y." in lower case, and "N.D Cal" without its
    period. *)
Lemma normalize_court_name_ignores_case_periods_spaces_witness :
  normalize_court_name (Py.lower "S.D.N.Y.") = normalize_court_name "S.D.N.Y."
  /\ normalize_court_name ("N" +:+ String "." "D Cal") = normalize_court_name ("N" +:+ "D Cal").
Proof.
  destruct normalize_court_name_ignores_case_periods_spaces as (H1 & H2 & _).
  split.
  - apply (H1 "S.D.N.Y."). reflexivity.
  - apply (H2 "N" "D Cal" "."%char). by left.
Defined.

Section Words.

Lemma word_cons c w :
  Py.isspace c = false -> (w = "" \/ word w) -> word (String c w).
Proof.
  intros Hc Hw. split; [done|]. simpl. rewrite Hc. simpl.
  destruct Hw as [->|[_ Hw]]; done.
Qed.

Lemma split_ws_words s : Forall word (Py.split_ws s).
Proof.
  induction s as [|c s IH]; [constructor|]. simpl.
  destruct (Py.isspace c) eqn:Hc; [done|].
  destruct s as [|d s]; [repeat constructor; [done|]; simpl; by rewrite Hc|].
  destruct (Py.isspace d) eqn:Hd.
  - constructor; [|done]. apply word_cons; auto.
  - destruct (Py.split_ws (String d s)) as [|w ws].
    + constructor; [|done]. apply word_cons; auto.
    + apply Forall_cons in IH as [Hw Hws]. constructor; [|done].
      apply word_cons; auto.
Qed.

Lemma split_ws_word_app w rest :
  word w -> Py.split_ws (w +:+ String " " rest) = w :: Py.split_ws rest.
Proof.
  intros [Hne Hw]. induction w as [|c w IH]; [done|].
  simpl in Hw. apply andb_true_iff in Hw as [Hc Hw]. apply negb_true_iff in Hc.
  rewrite app_String. destruct w as [|d w].
  - rewrite app_empty. simpl. by rewrite Hc.
  - rewrite app_String in *. simpl in Hw. apply andb_true_iff in Hw as [Hd Hw'].
    apply negb_true_iff in Hd.
    change (Py.split_ws (String c (String d (w +:+ String " " rest))))
      with (if Py.isspace c then Py.split_ws (String d (w +:+ String " " rest))
            else if Py.isspace d
                 then String c "" :: Py.split_ws (String d (w +:+ String " " rest))
                 else match Py.split_ws (String d (w +:+ String " " rest)) with
                      | w' :: ws => String c w' :: ws
                      | [] => [String c ""]
                      end).
    rewrite Hc, Hd, IH; [done|done|]. simpl. by rewrite Hd, Hw'.
Qed.

Lemma split_ws_join ws : Forall word ws -> Py.split_ws (Py.join " " ws) = ws.
Proof.
  induction ws as [|w ws IH]; [done|]. intros [Hw Hws]%Forall_cons.
  destruct ws as [|w' ws].
  - simpl. destruct Hw. by apply split_ws_word.
  - change (Py.join " " (w :: w' :: ws)) with (w +:+ " " +:+ Py.join " " (w' :: ws)).
    change (" " +:+ Py.join " " (w' :: ws)) with (String " " (Py.join " " (w' :: ws))).
    rewrite split_ws_word_app by done. by rewrite IH.
Qed.

Lemma lower_app a b : Py.lower (a +:+ b) = Py.lower a +:+ Py.lower b.
Proof.
  unfold Py.lower. induction a as [|c a IH]; [done|].
  rewrite app_String. simpl. by rewrite IH, app_String.
Qed.

Lemma lower_idem s : Py.lower (Py.lower s) = Py.lower s.
Proof.
  unfold Py.lower. induction s as [|c s IH]; [done|]. simpl.
  by rewrite lower_char_idem, IH.
Qed.

Lemma lower_join ws : Py.lower (Py.join " " ws) = Py.join " " (Py.lower <$> ws).
Proof.
  induction ws as [|w ws IH]; [done|]. destruct ws as [|w' ws]; [done|].
  change (Py.join " " (w :: w' :: ws)) with (w +:+ " " +:+ Py.join " " (w' :: ws)).
  rewrite !lower_app, IH. done.
Qed.

Lemma lower_word w : word w -> word (Py.lower w).
Proof.
  intros [Hne Hw]. split; [by destruct w|].
  clear Hne. unfold Py.lower. induction w as [|c w IH]; [done|]. simpl in *.
  apply andb_true_iff in Hw as [Hc Hw]. by rewrite isspace_lower, Hc, IH.
Qed.

Lemma lower_words ws : Forall word ws -> Forall word (Py.lower <$> ws).
Proof. intros H. apply Forall_fmap. eapply Forall_impl; [done|]. apply lower_word. Qed.

Lemma rstrip_word w : word w -> Py.rstrip w = w.
Proof.
  intros [Hne Hw]. induction w as [|c w IH]; [done|].
  simpl in Hw. apply andb_true_iff in Hw as [Hc Hw]. apply negb_true_iff in Hc.
  rewrite rstrip_cons. destruct w as [|d w]; [simpl; by rewrite Hc|].
  by rewrite IH.
Qed.

Lemma rstrip_app a b : Py.rstrip b <> "" -> Py.rstrip (a +:+ b) = a +:+ Py.rstrip b.
Proof.
  intros Hb. induction a as [|c a IH]; [done|].
  rewrite !app_String, rstrip_cons, IH.
  destruct (a +:+ Py.rstrip b) eqn:E; [|done].
  destruct a; [|by rewrite app_String in E]. by rewrite app_empty in E.
Qed.

Lemma join_nonempty w ws : word w -> Py.join " " (w :: ws) <> "".
Proof.
  intros [Hne _]. destruct ws; simpl; [done|].
  destruct w; [done|]. by rewrite app_String.
Qed.

Lemma rstrip_join ws : Forall word ws -> Py.rstrip (Py.join " " ws) = Py.join " " ws.
Proof.
  induction ws as [|w ws IH]; [done|]. intros [Hw Hws]%Forall_cons.
  destruct ws as [|w' ws]; [by apply rstrip_word|].
  apply Forall_cons in Hws as Hws'. destruct Hws' as [Hw' _].
  change (Py.join " " (w :: w' :: ws))
    with (w +:+ String " " (Py.join " " (w' :: ws))).
  assert (Hr : Py.rstrip (String " " (Py.join " " (w' :: ws)))
               = String " " (Py.join " " (w' :: ws))).
  { rewrite rstrip_cons, IH by done.
    destruct (Py.join " " (w' :: ws)) eqn:E; [|done].
    by apply join_nonempty in E. }
  rewrite rstrip_app; rewrite Hr; done.
Qed.

Lemma lstrip_join ws : Forall word ws -> Py.lstrip (Py.join " " ws) = Py.join " " ws.
Proof.
  destruct ws as [|w ws]; [done|]. intros [[Hne Hw] _]%Forall_cons.
  destruct w as [|c w]; [done|]. simpl in Hw.
  apply andb_true_iff in Hw as [Hc _]. apply negb_true_iff in Hc.
  destruct ws; simpl; rewrite ?app_String; simpl; by rewrite Hc.
Qed.

Lemma strip_join ws : Forall word ws -> Py.strip (Py.join " " ws) = Py.join " " ws.
Proof. intros H. unfold Py.strip. by rewrite lstrip_join, rstrip_join. Qed.

Lemma split_ws_nil s : Py.split_ws s = [] -> blank s.
Proof.
  unfold blank. induction s as [|c s IH]; [done|]. simpl.
  destruct (Py.isspace c); [done|].
  destruct s as [|d s]; [done|].
  destruct (Py.isspace d); [done|]. by destruct (Py.split_ws _).
Qed.

(** The key made of the words of a text. *)
Lemma words_key_canonical s : canonical (Py.lower (Py.join " " (Py.split_ws s))).
Proof.
  pose proof (lower_words _ (split_ws_words s)) as Hws.
  unfold canonical. rewrite lower_idem. split; [|done].
  by rewrite lower_join, split_ws_join.
Qed.

Lemma canonical_strip k : canonical k -> Py.strip k = k.
Proof.
  intros [Hk _]. rewrite <- Hk. apply strip_join, split_ws_words.
Qed.

Lemma normalize_party_name_words party :
  normalize_party_name party = Py.lower (Py.join " " (Py.split_ws party)).
Proof.
  unfold normalize_party_name. case_bool_decide as Hp; [by subst|].
  apply canonical_strip, words_key_canonical.
Qed.

End Words.

(** X2. The keys of parties and judges are in canonical form: lower-case
    words separated by single spaces, with no whitespace at either end. The
    final [strip()] of the party normalizer therefore never changes its
    argument, a party key is its own key, and the party key is empty exactly
    for a name of whitespace only. *)
Theorem party_and_judge_keys_are_canonical :
  (forall s, canonical (normalize_party_name s))
  /\ (forall s, canonical (normalize_judge_name s))
  /\ (forall s, normalize_party_name s = Py.lower (Py.join " " (Py.split_ws s)))
  /\ (forall s, normalize_party_name (normalize_party_name s) = normalize_party_name s)
  /\ (forall s, normalize_party_name s = "" <-> blank s).
Proof.
  split; [|split; [|split; [|split]]].
  - intros s. rewrite normalize_party_name_words. apply words_key_canonical.
  - intros s. unfold normalize_judge_name. case_bool_decide; [done|].
    apply words_key_canonical.
  - apply normalize_party_name_words.
  - intros s. rewrite (normalize_party_name_words (normalize_party_name s)).
    destruct (words_key_canonical s) as [Hj Hl].
    rewrite <- normalize_party_name_words in Hj, Hl. by rewrite Hj.
  - intros s. rewrite normalize_party_name_words. split.
    + intros Hk. apply split_ws_nil.
      destruct (Py.split_ws s) as [|w ws] eqn:E; [done|]. exfalso.
      pose proof (split_ws_words s) as Hws. rewrite E in Hws.
      pose proof (lower_words _ Hws) as Hl. rewrite lower_join in Hk.
      rewrite fmap_cons in Hk, Hl. apply Forall_cons in Hl as [Hw _].
      by apply join_nonempty in Hk.
    + intros Hb. by rewrite split_ws_blank.
Qed.

Section Digits.

Local Arguments Nat.div : simpl never.
Local Arguments Nat.modulo : simpl never.
Local Arguments Nat.mul : simpl never.
Local Arguments digit_char : simpl never.

Lemma div_10_lt n : n < 100 -> n / 10 < 10.
Proof. intros H. apply Nat.Div0.div_lt_upper_bound. lia. Qed.

Lemma mod_10_lt n : n mod 10 < 10.
Proof. by apply Nat.mod_upper_bound. Qed.

Lemma div_100_lt y : y < 10000 -> y / 100 < 100.
Proof. intros H. apply Nat.Div0.div_lt_upper_bound. exact H. Qed.

Lemma mod_100_lt y : y mod 100 < 100.
Proof. by apply Nat.mod_upper_bound. Qed.

Lemma two_digits_value n : 10 * (n / 10) + n mod 10 = n.
Proof. pose proof (Nat.div_mod_eq n 10). lia. Qed.

Lemma four_digits_value y :
  1000 * (y / 100 / 10) + 100 * ((y / 100) mod 10)
  + 10 * (y mod 100 / 10) + (y mod 100) mod 10 = y.
Proof.
  pose proof (Nat.div_mod_eq y 100). pose proof (Nat.div_mod_eq (y / 100) 10).
  pose proof (Nat.div_mod_eq (y mod 100) 10). lia.
Qed.

Lemma digit_char_spec a :
  a < 10 ->
  Py.isdigit (digit_char a) = true
  /\ Py.digit_value (digit_char a) = a
  /\ Py.isspace (digit_char a) = false.
Proof. intros H. do 10 (destruct a as [|a]; [done|]). lia. Qed.

Lemma digit_cons c r :
  Re.digit (String c r) = if Py.isdigit c then [(Py.digit_value c, r)] else [].
Proof. unfold Re.digit, Re.bind, Re.pchar. by destruct (Py.isdigit c). Qed.

Lemma digit_nil : Re.digit "" = [].
Proof. reflexivity. Qed.

Lemma digit_digit_char a r : a < 10 -> Re.digit (String (digit_char a) r) = [(a, r)].
Proof.
  intros H. destruct (digit_char_spec a H) as (Hd & Hv & _).
  by rewrite digit_cons, Hd, Hv.
Qed.

Lemma separator_not_digit c : date_separator c -> Py.isdigit c = false.
Proof. by intros [->| ->]. Qed.

Lemma bind_one {A B} (x : A) (f : A -> list B) : [x] ≫= f = f x.
Proof. cbn. apply app_nil_r. Qed.

Lemma re_bind_one {A B} (p : Re.parser A) (f : A -> Re.parser B) s a r :
  p s = [(a, r)] -> Re.bind p f s = f a r.
Proof. unfold Re.bind. intros ->. by rewrite bind_one. Qed.

Lemma re_bind_nil {A B} (p : Re.parser A) (f : A -> Re.parser B) s :
  p s = [] -> Re.bind p f s = [].
Proof. unfold Re.bind. by intros ->. Qed.

Lemma re_bind_head {A B} (p : Re.parser A) (f : A -> Re.parser B) s a r tl x tl' :
  p s = (a, r) :: tl -> f a r = x :: tl' -> exists tl'', Re.bind p f s = x :: tl''.
Proof. unfold Re.bind. intros -> H. cbn. rewrite H. by eexists. Qed.

Lemma re_skip_one {A} (m : Re.matcher) (p : Re.parser A) s r :
  m s = [r] -> Re.skip m p s = p r.
Proof. unfold Re.skip. intros ->. by rewrite bind_one. Qed.

Lemma re_skip_nil {A} (m : Re.matcher) (p : Re.parser A) s :
  m s = [] -> Re.skip m p s = [].
Proof. unfold Re.skip. by intros ->. Qed.

(** [(\d{1,2})] on a number as written, before a character that is no
    digit: the first way of matching takes all of it. *)
Lemma digits_1_2_written n text c r :
  n < 100 -> written n text -> Py.isdigit c = false ->
  exists tl, Re.digits_1_2 (text +:+ String c r) = (n, String c r) :: tl.
Proof.
  intros Hn Hw Hc. unfold Re.digits_1_2.
  destruct Hw as [-> |[Hlt ->]].
  - unfold two_digits. rewrite !app_String, app_empty.
    erewrite re_bind_one; [|by apply digit_digit_char, div_10_lt].
    unfold Re.palt.
    erewrite re_bind_one; [|apply digit_digit_char, mod_10_lt].
    unfold Re.pure. eexists. cbn [app]. by rewrite two_digits_value.
  - rewrite app_String, app_empty.
    erewrite re_bind_one; [|by apply digit_digit_char].
    unfold Re.palt. rewrite re_bind_nil; [by eexists|].
    by rewrite digit_cons, Hc.
Qed.

Lemma digits_4_four_digits y r :
  y < 10000 -> Re.digits_4 (four_digits y +:+ r) = [(y, r)].
Proof.
  intros Hy%div_100_lt. pose proof (mod_100_lt y).
  unfold four_digits, two_digits.
  rewrite !app_String, app_empty, !app_String, app_empty.
  unfold Re.digits_4.
  erewrite re_bind_one; [|by apply digit_digit_char, div_10_lt].
  erewrite re_bind_one; [|apply digit_digit_char, mod_10_lt].
  erewrite re_bind_one; [|by apply digit_digit_char, div_10_lt].
  erewrite re_bind_one; [|apply digit_digit_char, mod_10_lt].
  unfold Re.pure. by rewrite four_digits_value.
Qed.

(** [\d\d\d\d] fails on a text whose first one or two digits are followed
    by a character that is no digit. *)
Lemma digits_4_written n text c r :
  n < 100 -> written n text -> Py.isdigit c = false ->
  Re.digits_4 (text +:+ String c r) = [].
Proof.
  intros Hn Hw Hc. unfold Re.digits_4.
  assert (Hsep : Re.digit (String c r) = []) by (by rewrite digit_cons, Hc).
  destruct Hw as [-> |[Hlt ->]]; unfold two_digits;
    rewrite ?app_String, ?app_empty.
  - erewrite re_bind_one; [|by apply digit_digit_char, div_10_lt].
    erewrite re_bind_one; [|apply digit_digit_char, mod_10_lt].
    by apply re_bind_nil.
  - erewrite re_bind_one; [|by apply digit_digit_char].
    by apply re_bind_nil.
Qed.

Lemma word_two_digits n : n < 100 -> word (two_digits n).
Proof.
  intros Hn. split; [done|]. unfold two_digits. cbn [Py.all_chars].
  destruct (digit_char_spec (n / 10)) as (_ & _ & ->); [by apply div_10_lt|].
  destruct (digit_char_spec (n mod 10)) as (_ & _ & ->); [apply mod_10_lt|].
  reflexivity.
Qed.

Lemma word_app a b : word a -> word b -> word (a +:+ b).
Proof.
  intros [Ha1 Ha2] [Hb1 Hb2]. split.
  - destruct a; [done|]. by rewrite app_String.
  - clear Ha1. induction a as [|c a IH]; [done|]. rewrite app_String.
    cbn [Py.all_chars] in *. apply andb_true_iff in Ha2 as [-> Ha2]. by apply IH.
Qed.

Lemma word_four_digits y : y < 10000 -> word (four_digits y).
Proof.
  intros Hy%div_100_lt. pose proof (mod_100_lt y).
  apply word_app; by apply word_two_digits.
Qed.

End Digits.

Section NumericDates.

Local Arguments Nat.div : simpl never.
Local Arguments Nat.modulo : simpl never.
Local Arguments Nat.mul : simpl never.
Local Arguments digit_char : simpl never.

Lemma written_head n text :
  n < 100 -> written n text ->
  exists c tl, text = String c tl /\ Py.isspace c = false /\ Py.isdigit c = true.
Proof.
  intros Hn [-> |[Hlt ->]].
  - destruct (digit_char_spec (n / 10)) as (Hd & _ & Hs); [by apply div_10_lt|].
    by eexists _, _.
  - destruct (digit_char_spec n) as (Hd & _ & Hs); [done|]. by eexists _, _.
Qed.

Lemma written_word n text : n < 100 -> written n text -> word text.
Proof.
  intros Hn [-> |[Hlt ->]]; [by apply word_two_digits|].
  split; [done|]. cbn [Py.all_chars].
  by destruct (digit_char_spec n) as (_ & _ & ->).
Qed.

Lemma rstrip_app_fixed a b :
  b <> "" -> Py.rstrip b = b -> Py.rstrip (a +:+ b) = a +:+ b.
Proof. intros Hne Hb. rewrite rstrip_app; by rewrite Hb. Qed.

Lemma rstrip_cons_fixed c b :
  b <> "" -> Py.rstrip b = b -> Py.rstrip (String c b) = String c b.
Proof. intros Hne Hb. apply (rstrip_app_fixed (String c "") b Hne Hb). Qed.

Lemma re_bind_first {A B} (p : Re.parser A) (f : A -> Re.parser B) s a r tl x :
  p s = (a, r) :: tl -> head (f a r) = Some x -> head (Re.bind p f s) = Some x.
Proof.
  unfold Re.bind. intros -> H. cbn. destruct (f a r); [done|]. exact H.
Qed.

Lemma star_ws_not_space c r : Py.isspace c = false -> Re.star_ws (String c r) = [String c r].
Proof. intros H. unfold Re.star_ws. simpl. by rewrite H. Qed.

Lemma separator_char c r :
  date_separator c ->
  Re.char_if (fun c => bool_decide (c = "-"%char) || bool_decide (c = "/"%char)) (String c r)
  = [r].
Proof. by intros [-> | ->]. Qed.

(** The numeric pattern on a month, a day and a year as written. *)
Lemma mdy_numeric_re_written y m d M D sep1 sep2 :
  m < 100 -> d < 100 -> y < 10000 ->
  written m M -> written d D -> date_separator sep1 -> date_separator sep2 ->
  Re.match_ mdy_numeric_re (M +:+ String sep1 (D +:+ String sep2 (four_digits y)))
  = Some ((m, d, y), "").
Proof.
  intros Hm Hd Hy HM HD Hs1 Hs2.
  destruct (digits_1_2_written m M sep1 (D +:+ String sep2 (four_digits y)) Hm HM
              (separator_not_digit _ Hs1)) as [tl1 H1].
  destruct (digits_1_2_written d D sep2 (four_digits y) Hd HD
              (separator_not_digit _ Hs2)) as [tl2 H2].
  destruct (written_head m M Hm HM) as (c & Mtl & HMeq & Hc & _).
  unfold Re.match_, mdy_numeric_re.
  rewrite (re_skip_one _ _ _ (M +:+ String sep1 (D +:+ String sep2 (four_digits y)))).
  2:{ rewrite HMeq, app_String. by apply star_ws_not_space. }
  eapply re_bind_first; [exact H1|]. cbv beta.
  rewrite (re_skip_one _ _ _ _ (separator_char _ _ Hs1)).
  eapply re_bind_first; [exact H2|]. cbv beta.
  rewrite (re_skip_one _ _ _ _ (separator_char _ _ Hs2)).
  rewrite <- (app_empty_r (four_digits y)).
  erewrite re_bind_one; [|by apply digits_4_four_digits].
  reflexivity.
Qed.

Lemma pattern_directive d rest f :
  Strptime.pattern (String "%" (String d rest)) f
  = Re.bind (Strptime.directive d f) (Strptime.pattern rest).
Proof. reflexivity. Qed.

(** The ISO format is refused when no four digits come first. *)
Lemma strptime_iso_refused s :
  Re.digits_4 s = [] -> Strptime.strptime s "%Y-%m-%d" = None.
Proof.
  intros H. unfold Strptime.strptime. rewrite pattern_directive.
  unfold Re.match_. rewrite re_bind_nil; [done|].
  unfold Strptime.directive, Strptime.initial, Strptime.dir_Y.
  by apply re_bind_nil.
Qed.

End NumericDates.

Lemma date_new_valid y m d : valid_date y m d -> date_new y m d = inr (Date y m d).
Proof.
  intros ((Hy1 & Hy2) & (Hm1 & Hm2) & (Hd1 & Hd2)). unfold date_new.
  apply Nat.leb_le in Hy1, Hy2, Hm1, Hm2, Hd1, Hd2.
  by rewrite Hy1, Hy2, Hm1, Hm2, Hd1, Hd2.
Qed.

(** X3. A date written month first in digits, the month and the day with
    one or two digits, the year with four, with [-] or [/] between them, is
    read as [date(yyyy, mm, dd)] reads it: its date when it is one of the
    calendar, and else a [ValueError] that carries the reason the
    constructor gave. *)
Theorem parse_date_numeric_month_first y m d M D sep1 sep2 :
  m < 100 -> d < 100 -> y < 10000 ->
  written m M -> written d D -> date_separator sep1 -> date_separator sep2 ->
  let s := M +:+ String sep1 (D +:+ String sep2 (four_digits y)) in
  parse_date (Py.Str s)
  = match date_new y m d with
    | inr x => Ok x
    | inl why =>
        Raise (Py.ValueError ("filed_date parse failed (mdy numeric): "
                              +:+ Py.repr s +:+ ": " +:+ why))
    end.
Proof.
  intros Hm Hd Hy HM HD Hs1 Hs2 s.
  assert (Hstrip : Py.strip s = s).
  { subst s. unfold Py.strip.
    destruct (written_head m M Hm HM) as (c & Mtl & HMeq & Hc & _).
    assert (Py.lstrip (M +:+ String sep1 (D +:+ String sep2 (four_digits y)))
            = M +:+ String sep1 (D +:+ String sep2 (four_digits y))) as ->.
    { rewrite HMeq, app_String. simpl. by rewrite Hc. }
    destruct (word_four_digits y Hy) as [Hne Hw].
    apply rstrip_app_fixed; [done|]. apply rstrip_cons_fixed.
    { destruct D; [done|]. by rewrite app_String. }
    apply rstrip_app_fixed; [done|]. apply rstrip_cons_fixed; [done|].
    by apply rstrip_word. }
  unfold parse_date. rewrite Hstrip.
  rewrite bool_decide_eq_false_2.
  2:{ subst s. destruct (written_head m M Hm HM) as (c & Mtl & -> & _).
      by rewrite app_String. }
  rewrite strptime_iso_refused.
  2:{ subst s. eapply digits_4_written; [exact Hm|exact HM|].
      by apply separator_not_digit. }
  subst s. rewrite (mdy_numeric_re_written y m d) by done.
  reflexivity.
Qed.

(** X3, witness: "10-3-2024", and "2/30/2024", which names no date. *)
Lemma parse_date_numeric_month_first_witness :
  parse_date (Py.Str "10-3-2024") = Ok (Date 2024 10 3)
  /\ parse_date (Py.Str "2/30/2024")
     = Raise (Py.ValueError
                "filed_date parse failed (mdy numeric): '2/30/2024': day is out of range for month").
Proof.
  split.
  - apply (parse_date_numeric_month_first 2024 10 3 "10" "3" "-" "-").
    + lia.
    + lia.
    + by apply Nat.ltb_lt.
    + by left.
    + right. split; [lia|reflexivity].
    + by left.
    + by left.
  - apply (parse_date_numeric_month_first 2024 2 30 "2" "30" "/" "/").
    + lia.
    + lia.
    + by apply Nat.ltb_lt.
    + right. split; [lia|reflexivity].
    + by left.
    + by right.
    + by right.
Defined.

Section IsoDates.

Local Arguments Nat.div : simpl never.
Local Arguments Nat.modulo : simpl never.
Local Arguments Nat.mul : simpl never.
Local Arguments digit_char : simpl never.

Lemma year_bound y : y <= 9999 -> y < 10000.
Proof. intros H. change (S y <= S 9999). by apply le_n_S. Qed.

Lemma days_in_month_le y m : days_in_month y m <= 31.
Proof.
  unfold days_in_month.
  repeat (destruct m as [|m]; [try lia; try (destruct (is_leap y); lia)|]). lia.
Qed.

Lemma re_skip_first {A} (m : Re.matcher) (p : Re.parser A) s r tl x :
  m s = r :: tl -> head (p r) = Some x -> head (Re.skip m p s) = Some x.
Proof.
  unfold Re.skip. intros -> H. cbn. destruct (p r); [done|]. exact H.
Qed.

(** [%m] on a month as written, before a hyphen. *)
Lemma dir_m_written m M r :
  1 <= m <= 12 -> written m M ->
  exists tl, Strptime.dir_m (M +:+ String "-" r) = (m, String "-" r) :: tl.
Proof.
  intros [H1 H2] Hw.
  do 13 (destruct m as [|m];
         [try lia; destruct Hw as [-> |[? ->]]; try lia; vm_compute; by eexists|]).
  lia.
Qed.

(** [%d] on a day as written, at the end of the text and before a comma. *)
Lemma dir_d_written d D :
  1 <= d <= 31 -> written d D ->
  (exists tl, Strptime.dir_d D = (d, "") :: tl)
  /\ (forall r, exists tl, Strptime.dir_d (D +:+ String "," r) = (d, String "," r) :: tl).
Proof.
  intros [H1 H2] Hw.
  do 32 (destruct d as [|d];
         [try lia; destruct Hw as [-> |[? ->]]; try lia;
          (split; [|intros r]; vm_compute; by eexists)|]).
  lia.
Qed.

Lemma pattern_literal c rest f :
  c <> "%"%char -> Py.isspace c = false ->
  Strptime.pattern (String c rest) f
  = Re.skip (Re.char_if (fun x => bool_decide (Py.lower_char x = Py.lower_char c)))
      (Strptime.pattern rest f).
Proof.
  intros H1 H2. simpl. rewrite bool_decide_eq_false_2 by done. by rewrite H2.
Qed.

Lemma literal_char c r :
  Re.char_if (fun x => bool_decide (Py.lower_char x = Py.lower_char c)) (String c r) = [r].
Proof. unfold Re.char_if. by rewrite bool_decide_eq_true_2. Qed.

Lemma directive_Y y0 m0 d0 y r :
  y < 10000 ->
  Strptime.directive "Y" (y0, m0, d0) (four_digits y +:+ r) = [((y, m0, d0), r)].
Proof.
  intros Hy. unfold Strptime.directive, Strptime.dir_Y.
  erewrite re_bind_one; [|by apply digits_4_four_digits]. done.
Qed.

Lemma directive_first (p : Re.parser nat) (g : nat -> Strptime.fields)
    (k : Strptime.fields -> Re.parser Strptime.fields) s v r tl x :
  p s = (v, r) :: tl -> head (k (g v) r) = Some x ->
  head (Re.bind (Re.bind p (fun v => Re.pure (g v))) k s) = Some x.
Proof.
  intros Hp Hk. unfold Re.bind at 1 2. rewrite Hp. cbn.
  destruct (k (g v) r); [done|]. exact Hk.
Qed.

(** The ISO format on a year, a month and a day as written. *)
Lemma strptime_iso y m d M D :
  valid_date y m d -> written m M -> written d D ->
  Strptime.strptime (four_digits y +:+ String "-" (M +:+ String "-" D)) "%Y-%m-%d"
  = Some (Date y m d).
Proof.
  intros Hv HM HD. pose proof (date_new_valid _ _ _ Hv) as Hnew.
  destruct Hv as ((Hy1 & Hy2) & Hm & (Hd1 & Hd2)).
  pose proof (days_in_month_le y m) as Hle.
  assert (Hy : y < 10000) by (by apply year_bound).
  destruct (dir_m_written m M D Hm HM) as [tlm Em].
  destruct (dir_d_written d D) as [[tld Ed] _]; [lia|done|].
  unfold Strptime.strptime.
  assert (Re.match_ (Strptime.pattern "%Y-%m-%d" Strptime.initial)
            (four_digits y +:+ String "-" (M +:+ String "-" D))
          = Some ((y, m, d), "")) as ->.
  { unfold Re.match_. rewrite pattern_directive.
    erewrite re_bind_one; [|by apply directive_Y].
    rewrite pattern_literal by done.
    rewrite (re_skip_one _ _ _ _ (literal_char _ _)).
    rewrite pattern_directive. unfold Strptime.directive.
    eapply directive_first; [exact Em|].
    rewrite pattern_literal by done.
    rewrite (re_skip_one _ _ _ _ (literal_char _ _)).
    rewrite pattern_directive. unfold Strptime.directive.
    eapply directive_first; [exact Ed|]. reflexivity. }
  rewrite bool_decide_eq_true_2 by done. by rewrite Hnew.
Qed.

End IsoDates.

(** X4. Every date of the calendar written year first, as four digits, a
    hyphen, the month, a hyphen and the day, is read as that date, with the
    month and the day padded to two digits or not: the ISO step takes
    "2024-1-5" as well as "2024-01-05". *)
Theorem parse_date_year_first y m d M D :
  valid_date y m d -> written m M -> written d D ->
  parse_date (Py.Str (four_digits y +:+ String "-" (M +:+ String "-" D)))
  = Ok (Date y m d).
Proof.
  intros Hv HM HD.
  assert (Hy : y < 10000) by (destruct Hv as ((_ & Hy) & _); by apply year_bound).
  assert (Hm : m < 100) by (destruct Hv as (_ & Hm & _); lia).
  assert (Hd : d < 100).
  { destruct Hv as (_ & _ & Hd). pose proof (days_in_month_le y m). lia. }
  destruct (word_four_digits y Hy) as [HYne HYw].
  assert (exists c tl, four_digits y = String c tl /\ Py.isspace c = false)
    as (c & Ytl & HY & Hc).
  { destruct (four_digits y) as [|c tl]; [done|]. exists c, tl. split; [done|].
    simpl in HYw. apply andb_true_iff in HYw as [H _]. by apply negb_true_iff. }
  unfold parse_date.
  assert (Py.strip (four_digits y +:+ String "-" (M +:+ String "-" D))
          = four_digits y +:+ String "-" (M +:+ String "-" D)) as ->.
  { unfold Py.strip.
    assert (Py.lstrip (four_digits y +:+ String "-" (M +:+ String "-" D))
            = four_digits y +:+ String "-" (M +:+ String "-" D)) as ->.
    { rewrite HY, app_String. simpl. by rewrite Hc. }
    destruct (written_word d D Hd HD) as [HDne HDw].
    apply rstrip_app_fixed; [done|]. apply rstrip_cons_fixed.
    { destruct M; [done|]. by rewrite app_String. }
    apply rstrip_app_fixed; [done|]. apply rstrip_cons_fixed; [done|].
    by apply rstrip_word. }
  rewrite bool_decide_eq_false_2 by (by rewrite HY, app_String).
  by rewrite (strptime_iso y m d).
Qed.

(** X4, witness: the record date of the module's examples, padded and not. *)
Lemma parse_date_year_first_witness :
  parse_date (Py.Str "2024-10-03") = Ok (Date 2024 10 3)
  /\ parse_date (Py.Str "2024-1-5") = Ok (Date 2024 1 5).
Proof.
  split.
  - apply (parse_date_year_first 2024 10 3 "10" "03").
    + unfold valid_date. vm_compute. repeat split; by apply Nat.leb_le.
    + by left.
    + by left.
  - apply (parse_date_year_first 2024 1 5 "1" "5").
    + unfold valid_date. vm_compute. repeat split; by apply Nat.leb_le.
    + right. split; [lia|reflexivity].
    + right. split; [lia|reflexivity].
Defined.

Section MonthNames.

Local Arguments Nat.div : simpl never.
Local Arguments Nat.modulo : simpl never.
Local Arguments Nat.mul : simpl never.
Local Arguments digit_char : simpl never.

Lemma isdigit_lower_char c : Py.isdigit (Py.lower_char c) = Py.isdigit c.
Proof. destruct c as [[] [] [] [] [] [] [] []]; reflexivity. Qed.

(** Splits a name whose lower-case form is known into its characters. *)
Ltac letters name H :=
  repeat (destruct name as [|? name]; [discriminate H|]);
  destruct name; [|discriminate H];
  unfold Py.lower in H; simpl in H; simplify_eq H; intros.

Ltac match_letters :=
  repeat (rewrite lit_ci_cons;
          first [ rewrite bool_decide_eq_true_2 by assumption
                | rewrite bool_decide_eq_false_2 by congruence ]).

Ltac each_month H :=
  repeat (apply elem_of_cons in H as [H|H]; [injection H as H ->|]);
  [..|by apply elem_of_nil in H].

Lemma dir_b_abbreviation m name r :
  (Py.lower name, m) ∈ Strptime.month_abbreviations ->
  Strptime.dir_b (name +:+ r) = [(m, r)].
Proof.
  intros H. unfold Strptime.month_abbreviations in H.
  each_month H; letters name H; rewrite !app_String, app_empty;
    unfold Strptime.dir_b, Strptime.month_abbreviations, Re.one_of, Re.palt, Re.skip;
    match_letters; reflexivity.
Qed.

(** On a full name other than May the abbreviation is matched and
    letters are left. *)
Lemma dir_b_full_name m name r :
  (Py.lower name, m) ∈ Strptime.month_names -> Py.lower name <> "may" ->
  exists c tl, Py.isspace c = false /\ Strptime.dir_b (name +:+ r) = [(m, String c tl)].
Proof.
  intros H Hmay. unfold Strptime.month_names in H.
  each_month H; try done; letters name H; rewrite !app_String, app_empty;
    unfold Strptime.dir_b, Strptime.month_abbreviations, Re.one_of, Re.palt, Re.skip;
    match_letters;
    (eexists _, _; split; [|reflexivity]);
    (eapply lower_char_not_space; [eassumption|reflexivity]).
Qed.

Lemma dir_B_full_name m name r :
  (Py.lower name, m) ∈ Strptime.month_names ->
  Strptime.dir_B (name +:+ r) = [(m, r)].
Proof.
  intros H. unfold Strptime.month_names in H.
  each_month H; letters name H; rewrite !app_String, app_empty;
    unfold Strptime.dir_B, Strptime.month_names, Re.one_of, Re.palt, Re.skip;
    match_letters; reflexivity.
Qed.

Lemma month_first_letter m name :
  month_written m name ->
  exists c tl, name = String c tl /\ Py.isspace c = false /\ Py.isdigit c = false.
Proof.
  assert (Hletter : forall c p, Py.lower_char c = p -> Py.isspace p = false ->
            Py.isdigit p = false -> Py.isspace c = false /\ Py.isdigit c = false).
  { intros c p <- Hs Hd. rewrite isspace_lower in Hs. by rewrite isdigit_lower_char in Hd. }
  intros [H|H]; [unfold Strptime.month_abbreviations in H
                |unfold Strptime.month_names in H];
    each_month H; letters name H;
    (eexists _, _; split; [reflexivity|]; eapply Hletter; [eassumption|done..]).
Qed.

Lemma pattern_space c rest f :
  Py.isspace c = false ->
  Strptime.pattern (String " " (String c rest)) f
  = Re.skip Re.plus_ws (Strptime.pattern (String c rest) f).
Proof. intros H. simpl. by rewrite H. Qed.

Lemma plus_ws_space c r :
  Py.isspace c = false ->
  exists tl, Re.plus_ws (String " " (String c r)) = String c r :: tl.
Proof.
  intros Hc. destruct (plus_ws_head " " (String c r)) as [tl E]; [done..|].
  exists tl. rewrite app_String, app_empty in E. rewrite E. simpl. by rewrite Hc.
Qed.

(** The rest of the two formats with a month name, after the name. *)
Lemma day_and_year y m d D y0 d0 :
  valid_date y m d -> written d D ->
  head (Strptime.pattern " %d, %Y" (y0, m, d0)
          (String " " (D +:+ String "," (String " " (four_digits y)))))
  = Some ((y, m, d), "").
Proof.
  intros ((Hy1 & Hy2) & Hm & (Hd1 & Hd2)) HD.
  pose proof (days_in_month_le y m) as Hle.
  assert (Hy : y < 10000) by (by apply year_bound).
  assert (Hd : d < 100) by lia.
  destruct (dir_d_written d D) as [_ Ed]; [lia|done|].
  destruct (Ed (String " " (four_digits y))) as [tld Ed'].
  destruct (written_head d D Hd HD) as (c & Dtl & HDeq & Hc & _).
  destruct (word_four_digits y Hy) as [HYne HYw].
  destruct (four_digits y) as [|cy Ytl] eqn:HY; [done|].
  assert (Hcy : Py.isspace cy = false).
  { simpl in HYw. apply andb_true_iff in HYw as [H _]. by apply negb_true_iff. }
  rewrite pattern_space by done.
  destruct (plus_ws_space c (Dtl +:+ String "," (String " " (String cy Ytl))) Hc)
    as [tl1 E1].
  rewrite HDeq, app_String in *.
  eapply re_skip_first; [exact E1|].
  rewrite pattern_directive. unfold Strptime.directive.
  eapply directive_first; [exact Ed'|].
  rewrite pattern_literal by done.
  rewrite (re_skip_one _ _ _ _ (literal_char _ _)).
  rewrite pattern_space by done.
  destruct (plus_ws_space cy Ytl Hcy) as [tl2 E2].
  eapply re_skip_first; [exact E2|].
  rewrite pattern_directive, <- HY, <- (app_empty_r (four_digits y)).
  erewrite re_bind_one; [|by apply directive_Y]. reflexivity.
Qed.

Lemma strptime_finish y m d s format :
  valid_date y m d ->
  Re.match_ (Strptime.pattern format Strptime.initial) s = Some ((y, m, d), "") ->
  Strptime.strptime s format = Some (Date y m d).
Proof.
  intros Hv H. unfold Strptime.strptime. rewrite H.
  rewrite bool_decide_eq_true_2 by done. by rewrite date_new_valid.
Qed.

(** The two formats with a month name, tried in turn. *)
Lemma first_format_month_name y m d name D :
  valid_date y m d -> month_written m name -> written d D ->
  first_format (name +:+ String " " (D +:+ String "," (String " " (four_digits y))))
    ["%b %d, %Y"; "%B %d, %Y"]
  = Some (Date y m d).
Proof.
  intros Hv Hname HD.
  pose proof (day_and_year y m d D 1900 1 Hv HD) as Htail.
  assert (Hb : (Py.lower name, m) ∈ Strptime.month_abbreviations ->
               Strptime.strptime
                 (name +:+ String " " (D +:+ String "," (String " " (four_digits y))))
                 "%b %d, %Y" = Some (Date y m d)).
  { intros H. apply strptime_finish; [done|]. unfold Re.match_.
    rewrite pattern_directive. unfold Strptime.directive, Strptime.initial.
    eapply directive_first; [by apply dir_b_abbreviation|]. exact Htail. }
  destruct Hname as [H|H]; [simpl; by rewrite Hb|].
  destruct (decide (Py.lower name = "may")) as [Hmay|Hmay].
  { simpl. rewrite Hb; [done|].
    unfold Strptime.month_names in H. each_month H; try congruence.
    rewrite Hmay. unfold Strptime.month_abbreviations. set_solver. }
  destruct (dir_b_full_name m name
              (String " " (D +:+ String "," (String " " (four_digits y)))) H Hmay)
    as (c & tl & Hc & Eb).
  assert (Strptime.strptime
            (name +:+ String " " (D +:+ String "," (String " " (four_digits y))))
            "%b %d, %Y" = None) as Hnone.
  { unfold Strptime.strptime, Re.match_.
    rewrite pattern_directive. unfold Strptime.directive, Strptime.initial.
    unfold Re.bind at 1 2. rewrite Eb. cbn [mbind list_bind app].
    unfold Re.pure. cbn [mbind list_bind app].
    rewrite pattern_space by done. rewrite re_skip_nil; [done|].
    by apply plus_ws_not_space. }
  simpl. rewrite Hnone. 
  assert (Strptime.strptime
            (name +:+ String " " (D +:+ String "," (String " " (four_digits y))))
            "%B %d, %Y" = Some (Date y m d)) as ->; [|done].
  apply strptime_finish; [done|]. unfold Re.match_.
  rewrite pattern_directive. unfold Strptime.directive, Strptime.initial.
  eapply directive_first; [by apply dir_B_full_name|]. exact Htail.
Qed.

End MonthNames.

(** X5. Every date of the calendar written with its month by name, as in
    "Oct 3, 2024" and "October 3, 2024", is read as that date: the name is
    the abbreviation or the full name in any mix of upper and lower case,
    the day has one or two digits. *)
Theorem parse_date_month_by_name y m d name D :
  valid_date y m d -> month_written m name -> written d D ->
  parse_date (Py.Str (name +:+ String " " (D +:+ String "," (String " " (four_digits y)))))
  = Ok (Date y m d).
Proof.
  intros Hv Hname HD.
  assert (Hy : y < 10000) by (destruct Hv as ((_ & Hy) & _); by apply year_bound).
  destruct (month_first_letter m name Hname) as (c & ntl & Hn & Hc & Hdig).
  pose proof (first_format_month_name y m d name D Hv Hname HD) as Hfirst.
  set (s := name +:+ String " " (D +:+ String "," (String " " (four_digits y)))) in *.
  assert (Hs : s = String c (ntl +:+ String " " (D +:+ String "," (String " " (four_digits y)))))
    by (subst s; by rewrite Hn, app_String).
  unfold parse_date.
  assert (Py.strip s = s) as ->.
  { unfold Py.strip.
    assert (Py.lstrip s = s) as -> by (rewrite Hs; simpl; by rewrite Hc).
    destruct (word_four_digits y Hy) as [HYne HYw]. subst s.
    apply rstrip_app_fixed; [done|]. apply rstrip_cons_fixed.
    { destruct D; [done|]. by rewrite app_String. }
    apply rstrip_app_fixed; [done|]. do 2 (apply rstrip_cons_fixed; [done|]).
    by apply rstrip_word. }
  rewrite bool_decide_eq_false_2 by (by rewrite Hs).
  assert (Hnodigit : Re.digit s = []) by (by rewrite Hs, digit_cons, Hdig).
  rewrite strptime_iso_refused.
  2:{ unfold Re.digits_4. by apply re_bind_nil. }
  assert (Re.match_ mdy_numeric_re s = None) as ->.
  { unfold Re.match_, mdy_numeric_re.
    rewrite (re_skip_one _ _ _ s) by (rewrite Hs; by apply star_ws_not_space).
    rewrite re_bind_nil; [done|]. unfold Re.digits_1_2. by apply re_bind_nil. }
  by rewrite Hfirst.
Qed.

(** X5, witness: "Oct 3, 2024", "OCTOBER 31, 2024" and "May 5, 2023". *)
Lemma parse_date_month_by_name_witness :
  parse_date (Py.Str "Oct 3, 2024") = Ok (Date 2024 10 3)
  /\ parse_date (Py.Str "OCTOBER 31, 2024") = Ok (Date 2024 10 31)
  /\ parse_date (Py.Str "May 5, 2023") = Ok (Date 2023 5 5).
Proof.
  split; [|split].
  - apply (parse_date_month_by_name 2024 10 3 "Oct" "3").
    + unfold valid_date. vm_compute. repeat split; by apply Nat.leb_le.
    + left. vm_compute. set_solver.
    + right. split; [lia|reflexivity].
  - apply (parse_date_month_by_name 2024 10 31 "OCTOBER" "31").
    + unfold valid_date. vm_compute. repeat split; by apply Nat.leb_le.
    + right. vm_compute. set_solver.
    + by left.
  - apply (parse_date_month_by_name 2023 5 5 "May" "5").
    + unfold valid_date. vm_compute. repeat split; by apply Nat.leb_le.
    + right. vm_compute. set_solver.
    + right. split; [lia|reflexivity].
Defined.

Section Soundness.

Lemma date_new_inr y m d x :
  date_new y m d = inr x -> x = Date y m d /\ valid_date y m d.
Proof.
  unfold date_new, valid_date.
  destruct (1 <=? y)%nat eqn:H1; [|done]. destruct (y <=? 9999)%nat eqn:H2; [|done].
  destruct (1 <=? m)%nat eqn:H3; [|done]. destruct (m <=? 12)%nat eqn:H4; [|done].
  destruct (1 <=? d)%nat eqn:H5; [|done].
  destruct (d <=? days_in_month y m)%nat eqn:H6; [|done].
  simpl. intros [= <-].
  apply Nat.leb_le in H1, H2, H3, H4, H5, H6. done.
Qed.

Lemma strptime_valid s format x :
  Strptime.strptime s format = Some x -> valid_date (year x) (month x) (day x).
Proof.
  unfold Strptime.strptime.
  destruct (Re.match_ _ s) as [[[[y m] d] rest]|]; [|done].
  case_bool_decide; [|done].
  destruct (date_new y m d) as [|x'] eqn:E; [done|]. intros [= <-].
  by apply date_new_inr in E as [-> ?].
Qed.

Lemma first_format_valid s formats x :
  first_format s formats = Some x -> valid_date (year x) (month x) (day x).
Proof.
  induction formats as [|f formats IH]; [done|]. simpl.
  destruct (Strptime.strptime s f) eqn:E; [|done].
  intros [= <-]. by eapply strptime_valid.
Qed.

End Soundness.

(** X6. Whatever the text, a date the resolver returns is a date of the
    calendar: the year between 1 and 9999, the month between 1 and 12, the
    day between 1 and the length of that month in that year. *)
Theorem parse_date_returns_calendar_dates v x :
  parse_date v = Ok x -> valid_date (year x) (month x) (day x).
Proof.
  unfold parse_date. destruct v as [|raw]; [done|].
  case_bool_decide; [done|].
  destruct (Strptime.strptime _ "%Y-%m-%d") eqn:E1.
  { intros [= <-]. by eapply strptime_valid. }
  destruct (Re.match_ mdy_numeric_re _) as [[[[mm dd] yyyy] rest]|].
  { destruct (date_new yyyy mm dd) eqn:E2; [done|]. intros [= <-].
    by apply date_new_inr in E2 as [-> ?]. }
  destruct (first_format _ ["%b %d, %Y"; "%B %d, %Y"]) eqn:E3.
  { intros [= <-]. by eapply first_format_valid. }
  destruct (first_format _ ["%m/%d/%Y"; "%m-%d-%Y"]) eqn:E4; [|done].
  intros [= <-]. by eapply first_format_valid.
Qed.

(** X6, witness: the last day of February in a leap year. *)
Lemma parse_date_returns_calendar_dates_witness : valid_date 2024 2 29.
Proof.
  apply (parse_date_returns_calendar_dates (Py.Str "2-29-2024") (Date 2024 2 29)).
  vm_compute. reflexivity.
Defined.

Section ErrorCodes.

Lemma prefix_app a b : String.prefix a (a +:+ b) = true.
Proof.
  induction a as [|c a IH]; [by destruct b|]. rewrite app_String. simpl.
  by destruct (ascii_dec c c).
Qed.

Lemma contains_unfold sub s :
  Py.contains sub s
  = String.prefix sub s
    || match s with
       | "" => false
       | String _ s' => Py.contains sub s'
       end.
Proof. by destruct s. Qed.

Lemma contains_app_prefix a b : Py.contains a (a +:+ b) = true.
Proof. by rewrite contains_unfold, prefix_app. Qed.

Lemma prefix_before q sub x b :
  Py.all_chars (fun c => negb (bool_decide (c = q))) sub = true ->
  String.prefix sub (x +:+ String q b) = String.prefix sub x.
Proof.
  revert x. induction sub as [|c sub IH]; intros x Hsub; [by destruct x|].
  simpl in Hsub. apply andb_true_iff in Hsub as [Hc Hsub].
  apply negb_true_iff, bool_decide_eq_false in Hc.
  destruct x as [|d x]; rewrite ?app_empty, ?app_String; simpl.
  - by destruct (ascii_dec c q).
  - destruct (ascii_dec c d); [|done]. by apply IH.
Qed.

(** A text without the character [q] is found in [a q b] exactly when it
    is found in [a] or in [b]. *)
Lemma contains_around q sub a b :
  Py.all_chars (fun c => negb (bool_decide (c = q))) sub = true ->
  Py.contains sub (a +:+ String q b) = Py.contains sub a || Py.contains sub b.
Proof.
  intros Hsub. induction a as [|d a IH].
  - rewrite app_empty, (contains_unfold sub (String q b)), (contains_unfold sub "").
    pose proof (prefix_before q sub "" b Hsub) as H. rewrite app_empty in H.
    by rewrite H, orb_false_r.
  - rewrite app_String, (contains_unfold sub (String d (a +:+ String q b))), IH.
    pose proof (prefix_before q sub (String d a) b Hsub) as H.
    rewrite app_String in H. rewrite H, (contains_unfold sub (String d a)).
    by rewrite orb_assoc.
Qed.

Lemma contains_tail c sub s : Py.contains (String c sub) s = true -> Py.contains sub s = true.
Proof.
  induction s as [|x s IH]; [done|].
  rewrite (contains_unfold (String c sub)), (contains_unfold sub (String x s)).
  intros [H|H]%orb_true_iff; apply orb_true_iff; right.
  - simpl in H. destruct (ascii_dec c x); [|done].
    rewrite contains_unfold. by rewrite H.
  - by apply IH.
Qed.

Lemma contains_filed_date s :
  Py.contains "filed_date" s || Py.contains "date" s = Py.contains "date" s.
Proof.
  destruct (Py.contains "filed_date" s) eqn:E; [|done]. simpl. symmetry.
  by do 6 apply contains_tail in E.
Qed.

Lemma parse_date_message v e :
  parse_date v = Raise e -> exists rest, e = Py.ValueError ("filed_date" +:+ rest).
Proof.
  unfold parse_date. destruct v as [|raw]; [intros [= <-]; by exists " missing"|].
  case_bool_decide; [intros [= <-]; by exists " missing"|].
  destruct (Strptime.strptime _ _); [done|].
  destruct (Re.match_ mdy_numeric_re _) as [[[[mm dd] yyyy] rest]|].
  - destruct (date_new yyyy mm dd); [|done]. intros [= <-]. by eexists.
  - destruct (first_format _ _); [done|].
    destruct (first_format _ _); [done|]. intros [= <-]. by eexists.
Qed.

Lemma determine_status_code st0 d :
  _determine_error_code (Py.ValueError (invalid_status_message (Py.lower st0))) d
  = if Py.contains "case_number" (Py.lower st0) then "MISSING_CASE_NUMBER"
    else if Py.contains "date" (Py.lower st0) then "BAD_DATE"
    else "STATUS_UNMAPPED".
Proof.
  unfold _determine_error_code, invalid_status_message, Py.str_of_exn.
  change ("Invalid status '" +:+ Py.lower st0
          +:+ "'. Must be one of: active, closed, pending, dismissed")
    with ("Invalid status " +:+ String "'" (Py.lower st0
          +:+ String "'" ". Must be one of: active, closed, pending, dismissed")).
  rewrite lower_app.
  change (Py.lower (String "'" (Py.lower st0
            +:+ String "'" ". Must be one of: active, closed, pending, dismissed")))
    with (String "'" (Py.lower (Py.lower st0
            +:+ String "'" ". Must be one of: active, closed, pending, dismissed"))).
  rewrite lower_app, lower_idem.
  change (Py.lower "Invalid status ") with "invalid status ".
  change (Py.lower (String "'" ". Must be one of: active, closed, pending, dismissed"))
    with (String "'" ". must be one of: active, closed, pending, dismissed").
  rewrite !(contains_around "'") by reflexivity.
  change (Py.contains "case_number" "invalid status ") with false.
  change (Py.contains "case_number" ". must be one of: active, closed, pending, dismissed")
    with false.
  change (Py.contains "filed_date" "invalid status ") with false.
  change (Py.contains "filed_date" ". must be one of: active, closed, pending, dismissed")
    with false.
  change (Py.contains "date" "invalid status ") with false.
  change (Py.contains "date" ". must be one of: active, closed, pending, dismissed")
    with false.
  change (Py.contains "status" "invalid status ") with true.
  rewrite !orb_false_l, !orb_false_r, contains_filed_date. simpl.
  by repeat destruct (Py.contains _ _).
Qed.

End ErrorCodes.

(** X7. The error code of a rejected record, by the check that failed: a
    missing case number is filed as MISSING_CASE_NUMBER and an empty court
    as FK_COURT; an empty case type is filed as VALIDATION_ERROR, its
    message holding "Case type" and not "case_type"; a date that cannot be
    read is filed as BAD_DATE, and an invalid status as STATUS_UNMAPPED,
    unless the text quoted in the message holds "case_number", or, for a
    status, "date", which are looked for first; an [AttributeError] is filed
    as UNKNOWN. FK_CASE_TYPE and FK_JUDGE are never assigned. *)
Theorem error_code_by_failed_check d s e :
  rejection d = Some (s, e) ->
  error_code_of e d = code_of_check s e d
  /\ error_code_of e d <> "FK_CASE_TYPE"
  /\ error_code_of e d <> "FK_JUDGE".
Proof.
  intros Hrej.
  assert (Hcode : error_code_of e d = code_of_check s e d).
  { revert Hrej. unfold rejection, error_code_of, code_of_check.
    destruct (get_strip d "case_number" "") as [cn|e0] eqn:Hcn.
    2:{ unfold get_strip in Hcn. destruct (dict_get _ _ _); [|done].
        injection Hcn as <-. by intros [= <- <-]. }
    case_bool_decide; [by intros [= <- <-]|].
    destruct (parse_date _) as [filed|e1] eqn:Hdate.
    2:{ apply parse_date_message in Hdate as [rest ->]. intros [= <- <-]. simpl.
        unfold _determine_error_code, Py.str_of_exn.
        rewrite lower_app. change (Py.lower "filed_date") with "filed_date".
        rewrite (contains_app_prefix "filed_date"). simpl.
        by destruct (Py.contains "case_number" _). }
    destruct (Py.falsy _); [by intros [= <- <-]|].
    destruct (Py.falsy _); [by intros [= <- <-]|].
    unfold status_of, get_lower.
    destruct (dict_get d "status" (Py.Str "active")) as [|st0]; [by intros [= <- <-]|].
    case_bool_decide; [done|]. intros [= <- <-]. simpl.
    apply determine_status_code. }
  split; [done|]. rewrite Hcode. unfold code_of_check.
  destruct e; [|done].
  destruct s; repeat destruct (Py.contains _ _); done.
Qed.

(** X7, witness: a status outside the closed set, once plain and once with
    "date" in it, and a record without a case type. *)
Lemma error_code_by_failed_check_witness :
  error_code_of (Py.ValueError (invalid_status_message "bogus")) bad_status_docket
  = "STATUS_UNMAPPED"
  /\ error_code_of (Py.ValueError (invalid_status_message "updated"))
       (<["status" := Py.Str "Updated"]> sample_docket)
     = "BAD_DATE"
  /\ error_code_of (Py.ValueError "Case type cannot be empty")
       (<["case_type" := Py.Str ""]> sample_docket)
     = "VALIDATION_ERROR".
Proof.
  split; [|split].
  - destruct (error_code_by_failed_check bad_status_docket AtStatus
                (Py.ValueError (invalid_status_message "bogus"))) as [-> _];
      vm_compute; reflexivity.
  - destruct (error_code_by_failed_check (<["status" := Py.Str "Updated"]> sample_docket)
                AtStatus (Py.ValueError (invalid_status_message "updated"))) as [-> _];
      vm_compute; reflexivity.
  - destruct (error_code_by_failed_check (<["case_type" := Py.Str ""]> sample_docket)
                AtCaseType (Py.ValueError "Case type cannot be empty")) as [-> _];
      vm_compute; reflexivity.
Defined.

Section Sections.

Lemma split_on_nonempty p s : Py.split_on p s <> [].
Proof.
  destruct s as [|c s]; [done|]. simpl.
  destruct (p c); [done|]. by destruct (Py.split_on p s).
Qed.

Lemma split_on_app p a c b :
  p c = true ->
  Py.split_on p (a +:+ String c b) = Py.split_on p a ++ Py.split_on p b.
Proof.
  intros Hc. induction a as [|d a IH].
  - rewrite app_empty. simpl. by rewrite Hc.
  - rewrite app_String. simpl. rewrite IH.
    destruct (p d); [done|].
    pose proof (split_on_nonempty p a).
    by destruct (Py.split_on p a).
Qed.


Lemma parse_parties_sections s :
  parse_parties (Py.Str s) = Py.split_on section_separator s ≫= parse_section.
Proof.
  unfold parse_parties. simpl. case_bool_decide as Hs; [by subst|]. done.
Qed.


End Sections.

(** X8. The sections of a party list are parsed one by one: the pairs of a
    text with a semicolon or a slash in it are the pairs of what is before
    it followed by the pairs of what is after it. *)
Theorem parse_parties_section_by_section a c b :
  section_separator c = true ->
  parse_parties (Py.Str (a +:+ String c b))
  = parse_parties (Py.Str a) ++ parse_parties (Py.Str b).
Proof.
  intros Hc. rewrite !parse_parties_sections, split_on_app by done.
  apply bind_app.
Qed.

(** X8, witness: the third format of the docstring. *)
Lemma parse_parties_section_by_section_witness :
  parse_parties
    (Py.Str "Robert Anderson (plaintiff) / HealthPlus Insurance Co. (defendant)")
  = parse_parties (Py.Str "Robert Anderson (plaintiff) ")
    ++ parse_parties (Py.Str " HealthPlus Insurance Co. (defendant)").
Proof.
  apply (parse_parties_section_by_section "Robert Anderson (plaintiff) " "/"
           " HealthPlus Insurance Co. (defendant)").
  reflexivity.
Defined.



Section Integrity.

Local Arguments get_or_create_court : simpl never.
Local Arguments get_or_create_judge : simpl never.
Local Arguments get_or_create_case_type : simpl never.
Local Arguments get_or_create_party : simpl never.
Local Arguments upsert_case : simpl never.
Local Arguments link_parties : simpl never.
Local Arguments parse_parties : simpl never.
Local Arguments parse_date : simpl never.

Lemma referential_extends t t' :
  referential t -> extends t t' ->
  cases t' = cases t -> case_parties t' = case_parties t ->
  referential t'.
Proof.
  intros [Hcases Hlinks] (Hc & Hj & Ht & Hp & _ & _) Ecases Elinks.
  split.
  - intros cn row Hrow. rewrite Ecases in Hrow.
    destruct (Hcases cn row Hrow) as ((k & r & Hk & Hid) & (kt & Hkt) & Hjudge).
    split; [|split].
    + exists k, r. split; [|done]. by eapply lookup_weaken.
    + exists kt. by eapply lookup_weaken.
    + intros j Hjd. destruct (Hjudge j Hjd) as (kj & rj & Hkj & Hidj).
      exists kj, rj. split; [|done]. by eapply lookup_weaken.
  - intros c p r Hin. rewrite Elinks in Hin.
    destruct (Hlinks c p r Hin) as ((cn & row & Hrow & Hid) & (k & pr & Hk & Hidp)).
    split.
    + exists cn, row. by rewrite Ecases.
    + exists k, pr. split; [|done]. by eapply lookup_weaken.
Qed.

Lemma got_has {Row} (id_of : Row -> nat) k cache rows cache' rows' id :
  got id_of k cache rows cache' rows' id -> backed id_of cache rows ->
  exists row, rows' !! k = Some row /\ id_of row = id.
Proof.
  intros Hgot Hb. destruct (got_backed _ _ _ _ _ _ _ Hgot Hb) as [_ H].
  destruct (rows' !! k) as [row|]; [|done]. exists row. split; [done|].
  simpl in H. congruence.
Qed.

Ltac back :=
  repeat match goal with
         | H : ?f ?st = ?f ?st' |- _ => rewrite <- H; clear H
         | H : ?f (db ?st) = ?f (db ?st') |- _ => rewrite <- H; clear H
         end.

Ltac split_same H :=
  unfold same, beside_courts, beside_judges, beside_case_types, beside_parties,
    entities, case_side in H;
  simpl in H; injection H; clear H; intros.

Lemma get_or_create_court_sound v st st' r :
  get_or_create_court v st = (st', r) -> sound st ->
  sound st' /\ cases (db st') = cases (db st)
  /\ forall id, r = Ok id -> has_court (db st') id.
Proof.
  intros E [(Bc & Bj & Bt & Bp) Href].
  pose proof (respects_run _ _ _ _ _ (get_or_create_court_beside v) E) as Hs.
  pose proof (respects_run _ _ _ _ _ (get_or_create_court_grows v) E) as Hg.
  apply get_or_create_court_got in E. split_same Hs.
  destruct r as [id|e]; [|by destruct E as [_ ->]].
  destruct E as [_ Hgot].
  destruct (got_backed _ _ _ _ _ _ _ Hgot Bc) as [Bc' _].
  destruct (got_has _ _ _ _ _ _ _ Hgot Bc) as (row & Hrow & Hid).
  split; [|split; [done|]].
  - split.
    + unfold caches_backed. back. done.
    + eapply referential_extends; eauto.
  - intros id' [= <-]. by eexists _, _.
Qed.

Lemma get_or_create_judge_sound v st st' r :
  get_or_create_judge v st = (st', r) -> sound st ->
  sound st' /\ cases (db st') = cases (db st)
  /\ forall id, r = Ok (Some id) -> has_judge (db st') id.
Proof.
  intros E [(Bc & Bj & Bt & Bp) Href].
  pose proof (respects_run _ _ _ _ _ (get_or_create_judge_beside v) E) as Hs.
  pose proof (respects_run _ _ _ _ _ (get_or_create_judge_grows v) E) as Hg.
  apply get_or_create_judge_got in E. split_same Hs.
  destruct r as [[id|]|e]; [|by subst st'|done].
  destruct (got_backed _ _ _ _ _ _ _ E Bj) as [Bj' _].
  destruct (got_has _ _ _ _ _ _ _ E Bj) as (row & Hrow & Hid).
  split; [|split; [done|]].
  - split.
    + unfold caches_backed. back. done.
    + eapply referential_extends; eauto.
  - intros id' [= <-]. by eexists _, _.
Qed.

Lemma get_or_create_case_type_sound v st st' r :
  get_or_create_case_type v st = (st', r) -> sound st ->
  sound st' /\ cases (db st') = cases (db st)
  /\ forall id, r = Ok id -> has_case_type (db st') id.
Proof.
  intros E [(Bc & Bj & Bt & Bp) Href].
  pose proof (respects_run _ _ _ _ _ (get_or_create_case_type_beside v) E) as Hs.
  pose proof (respects_run _ _ _ _ _ (get_or_create_case_type_grows v) E) as Hg.
  apply get_or_create_case_type_got in E. split_same Hs.
  destruct r as [id|e]; [|by destruct E as [_ ->]].
  destruct E as [_ Hgot].
  destruct (got_backed _ _ _ _ _ _ _ Hgot Bt) as [Bt' _].
  destruct (got_has _ _ _ _ _ _ _ Hgot Bt) as (row & Hrow & Hid).
  split; [|split; [done|]].
  - split.
    + unfold caches_backed. back. done.
    + eapply referential_extends; eauto.
  - intros id' [= <-]. eexists. by rewrite Hrow, Hid.
Qed.

Lemma get_or_create_party_sound v st st' r :
  get_or_create_party v st = (st', r) -> sound st ->
  sound st' /\ cases (db st') = cases (db st)
  /\ case_parties (db st') = case_parties (db st)
  /\ forall id, r = Ok id -> has_party (db st') id.
Proof.
  intros E [(Bc & Bj & Bt & Bp) Href].
  pose proof (respects_run _ _ _ _ _ (get_or_create_party_beside v) E) as Hs.
  pose proof (respects_run _ _ _ _ _ (get_or_create_party_grows v) E) as Hg.
  apply get_or_create_party_got in E. split_same Hs.
  destruct r as [id|e]; [|by destruct E as [_ ->]].
  destruct E as [_ Hgot].
  destruct (got_backed _ _ _ _ _ _ _ Hgot Bp) as [Bp' _].
  destruct (got_has _ _ _ _ _ _ _ Hgot Bp) as (row & Hrow & Hid).
  split; [|split; [done|split; [done|]]].
  - split.
    + unfold caches_backed. back. done.
    + eapply referential_extends; eauto.
  - intros id' [= <-]. by eexists _, _.
Qed.

Lemma has_court_grows st st' id :
  grows st st' -> has_court (db st) id -> has_court (db st') id.
Proof.
  intros (H & _) (k & row & Hk & Hid). exists k, row. split; [|done].
  by eapply lookup_weaken.
Qed.

Lemma has_judge_grows st st' id :
  grows st st' -> has_judge (db st) id -> has_judge (db st') id.
Proof.
  intros (_ & H & _) (k & row & Hk & Hid). exists k, row. split; [|done].
  by eapply lookup_weaken.
Qed.

Lemma upsert_case_sound cn c t f ct j x s st st' id ins :
  upsert_case cn c t f ct j x s st = (st', Ok (id, ins)) ->
  sound st -> has_court (db st) c -> has_case_type (db st) ct ->
  (forall jid, j = Some jid -> has_judge (db st) jid) ->
  sound st' /\ has_case (db st') id.
Proof.
  intros E [(Bc & Bj & Bt & Bp) [Hcases Hlinks]] Hc Ht Hj.
  pose proof (respects_run _ _ _ _ _ (upsert_case_beside cn c t f ct j x s) E) as Hs.
  apply upsert_case_run in E as (Ecases & Eid & _). split_same Hs.
  assert (Hc' : forall i, has_court (db st) i -> has_court (db st') i).
  { intros i (k & row & Hk & Hid). exists k, row. split; [congruence|done]. }
  assert (Ht' : forall i, has_case_type (db st) i -> has_case_type (db st') i).
  { intros i (k & Hk). exists k. congruence. }
  assert (Hj' : forall i, has_judge (db st) i -> has_judge (db st') i).
  { intros i (k & row & Hk & Hid). exists k, row. split; [congruence|done]. }
  assert (Hp' : forall i, has_party (db st) i -> has_party (db st') i).
  { intros i (k & row & Hk & Hid). exists k, row. split; [congruence|done]. }
  assert (Hcase' : forall i, has_case (db st) i -> has_case (db st') i).
  { intros i (cn' & row & Hrow & Hid).
    destruct (decide (cn' = cn)) as [->|Hne].
    - exists cn. eexists. rewrite Ecases, lookup_insert_eq. split; [done|].
      simpl. rewrite Hrow in Eid. congruence.
    - exists cn', row. by rewrite Ecases, lookup_insert_ne. }
  split.
  - split; [unfold caches_backed; clear Hc' Ht' Hj' Hp' Hcase' Ecases; back; done|]. split.
    + intros cn' row. rewrite Ecases, lookup_insert. case_decide.
      * intros [= <-]. simpl. split; [auto|]. split; [auto|]. intros jid Hjid. auto.
      * intros Hrow. destruct (Hcases cn' row Hrow) as (Hr1 & Hr2 & Hr3).
        split; [auto|]. split; [auto|]. intros jid Hjid. auto.
    + intros c0 p r Hin. replace (case_parties (db st')) with (case_parties (db st)) in Hin
        by congruence.
      destruct (Hlinks c0 p r Hin). auto.
  - exists cn. eexists. rewrite Ecases, lookup_insert_eq. done.
Qed.

Lemma sound_case_side st st' : case_side st = case_side st' -> sound st -> sound st'.
Proof.
  intros H. unfold case_side, entities in H. injection H; intros.
  unfold sound, caches_backed, referential, has_court, has_judge, has_case_type,
    has_party, has_case in *.
  repeat match goal with H : _ = _ |- _ => rewrite <- H; clear H end. done.
Qed.

Lemma insert_case_party_sound c p r st :
  sound st -> has_case (db st) c -> has_party (db st) p ->
  sound (fst (insert_case_party c p r st)).
Proof.
  intros [Hb [Hcases Hlinks]] Hc Hp. unfold insert_case_party, modify. simpl.
  split; [done|]. split; [exact Hcases|].
  intros c0 p0 r0 [Hin|Hin]%elem_of_union.
  - apply elem_of_singleton in Hin. injection Hin as -> -> ->. done.
  - by apply (Hlinks c0 p0 r0).
Qed.

Lemma link_parties_sound case cn l : forall st,
  sound st -> has_case (db st) case -> sound (fst (link_parties case cn l st)).
Proof.
  induction l as [|[name role] l IH]; intros st Hs Hcase; [done|].
  unfold link_parties; fold link_parties.
  unfold mbind, M_bind, bind, try_except.
  destruct (get_or_create_party (Py.Str name) st) as [s1 [pid|e]] eqn:E.
  - destruct (get_or_create_party_sound _ _ _ _ E Hs) as (Hs1 & Ec & El & Hp).
    assert (Hcase1 : has_case (db s1) case).
    { destruct Hcase as (k & row & Hk & Hid). exists k, row. by rewrite Ec. }
    pose proof (insert_case_party_sound case pid role s1 Hs1 Hcase1 (Hp pid eq_refl)) as Hs2.
    unfold insert_case_party, modify in *. simpl in *.
    apply IH; [done|].
    destruct Hcase1 as (k & row & Hk & Hid). by exists k, row.
  - destruct (get_or_create_party_sound _ _ _ _ E Hs) as (Hs1 & Ec & El & Hp).
    unfold modify. simpl. apply IH.
    + eapply sound_case_side; [|exact Hs1]. done.
    + destruct Hcase as (k & row & Hk & Hid). exists k, row. simpl. by rewrite Ec.
Qed.

Lemma party_phase_sound case cn l st :
  sound st -> has_case (db st) case -> sound (fst (party_phase case cn l st)).
Proof.
  intros Hs Hc. destruct l; [|by apply link_parties_sound].
  unfold party_phase, modify. simpl. eapply sound_case_side; [|exact Hs]. done.
Qed.

Lemma process_docket_sound d st : sound st -> sound (fst (process_docket d st)).
Proof.
  intros Hs. destruct (rejection d) as [[s e]|] eqn:Hrej.
  - pose proof (process_docket_rejected d st s e Hrej) as Hrun.
    destruct s; try (by rewrite Hrun).
    + destruct Hrun as (s1 & court & s2 & judge & E1 & E2 & ->). simpl.
      destruct (get_or_create_court_sound _ _ _ _ E1 Hs) as (Hs1 & _).
      by destruct (get_or_create_judge_sound _ _ _ _ E2 Hs1) as (Hs2 & _).
    + destruct Hrun as (s1 & court & s2 & judge & s3 & ct & E1 & E2 & E3 & ->). simpl.
      destruct (get_or_create_court_sound _ _ _ _ E1 Hs) as (Hs1 & _).
      destruct (get_or_create_judge_sound _ _ _ _ E2 Hs1) as (Hs2 & _).
      by destruct (get_or_create_case_type_sound _ _ _ _ E3 Hs2) as (Hs3 & _).
  - destruct (process_docket_accepted d st Hrej)
      as (filed & status_ & s1 & court & s2 & judge & s3 & ct & s4 & case & ins & s5
          & Hcn & Hdate & Hst & Hvalid & E1 & E2 & E3 & E4 & E5 & ->).
    simpl.
    destruct (get_or_create_court_sound _ _ _ _ E1 Hs) as (Hs1 & _ & Hc1).
    destruct (get_or_create_judge_sound _ _ _ _ E2 Hs1) as (Hs2 & _ & Hj2).
    destruct (get_or_create_case_type_sound _ _ _ _ E3 Hs2) as (Hs3 & _ & Ht3).
    pose proof (respects_run _ _ _ _ _ (get_or_create_judge_grows _) E2) as G2.
    pose proof (respects_run _ _ _ _ _ (get_or_create_case_type_grows _) E3) as G3.
    destruct (upsert_case_sound _ _ _ _ _ _ _ _ _ _ _ _ E4 Hs3) as (Hs4 & Hcase).
    + eapply has_court_grows; [exact G3|]. eapply has_court_grows; [exact G2|]. auto.
    + auto.
    + intros jid ->. eapply has_judge_grows; [exact G3|]. auto.
    + replace s5 with (fst (party_phase case (case_number_of d)
                              (parse_parties (dict_get d "parties" (Py.Str "")))
                              (with_processed_cases
                                 (fun seen => {[ case_number_of d ]} ∪ seen) s4)))
        by (by rewrite E5).
      apply party_phase_sound.
      * eapply sound_case_side; [|exact Hs4]. done.
      * destruct Hcase as (k & row & Hk & Hid). by exists k, row.
Qed.

End Integrity.

(** X10. Processing a record keeps the store referentially intact and the
    caches in agreement with it, whether the record is accepted or
    rejected: every case names a court, a case type and, if any, a judge
    that are stored, every link names a stored case and a stored party,
    and every cache entry is the id of the stored row with its key. *)
Theorem process_docket_keeps_references d st :
  sound st -> sound (fst (process_docket d st)).
Proof. apply process_docket_sound. Qed.

(** X10, witness: the sample record on the empty store. *)
Lemma process_docket_keeps_references_witness :
  sound (fst (process_docket sample_docket empty_store)).
Proof.
  apply (process_docket_keeps_references sample_docket empty_store).
  split.
  - unfold caches_backed, backed, empty_store, connect. simpl.
    repeat split; intros k id; by rewrite lookup_empty.
  - split.
    + intros cn row. simpl. by rewrite lookup_empty.
    + intros c p r. simpl. set_solver.
Defined.

Section RunIntegrity.

Variable json : docket -> string.
Variable sha : string -> string.

Local Arguments process_docket : simpl never.
Local Arguments quarantine_and_record : simpl never.
Local Arguments ingest_loop : simpl never.

Lemma referential_tables t t' :
  (courts t, judges t, case_types t, parties t, cases t, case_parties t)
  = (courts t', judges t', case_types t', parties t', cases t', case_parties t') ->
  referential t -> referential t'.
Proof.
  intros H. injection H; intros.
  unfold referential, has_court, has_judge, has_case_type, has_party, has_case in *.
  repeat match goal with H : _ = _ |- _ => rewrite <- H; clear H end. done.
Qed.

Lemma quarantine_and_record_sound run d code e st :
  sound_throughout st ->
  sound_throughout (fst (quarantine_and_record json sha run d code e st)).
Proof.
  intros [Hs Hc]. destruct (crashes d) eqn:Hd.
  - unfold crashes in Hd. unfold quarantine_and_record, mbind, M_bind, bind, lift.
    by destruct (get_strip d "case_number" "").
  - destruct (quarantine_and_record_run json sha run d code e st Hd)
      as (st' & -> & _ & _ & _ & _ & Hcom & Hsame).
    simpl. unfold same in Hsame.
    assert (Hs' : sound st').
    { eapply sound_case_side; [|exact Hs].
      unfold case_side, entities. injection Hsame; intros. congruence. }
    split; [done|]. rewrite Hcom. by destruct Hs'.
Qed.

Lemma ingest_loop_sound run clock dockets : forall i st,
  sound_throughout st ->
  sound_throughout (fst (ingest_loop json sha run clock i dockets st)).
Proof.
  induction dockets as [|d rest IH]; intros i st [Hs Hc]; [done|].
  rewrite ingest_loop_cons.
  assert (Hentered : sound (entered clock i st))
    by (eapply sound_case_side; [|exact Hs]; done).
  pose proof (process_docket_sound d _ Hentered) as Hp.
  pose proof (process_docket_keeps_driver_state d (entered clock i st)) as Hk.
  destruct (process_docket d (entered clock i st)) as [s [[success action]|e]].
  - simpl in Hp, Hk. unfold same, driver_state in Hk.
    assert (Hcom : committed s = committed st) by (injection Hk; intros; congruence).
    apply IH.
    destruct success; simpl;
      repeat case_bool_decide; simpl; split;
      first [ eapply sound_case_side; [|exact Hp]; done
            | by destruct Hp
            | change (referential (committed s)); rewrite Hcom; exact Hc ].
  - simpl in Hp, Hk. unfold same, driver_state in Hk.
    assert (Hcom : committed s = committed st) by (injection Hk; intros; congruence).
    assert (Hsx : sound_throughout s) by (split; [done|by rewrite Hcom]).
    pose proof (quarantine_and_record_sound run d (error_code_of e d) e s Hsx) as Hq.
    destruct (quarantine_and_record json sha run d (error_code_of e d) e s)
      as [s' [[]|e']]; [|done].
    by apply IH.
Qed.

Lemma ingest_file_sound path name dockets clock st :
  sound st ->
  let r := ingest_file json sha path name dockets clock st in
  referential (db (fst r)) /\ (snd r = Ok tt -> sound (fst r)).
Proof.
  intros Hs. simpl. rewrite ingest_file_unfold.
  assert (Hstart : sound_throughout (run_started path name st)).
  { split.
    - eapply sound_case_side; [|exact Hs]. done.
    - eapply referential_tables; [|by destruct Hs]. done. }
  pose proof (ingest_loop_sound (ingest_runs_run_id_seq (seqs st)) clock dockets 1 _ Hstart)
    as [Hend Hcom].
  destruct (ingest_loop _ _ _ _ _ _ _) as [s [[]|e]]; simpl in *.
  - assert (sound (run_finished (ingest_runs_run_id_seq (seqs st))
                     (clock (S (length dockets))) s)) as Hfin.
    { destruct Hend as [Hb Hr]. split.
      - exact Hb.
      - eapply referential_tables; [|exact Hr].
        reflexivity. }
    split; [by destruct Hfin|done].
  - split; [done|discriminate].
Qed.

End RunIntegrity.

(** X11. A run keeps the store referentially intact, whether it ends
    normally or is aborted and rolled back; when it ends normally the
    caches of the ingester still agree with the store. *)
Theorem ingest_file_keeps_references json sha path name dockets clock st :
  sound st ->
  let r := ingest_file json sha path name dockets clock st in
  referential (db (fst r)) /\ (snd r = Ok tt -> sound (fst r)).
Proof. apply ingest_file_sound. Qed.

(** X11, witness: a batch of a valid record and a record with an invalid
    status, on the empty store. *)
Lemma ingest_file_keeps_references_witness :
  let r := ingest_file (fun _ => "{}") (fun s => s) "raw_dockets.json" ""
             [sample_docket; bad_status_docket] (fun i => (i, i)) empty_store in
  referential (db (fst r)) /\ (snd r = Ok tt -> sound (fst r)).
Proof.
  apply (ingest_file_keeps_references (fun _ => "{}") (fun s => s) "raw_dockets.json" ""
           [sample_docket; bad_status_docket] (fun i => (i, i)) empty_store).
  split.
  - unfold caches_backed, backed, empty_store, connect. simpl.
    repeat split; intros k id; by rewrite lookup_empty.
  - split.
    + intros cn row. simpl. by rewrite lookup_empty.
    + intros c p r. simpl. set_solver.
Defined.

Section Transactions.

Variable json : docket -> string.
Variable sha : string -> string.

Local Arguments process_docket : simpl never.
Local Arguments quarantine_and_record : simpl never.
Local Arguments ingest_loop : simpl never.

Global Instance keeps_both_preorder {X} (F : X -> tables -> Prop) : PreOrder (keeps_both F).
Proof. split; [by intros st x|]. intros s1 s2 s3 H1 H2 x H. by apply H2, H1. Qed.

(** A call that leaves the committed snapshot alone keeps what its
    writes to the open transaction keep. *)
Lemma keeps_both_open {X} (F : X -> tables -> Prop) {A} (m : M A) :
  respects (same committed) m ->
  (forall st x, F x (db st) -> F x (db (fst (m st)))) ->
  respects (keeps_both F) m.
Proof.
  intros Hc Hdb st x [H1 H2]. split; [by apply Hdb|].
  specialize (Hc st). unfold same in Hc. by rewrite <- Hc.
Qed.

Lemma process_docket_keeps_committed d : respects (same committed) (process_docket d).
Proof. apply process_docket_keeps; intros; try done; keeps. Qed.

Lemma process_docket_keeps_runs d :
  respects (same (fun st => ingest_runs (db st))) (process_docket d).
Proof. apply process_docket_keeps; intros; try done; keeps. Qed.

Lemma process_docket_extends d : respects (keeps_both extends) (process_docket d).
Proof.
  apply keeps_both_open; [apply process_docket_keeps_committed|].
  intros st t Ht. etrans; [exact Ht|]. apply (process_docket_grows d st).
Qed.

Lemma process_docket_runs d : respects (keeps_both runs_are) (process_docket d).
Proof.
  apply keeps_both_open; [apply process_docket_keeps_committed|].
  intros st T Ht. unfold runs_are in *.
  pose proof (process_docket_keeps_runs d st) as H. unfold same in H. congruence.
Qed.

(** A statement that commits, or that writes outside the tables a family
    looks at. *)
Ltac writes_aside :=
  apply respects_modify; [apply _ ..|];
  intros ? ? [? ?]; split; simpl; first [assumption | done].

Lemma extends_aside t1 t2 t :
  (courts t1, judges t1, case_types t1, parties t1, cases t1, case_parties t1)
  = (courts t2, judges t2, case_types t2, parties t2, cases t2, case_parties t2) ->
  extends t t1 -> extends t t2.
Proof.
  intros H. injection H; intros. unfold extends in *.
  repeat match goal with H : _ = _ |- _ => rewrite <- H; clear H end. done.
Qed.

Lemma quarantine_and_record_extends run d code e :
  respects (keeps_both extends) (quarantine_and_record json sha run d code e).
Proof.
  intros st t [H1 H2]. destruct (crashes d) eqn:Hd.
  - unfold crashes in Hd. unfold quarantine_and_record, mbind, M_bind, bind, lift.
    by destruct (get_strip d "case_number" "").
  - destruct (quarantine_and_record_run json sha run d code e st Hd)
      as (st' & -> & _ & _ & _ & _ & Hcom & Hsame).
    simpl. unfold same in Hsame.
    assert (extends t (db st')) as H.
    { eapply extends_aside; [|exact H1]. injection Hsame; intros. congruence. }
    split; [done|]. by rewrite Hcom.
Qed.

Lemma quarantine_and_record_runs run d code e :
  respects (keeps_both runs_are) (quarantine_and_record json sha run d code e).
Proof.
  intros st T [H1 H2]. destruct (crashes d) eqn:Hd.
  - unfold crashes in Hd. unfold quarantine_and_record, mbind, M_bind, bind, lift.
    by destruct (get_strip d "case_number" "").
  - destruct (quarantine_and_record_run json sha run d code e st Hd)
      as (st' & -> & _ & _ & _ & _ & Hcom & Hsame).
    simpl. unfold same in Hsame. unfold runs_are in *.
    assert (ingest_runs (db st') = T) as H by (injection Hsame; intros; congruence).
    split; [done|]. by rewrite Hcom.
Qed.

Lemma ingest_loop_extends run clock dockets : forall i,
  respects (keeps_both extends) (ingest_loop json sha run clock i dockets).
Proof.
  induction dockets as [|d rest IH]; intros i; [apply respects_ret; apply _|].
  unfold ingest_loop; fold (ingest_loop json sha).
  unfold set_clock, commit.
  repeat (first [ apply process_docket_extends | apply quarantine_and_record_extends
                | apply IH | frame_step ];
          try apply _; intros);
    writes_aside.
Qed.

Lemma ingest_loop_runs run clock dockets : forall i,
  respects (keeps_both runs_are) (ingest_loop json sha run clock i dockets).
Proof.
  induction dockets as [|d rest IH]; intros i; [apply respects_ret; apply _|].
  unfold ingest_loop; fold (ingest_loop json sha).
  unfold set_clock, commit.
  repeat (first [ apply process_docket_runs | apply quarantine_and_record_runs
                | apply IH | frame_step ];
          try apply _; intros);
    writes_aside.
Qed.

End Transactions.

(** X12. A run deletes nothing and leaves nothing uncommitted, whether it
    ends normally or is aborted: every court, judge, case type and party
    row and every link the store held is still there unchanged, every case
    still has its id, and the open transaction is the committed
    snapshot. *)
Theorem ingest_file_deletes_nothing json sha path name dockets clock st :
  let st' := fst (ingest_file json sha path name dockets clock st) in
  extends (db st) (db st') /\ committed st' = db st'.
Proof.
  simpl. rewrite ingest_file_unfold.
  assert (Hstart : both (extends (db st)) (run_started path name st)).
  { split; (eapply extends_aside; [|reflexivity]); done. }
  pose proof (ingest_loop_extends json sha (ingest_runs_run_id_seq (seqs st)) clock
                dockets 1 (run_started path name st) (db st) Hstart) as [Hdb Hcom].
  destruct (ingest_loop _ _ _ _ _ _ _) as [s [[]|e]]; simpl in *.
  - split; [|done]. eapply extends_aside; [|exact Hdb]. done.
  - done.
Qed.

Section RunRows.

Variable json : docket -> string.
Variable sha : string -> string.

Local Arguments process_docket : simpl never.
Local Arguments quarantine_and_record : simpl never.
Local Arguments ingest_loop : simpl never.

Lemma quarantine_and_record_keeps_run_id run d code e :
  respects (same run_id) (quarantine_and_record json sha run d code e).
Proof.
  unfold quarantine_and_record, write_quarantine_jsonl, record_error, commit.
  frame; apply respects_modify; first [apply _ | done].
Qed.

Lemma process_docket_keeps_run_id d : respects (same run_id) (process_docket d).
Proof. apply process_docket_keeps; intros; try done; keeps. Qed.

Lemma ingest_loop_keeps_run_id run clock dockets : forall i,
  respects (same run_id) (ingest_loop json sha run clock i dockets).
Proof.
  induction dockets as [|d rest IH]; intros i; [apply respects_ret; apply _|].
  unfold ingest_loop; fold (ingest_loop json sha).
  unfold set_clock, commit.
  repeat (first [ apply process_docket_keeps_run_id
                | apply quarantine_and_record_keeps_run_id
                | apply IH | frame_step ];
          try apply _; intros);
    apply respects_modify; first [apply _ | done].
Qed.

Lemma run_started_runs path name st :
  both (runs_are (<[ingest_runs_run_id_seq (seqs st) :=
                      RunRow (run_name path name) (Some path) None None]>
                    (ingest_runs (db st))))
    (run_started path name st).
Proof. done. Qed.

(** The loop on a batch with a [null] case number ends with the exception
    of the handler, one record read and not counted. *)
Lemma ingest_loop_aborts run clock dockets : forall i st,
  Exists (fun d => crashes d = true) dockets ->
  exists s,
    ingest_loop json sha run clock i dockets st = (s, Raise (Py.none_has_no "strip"))
    /\ read (counts s) + inserted (counts st) + updated (counts st) + failed (counts st)
       = inserted (counts s) + updated (counts s) + failed (counts s)
         + read (counts st) + 1.
Proof.
  induction dockets as [|d rest IH]; intros i st Hex; [by apply Exists_nil in Hex|].
  destruct (crashes d) eqn:Hd.
  - destruct (ingest_loop_crash json sha run clock i d rest st Hd) as (sx & E & Hc).
    exists sx. split; [done|]. rewrite Hc. simpl. lia.
  - apply Exists_cons in Hex as [Hex|Hex]; [congruence|].
    destruct (ingest_loop_step json sha run clock i d rest st Hd) as (s & -> & Hs).
    destruct (IH (S i) s Hex) as (s' & E & Hcount).
    exists s'. split; [done|].
    destruct (rejected d).
    + destruct Hs as (code & msg & Hc & _). rewrite Hc in Hcount. simpl in Hcount. lia.
    + destruct Hs as (ins & Hc & _). rewrite Hc in Hcount.
      destruct ins; simpl in Hcount; lia.
Qed.

End RunRows.

(** X13. A run on a batch of records whose case numbers are strings or
    absent ends normally and files itself: its row in the runs table
    carries the source name (the file name when none is given), the path,
    the closing time and the counters, and the counters are the size of
    the batch, the number of rejected records and, for inserted and updated
    together, the number of accepted ones. *)
Theorem ingest_file_files_the_run json sha path name dockets clock st :
  Forall text_case_number dockets ->
  let run := ingest_runs_run_id_seq (seqs st) in
  let r := ingest_file json sha path name dockets clock st in
  snd r = Ok tt
  /\ run_id (fst r) = Some run
  /\ ingest_runs (db (fst r))
     = <[run := RunRow (run_name path name) (Some path)
                  (Some (fst (clock (S (length dockets))))) (Some (counts (fst r)))]>
         (ingest_runs (db st))
  /\ read (counts (fst r)) = length dockets
  /\ failed (counts (fst r)) = length (filter (fun d => rejected d = true) dockets)
  /\ inserted (counts (fst r)) + updated (counts (fst r))
     = length (filter (fun d => accepted d = true) dockets).
Proof.
  intros Htext run. simpl. rewrite ingest_file_unfold. fold run.
  assert (Hsafe : Forall (fun d => crashes d = false) dockets).
  { eapply Forall_impl; [exact Htext|]. intros d [s Hs].
    unfold crashes, get_strip. by rewrite Hs. }
  destruct (ingest_loop_tracks json sha run clock dockets 1 (run_started path name st)
              Hsafe eq_refl)
    as (s & E & Hread & Hfailed & Hacc & _).
  pose proof (ingest_loop_runs json sha run clock dockets 1 (run_started path name st) _
                (run_started_runs path name st)) as [Hruns _].
  pose proof (ingest_loop_keeps_run_id json sha run clock dockets 1
                (run_started path name st)) as Hid.
  rewrite E in *. simpl in Hruns, Hid. unfold runs_are in Hruns. unfold same in Hid.
  simpl. split; [done|]. split; [by rewrite <- Hid|]. split.
  - fold run in Hruns. rewrite Hruns, lookup_insert_eq. simpl.
    by rewrite insert_insert_eq.
  - simpl in *. repeat split; lia.
Qed.

(** X13, witness: a valid record and a record with an invalid status. *)
Lemma ingest_file_files_the_run_witness :
  let r := ingest_file (fun _ => "{}") (fun s => s) "data/raw_dockets.json" ""
             [sample_docket; bad_status_docket] (fun i => (i, i)) empty_store in
  snd r = Ok tt
  /\ run_id (fst r) = Some 1
  /\ ingest_runs (db (fst r))
     = <[1 := RunRow "raw_dockets.json" (Some "data/raw_dockets.json") (Some 3)
                (Some (Counters 2 1 0 1))]> ∅.
Proof.
  assert (Htext : Forall text_case_number [sample_docket; bad_status_docket])
    by (repeat constructor; by eexists).
  destruct (ingest_file_files_the_run (fun _ => "{}") (fun s => s)
              "data/raw_dockets.json" "" [sample_docket; bad_status_docket]
              (fun i => (i, i)) empty_store Htext) as (H1 & H2 & H3 & _).
  split; [exact H1|]. split; [exact H2|].
  rewrite H3. vm_compute. reflexivity.
Defined.

(** X14. A run on a batch in which some case number is [null] is aborted
    with the [AttributeError] of the error handler: its row in the runs
    table stays without closing time and totals, and its counters miss one
    record, read and counted as nothing. *)
Theorem ingest_file_aborts_on_null_case_number json sha path name dockets clock st :
  Exists (fun d => crashes d = true) dockets ->
  let run := ingest_runs_run_id_seq (seqs st) in
  let r := ingest_file json sha path name dockets clock st in
  snd r = Raise (Py.none_has_no "strip")
  /\ ingest_runs (db (fst r))
     = <[run := RunRow (run_name path name) (Some path) None None]> (ingest_runs (db st))
  /\ read (counts (fst r))
     = inserted (counts (fst r)) + updated (counts (fst r)) + failed (counts (fst r)) + 1.
Proof.
  intros Hex run. simpl. rewrite ingest_file_unfold. fold run.
  destruct (ingest_loop_aborts json sha run clock dockets 1 (run_started path name st) Hex)
    as (s & E & Hcount).
  pose proof (ingest_loop_runs json sha run clock dockets 1 (run_started path name st) _
                (run_started_runs path name st)) as [_ Hruns].
  rewrite E in *. simpl in Hruns. unfold runs_are in Hruns.
  simpl. split; [done|]. split; [exact Hruns|]. simpl in Hcount. lia.
Qed.

(** X14, witness: a valid record, a record whose case number is [null] and
    a valid record that is never reached. *)
Lemma ingest_file_aborts_on_null_case_number_witness :
  let r := ingest_file (fun _ => "{}") (fun s => s) "raw_dockets.json" ""
             [sample_docket; null_case_number_docket; sample_docket]
             (fun i => (i, i)) empty_store in
  snd r = Raise (Py.none_has_no "strip")
  /\ ingest_runs (db (fst r))
     = <[1 := RunRow "raw_dockets.json" (Some "raw_dockets.json") None None]> ∅
  /\ read (counts (fst r))
     = inserted (counts (fst r)) + updated (counts (fst r)) + failed (counts (fst r)) + 1.
Proof.
  apply (ingest_file_aborts_on_null_case_number (fun _ => "{}") (fun s => s)
           "raw_dockets.json" "" [sample_docket; null_case_number_docket; sample_docket]
           (fun i => (i, i)) empty_store).
  apply Exists_cons_tl, Exists_cons_hd. reflexivity.
Defined.

Section QuarantineLog.

Variable json : docket -> string.
Variable sha : string -> string.

Local Arguments process_docket : simpl never.
Local Arguments quarantine_and_record : simpl never.
Local Arguments ingest_loop : simpl never.

(** One turn of the loop, as the quarantine log sees it. *)
Lemma ingest_loop_logs run clock i d rest st :
  crashes d = false ->
  default run (quarantine_path st) = run ->
  exists s,
    ingest_loop json sha run clock i (d :: rest) st
    = ingest_loop json sha run clock (S i) rest s
    /\ default run (quarantine_path s) = run
    /\ (forall p, p <> run -> files s !! p = files st !! p)
    /\ if rejected d then
         exists l, quarantined (record_hash json sha) run d l
                   /\ quarantine_file s run = quarantine_file st run ++ [l]
       else quarantine_file s run = quarantine_file st run.
Proof.
  intros Hc Hpath. unfold rejected.
  destruct (rejection d) as [[s e]|] eqn:Hrej.
  - destruct (ingest_loop_rejected json sha run clock i d rest st s e Hrej Hc)
      as (sx & sy & E & E' & ->).
    exists sy. split; [done|].
    destruct (quarantine_and_record_run json sha run d (error_code_of e d) e sx Hc)
      as (sy' & E'' & _ & Hq & Hfiles & _).
    rewrite E' in E''. injection E'' as <-.
    pose proof (respects_run _ _ _ _ _ (process_docket_keeps_driver_state d) E) as Hk.
    unfold same, driver_state in Hk. simpl in Hk.
    injection Hk as He Hr Hf Hqp Hn Hco Hno Hu Hrun.
    rewrite <- Hqp in Hq, Hfiles. rewrite Hpath in Hq, Hfiles.
    split; [by rewrite Hq|]. split.
    + intros p Hp. by rewrite Hfiles, lookup_insert_ne, <- Hf.
    + exists (QuarantineLine run (error_code_of e d) (Py.str_of_exn e) d (utcnow sx)
                (sha256_hex sha (canonical_json json d))).
      split; [by exists s, e|].
      unfold quarantine_file at 1. rewrite Hfiles, lookup_insert_eq.
      unfold quarantine_file. by rewrite <- Hf.
  - destruct (ingest_loop_accepted json sha run clock i d rest st Hrej)
      as (s & ins & E & ->).
    exists (counted i ins s). split; [done|].
    pose proof (respects_run _ _ _ _ _ (process_docket_keeps_driver_state d) E) as Hk.
    unfold same, driver_state in Hk. simpl in Hk.
    injection Hk as He Hr Hf Hqp Hn Hco Hno Hu Hrun.
    assert (quarantine_path (counted i ins s) = quarantine_path st
            /\ files (counted i ins s) = files st) as [Hq' Hf'].
    { unfold counted. case_bool_decide; destruct ins; simpl; by rewrite <- Hqp, <- Hf. }
    rewrite Hq'. split; [done|]. split; [intros p _; by rewrite Hf'|].
    unfold quarantine_file. by rewrite Hf'.
Qed.

Lemma ingest_loop_quarantines run clock dockets : forall i st,
  Forall (fun d => crashes d = false) dockets ->
  default run (quarantine_path st) = run ->
  exists st' lines,
    ingest_loop json sha run clock i dockets st = (st', Ok tt)
    /\ quarantine_file st' run = quarantine_file st run ++ lines
    /\ Forall2 (quarantined (record_hash json sha) run)
         (filter (fun d => rejected d = true) dockets) lines
    /\ (forall p, p <> run -> files st' !! p = files st !! p).
Proof.
  induction dockets as [|d rest IH]; intros i st Hsafe Hpath.
  { exists st, []. rewrite app_nil_r, filter_nil. repeat split; done. }
  apply Forall_cons in Hsafe as [Hd Hrest].
  destruct (ingest_loop_logs run clock i d rest st Hd Hpath) as (s & -> & Hpath' & Hother & Hs).
  destruct (IH (S i) s Hrest Hpath') as (st' & lines & E & Hfile & Hlines & Hother').
  rewrite filter_cons. destruct (rejected d) eqn:Hr.
  - destruct Hs as (l & Hl & Hq). exists st', (l :: lines).
    rewrite decide_True by done.
    split; [done|]. split; [by rewrite Hfile, Hq, <- app_assoc|].
    split; [by constructor|]. intros p Hp. by rewrite Hother', Hother.
  - exists st', lines. rewrite decide_False by (by intros ?).
    split; [done|]. split; [by rewrite Hfile, Hs|].
    split; [done|]. intros p Hp. by rewrite Hother', Hother.
Qed.

End QuarantineLog.

(** X15. A run that ends normally appends to its quarantine file one line
    for each rejected record, in the order of the batch, each with the run
    id, the error code and message of the rejection, the record as read and
    its hash; what the file held before stays in front, and no other
    quarantine file is touched. *)
Theorem ingest_file_quarantines_in_order json sha path name dockets clock st :
  Forall (fun d => crashes d = false) dockets ->
  let run := ingest_runs_run_id_seq (seqs st) in
  let st' := fst (ingest_file json sha path name dockets clock st) in
  exists lines,
    quarantine_file st' run = quarantine_file st run ++ lines
    /\ Forall2 (quarantined (record_hash json sha) run)
         (filter (fun d => rejected d = true) dockets) lines
    /\ (forall p, p <> run -> files st' !! p = files st !! p).
Proof.
  intros Hsafe run. simpl. rewrite ingest_file_unfold. fold run.
  destruct (ingest_loop_quarantines json sha run clock dockets 1
              (run_started path name st) Hsafe eq_refl)
    as (s & lines & -> & Hfile & Hlines & Hother).
  exists lines. simpl. done.
Qed.

(** X15, witness: two rejected records around a valid one. *)
Lemma ingest_file_quarantines_in_order_witness :
  let st' := fst (ingest_file (fun _ => "{}") (fun s => s) "raw_dockets.json" ""
                    [bad_status_docket; sample_docket; bad_status_docket]
                    (fun i => (i, i)) empty_store) in
  exists lines,
    quarantine_file st' 1 = quarantine_file empty_store 1 ++ lines
    /\ Forall2 (quarantined (record_hash (fun _ => "{}") (fun s => s)) 1)
         (filter (fun d => rejected d = true)
            [bad_status_docket; sample_docket; bad_status_docket]) lines
    /\ (forall p, p <> 1 -> files st' !! p = files empty_store !! p).
Proof.
  apply (ingest_file_quarantines_in_order (fun _ => "{}") (fun s => s) "raw_dockets.json" ""
           [bad_status_docket; sample_docket; bad_status_docket]
           (fun i => (i, i)) empty_store).
  repeat constructor.
Defined.

Section CaseTypes.

Local Arguments get_or_create_case_type : simpl never.

Lemma get_or_create_case_type_keeps_variations v :
  respects (same variations) (get_or_create_case_type v).
Proof. keeps. Qed.

End CaseTypes.

(** X16. Two spellings of a case type that agree once put in lower case and
    stripped of surrounding whitespace resolve to the same id, the second
    call being answered from the cache; unlike the other resolvers the
    case-type resolver records no name variation. *)
Theorem case_type_spellings_resolve_to_same_id raw1 raw2 st :
  raw1 <> "" -> raw2 <> "" ->
  Py.strip (Py.lower raw1) = Py.strip (Py.lower raw2) ->
  exists id st1 st2,
    get_or_create_case_type (Py.Str raw1) st = (st1, Ok id)
    /\ get_or_create_case_type (Py.Str raw2) st1 = (st2, Ok id)
    /\ db st2 = db st1
    /\ variations st2 = variations st.
Proof.
  intros H1 H2 Hk.
  destruct (get_or_create_case_type_returns (Py.Str raw1) st) as (st1 & id & E1);
    [by apply falsy_Str|].
  pose proof (respects_run _ _ _ _ _
                (get_or_create_case_type_keeps_variations (Py.Str raw1)) E1) as V1.
  pose proof E1 as G1. apply get_or_create_case_type_got in G1 as [_ [Hcache _]].
  exists id, st1, st1. split; [done|].
  unfold get_or_create_case_type at 1. rewrite falsy_Str by done.
  unfold mbind, M_bind, bind, gets. simpl. rewrite <- Hk, Hcache.
  simpl in Hcache. rewrite lookup_insert_eq. done.
Qed.

(** X16, witness: "Civil " and "civil" on the empty store. *)
Lemma case_type_spellings_resolve_to_same_id_witness :
  exists id st1 st2,
    get_or_create_case_type (Py.Str "Civil ") empty_store = (st1, Ok id)
    /\ get_or_create_case_type (Py.Str "civil") st1 = (st2, Ok id)
    /\ db st2 = db st1
    /\ variations st2 = variations empty_store.
Proof.
  apply (case_type_spellings_resolve_to_same_id "Civil " "civil" empty_store);
    [discriminate|discriminate|reflexivity].
Defined.

Section AcceptedRecords.

Local Arguments get_or_create_court : simpl never.
Local Arguments get_or_create_judge : simpl never.
Local Arguments get_or_create_case_type : simpl never.
Local Arguments get_or_create_party : simpl never.
Local Arguments upsert_case : simpl never.
Local Arguments link_parties : simpl never.
Local Arguments parse_parties : simpl never.
Local Arguments parse_date : simpl never.

Lemma get_or_create_judge_blank v st :
  normalize_judge_name (str_of v) = "" ->
  get_or_create_judge v st = (st, Ok None).
Proof.
  intros Hk. unfold get_or_create_judge. destruct (Py.falsy v); [done|].
  by rewrite Hk.
Qed.

Lemma party_phase_keeps {X} (f : state -> X) case cn l :
  (forall v, respects (same f) (get_or_create_party v)) ->
  (forall c p r, respects (same f) (insert_case_party c p r)) ->
  (forall g st, f (with_warnings g st) = f st) ->
  respects (same f) (party_phase case cn l).
Proof.
  intros Hp Hi Hw. destruct l; [|by apply link_parties_keeps].
  apply respects_modify; [apply _ ..|]. intros st. symmetry. apply Hw.
Qed.

(** What a record without a judge leaves alone, call by call. *)
Lemma process_docket_judge_side d st :
  normalize_judge_name (str_of (dict_get d "judge" Py.None_)) = "" ->
  judge_side (fst (process_docket d st)) = judge_side st.
Proof.
  intros Hk.
  assert (Hc : forall v, respects (same judge_side) (get_or_create_court v))
    by (intros; keeps).
  assert (Ht : forall v, respects (same judge_side) (get_or_create_case_type v))
    by (intros; keeps).
  destruct (rejection d) as [[s e]|] eqn:Hrej.
  - pose proof (process_docket_rejected d st s e Hrej) as Hrun.
    destruct s; try (by rewrite Hrun).
    + destruct Hrun as (s1 & court & s2 & judge & E1 & E2 & ->). simpl.
      rewrite get_or_create_judge_blank in E2 by done. injection E2 as <- _.
      symmetry. apply (respects_run _ _ _ _ _ (Hc _) E1).
    + destruct Hrun as (s1 & court & s2 & judge & s3 & ct & E1 & E2 & E3 & ->). simpl.
      rewrite get_or_create_judge_blank in E2 by done. injection E2 as <- _.
      pose proof (respects_run _ _ _ _ _ (Hc _) E1) as R1.
      pose proof (respects_run _ _ _ _ _ (Ht _) E3) as R3.
      unfold same in *. congruence.
  - destruct (process_docket_accepted d st Hrej)
      as (filed & status_ & s1 & court & s2 & judge & s3 & ct & s4 & case & ins & s5
          & Hcn & Hdate & Hst & Hvalid & E1 & E2 & E3 & E4 & E5 & ->).
    simpl. rewrite get_or_create_judge_blank in E2 by done. injection E2 as <- _.
    pose proof (respects_run _ _ _ _ _ (Hc _) E1) as R1.
    pose proof (respects_run _ _ _ _ _ (Ht _) E3) as R3.
    assert (R4 : same judge_side s3 s4).
    { eapply respects_run; [|exact E4]. keeps. }
    assert (R5 : same judge_side
                   (with_processed_cases (fun seen => {[ case_number_of d ]} ∪ seen) s4) s5).
    { eapply respects_run; [|exact E5]. apply party_phase_keeps; intros; [keeps..|done]. }
    unfold same in *.
    change (judge_side s4 = judge_side s5) in R5. congruence.
Qed.

Lemma process_docket_case_context d st s1 court s2 judge s3 ct :
  get_or_create_court (dict_get d "court" (Py.Str "")) st = (s1, Ok court) ->
  get_or_create_judge (dict_get d "judge" Py.None_) s1 = (s2, Ok judge) ->
  get_or_create_case_type (dict_get d "case_type" (Py.Str "civil")) s2 = (s3, Ok ct) ->
  case_context s3 = case_context st.
Proof.
  intros E1 E2 E3.
  assert (R1 : same case_context st s1) by (eapply respects_run; [|exact E1]; keeps).
  assert (R2 : same case_context s1 s2) by (eapply respects_run; [|exact E2]; keeps).
  assert (R3 : same case_context s2 s3) by (eapply respects_run; [|exact E3]; keeps).
  unfold same in *. congruence.
Qed.

End AcceptedRecords.

(** X17. A record without a judge, or with a judge that is blank or only an
    honorific, is processed without touching the judges: no judge row, no
    judge name variation and no cache entry is written, and the case it
    stores has no judge. *)
Theorem record_without_judge_has_no_judge d st :
  normalize_judge_name (str_of (dict_get d "judge" Py.None_)) = "" ->
  let r := process_docket d st in
  judge_side (fst r) = judge_side st
  /\ (rejection d = None ->
      exists row, cases (db (fst r)) !! case_number_of d = Some row
                  /\ judge_id row = None).
Proof.
  intros Hk. simpl. split; [by apply process_docket_judge_side|].
  intros Hrej.
  destruct (process_docket_accepted d st Hrej)
    as (filed & status_ & s1 & court & s2 & judge & s3 & ct & s4 & case & ins & s5
        & Hcn & Hdate & Hst & Hvalid & E1 & E2 & E3 & E4 & E5 & ->).
  simpl. rewrite get_or_create_judge_blank in E2 by done. injection E2 as <- <-.
  apply upsert_case_run in E4 as (Hcases & _ & _).
  pose proof (respects_run _ _ _ _ _ (party_phase_keeps_cases _ _ _) E5) as Hkeep.
  unfold same in Hkeep. simpl in Hkeep. rewrite <- Hkeep, Hcases.
  rewrite lookup_insert_eq. by eexists.
Qed.

(** X17, witness: the sample record with "Judge " for a judge. *)
Lemma record_without_judge_has_no_judge_witness :
  let d := <["judge" := Py.Str "Judge "]> sample_docket in
  let r := process_docket d empty_store in
  judge_side (fst r) = judge_side empty_store
  /\ (rejection d = None ->
      exists row, cases (db (fst r)) !! case_number_of d = Some row
                  /\ judge_id row = None).
Proof.
  apply (record_without_judge_has_no_judge (<["judge" := Py.Str "Judge "]> sample_docket)
           empty_store).
  reflexivity.
Defined.

(** X18. An accepted record writes the case of its number and no other: it
    is reported as inserted exactly when the store held no case of that
    number, and then gets the next id and no update stamp; otherwise it is
    reported as updated, keeps its id, has every other column replaced by
    what the record gives and is stamped with the time of the statement. *)
Theorem accepted_record_upserts_its_case d st :
  rejection d = None ->
  let cn := case_number_of d in
  let old := cases (db st) !! cn in
  exists st' row,
    process_docket d st
    = (st', Ok (true, if bool_decide (old = None) then "inserted" else "updated"))
    /\ cases (db st') = <[cn := row]> (cases (db st))
    /\ case_id row = from_option case_id (cases_id_seq (seqs st)) old
    /\ updated_at row = (if bool_decide (old = None) then None else Some (now st))
    /\ parse_date (dict_get d "filed_date" (Py.Str "")) = Ok (filed_date row)
    /\ title row = dict_get d "title" (Py.Str "")
    /\ docket_text row = dict_get d "docket_text" (Py.Str "")
    /\ status row = status_of d
    /\ cn ∈ processed_cases st'.
Proof.
  intros Hrej cn old.
  destruct (process_docket_accepted d st Hrej)
    as (filed & status_ & s1 & court & s2 & judge & s3 & ct & s4 & case & ins & s5
        & Hcn & Hdate & Hst & Hvalid & E1 & E2 & E3 & E4 & E5 & ->).
  pose proof (process_docket_case_context d st _ _ _ _ _ _ E1 E2 E3) as Hctx.
  unfold case_context in Hctx. injection Hctx as Hcases Hseq Hnow.
  apply upsert_case_run in E4 as (Hrow & Hid & Hins).
  rewrite Hcases, Hnow in *. rewrite Hseq in Hid. fold cn old in Hrow, Hid, Hins.
  pose proof (respects_run _ _ _ _ _ (party_phase_keeps_cases _ _ _) E5) as Hkeep.
  assert (Hseen : same processed_cases
                    (with_processed_cases (fun seen => {[ case_number_of d ]} ∪ seen) s4)
                    s5).
  { eapply respects_run; [|exact E5]. apply party_phase_keeps; intros; [keeps..|done]. }
  unfold same in Hkeep, Hseen. simpl in Hkeep, Hseen.
  eexists s5, _. rewrite <- Hins. split; [done|].
  split; [by rewrite <- Hkeep, Hrow|]. simpl.
  split; [rewrite Hid; by destruct old|].
  split; [rewrite Hins; by case_bool_decide|].
  split; [done|]. split; [done|]. split; [done|]. split.
  - unfold status_of. unfold get_lower in Hst.
    destruct (dict_get d "status" (Py.Str "active")); by simplify_eq.
  - rewrite <- Hseen. set_solver.
Qed.

(** X18, witness: the sample record on the empty store. *)
Lemma accepted_record_upserts_its_case_witness :
  exists st' row,
    process_docket sample_docket empty_store = (st', Ok (true, "inserted"))
    /\ cases (db st') = <["1:24-cv-1" := row]> ∅
    /\ case_id row = 1
    /\ updated_at row = None
    /\ parse_date (Py.Str "10-3-2024") = Ok (filed_date row)
    /\ title row = Py.Str ""
    /\ docket_text row = Py.Str ""
    /\ status row = "active"
    /\ "1:24-cv-1" ∈ processed_cases st'.
Proof.
  apply (accepted_record_upserts_its_case sample_docket empty_store).
  vm_compute. reflexivity.
Defined.

Section Links.

Local Arguments get_or_create_party : simpl never.
Local Arguments link_parties : simpl never.
Local Arguments parse_parties : simpl never.

Lemma parse_parties_names v name role : (name, role) ∈ parse_parties v -> name <> "".
Proof.
  unfold parse_parties. destruct (Py.falsy v); [by intros ?%elem_of_nil|].
  destruct v as [|s]; [by intros ?%elem_of_nil|].
  intros Hin. apply list_elem_of_bind in Hin as [section [Hin _]].
  by apply parse_section_sound in Hin as [Hne _].
Qed.

Lemma linked_grows t t' case name role :
  parties t ⊆ parties t' -> case_parties t ⊆ case_parties t' ->
  linked t case name role -> linked t' case name role.
Proof.
  intros Hp Hl (row & Hrow & Hin). exists row. split; [by eapply lookup_weaken|set_solver].
Qed.

(** The loop over the parties of a record, on names that are not empty:
    every one of them ends up linked, and no warning is added. *)
Lemma link_parties_links case cn l : forall st,
  backed entity_id (parties_cache st) (parties (db st)) ->
  Forall (fun p => fst p <> "") l ->
  let st' := fst (link_parties case cn l st) in
  backed entity_id (parties_cache st') (parties (db st'))
  /\ parties (db st) ⊆ parties (db st')
  /\ case_parties (db st) ⊆ case_parties (db st')
  /\ warnings st' = warnings st
  /\ Forall (fun p => linked (db st') case (fst p) (snd p)) l.
Proof.
  induction l as [|[name role] l IH]; intros st Hb Hne; [done|].
  apply Forall_cons in Hne as [Hname Hne]. simpl in Hname.
  unfold link_parties; fold link_parties.
  unfold mbind, M_bind, bind, try_except.
  destruct (get_or_create_party_returns name st Hname) as (s1 & pid & E).
  rewrite E.
  pose proof (respects_run _ _ _ _ _ (get_or_create_party_beside _) E) as Hs.
  assert (Hw : warnings s1 = warnings st).
  { symmetry. eapply (respects_run (same warnings)); [|exact E]. keeps. }
  apply get_or_create_party_got in E as [_ Hgot].
  destruct (got_backed _ _ _ _ _ _ _ Hgot Hb) as [Hb1 Hid].
  pose proof (got_subseteq _ _ _ _ _ _ _ Hgot) as Hsub.
  unfold same, beside_parties in Hs. injection Hs as _ _ _ _ _ _ _ Hlinks.
  unfold insert_case_party, modify. simpl.
  set (s2 := with_db (with_case_parties (fun links => {[(case, pid, role)]} ∪ links)) s1).
  destruct (IH s2) as (Hb' & Hp' & Hl' & Hw' & Hall); [exact Hb1|exact Hne|].
  split; [exact Hb'|]. split; [by etrans|]. split.
  { etrans; [|exact Hl']. subst s2. simpl. rewrite Hlinks. set_solver. }
  split; [by rewrite Hw'|].
  constructor; [|exact Hall]. simpl.
  eapply (linked_grows (db s2)); [exact Hp'|exact Hl'|].
  simpl in Hid. destruct (parties (db s1) !! normalize_party_name name) as [row|] eqn:Hrow;
    [|done].
  exists row. split; [done|]. simpl in Hid. injection Hid as ->.
  subst s2. simpl. set_solver.
Qed.

End Links.

(** X19. An accepted record links every party it names: with a parties
    cache that agrees with the store, after the call each name of the
    party list is stored under its key and linked to the case of the record
    under its role, and no warning is added; a record that names no party
    is accepted all the same, with no link written and the one warning
    "No parties for case ..." added. *)
Theorem accepted_record_links_its_parties d st :
  rejection d = None ->
  backed entity_id (parties_cache st) (parties (db st)) ->
  let st' := fst (process_docket d st) in
  exists row,
    cases (db st') !! case_number_of d = Some row
    /\ Forall (fun p => linked (db st') (case_id row) (fst p) (snd p)) (parties_of d)
    /\ warnings st'
       = warnings st
         ++ (if bool_decide (parties_of d = [])
             then ["No parties for case " +:+ case_number_of d] else [])
    /\ (parties_of d = [] -> case_parties (db st') = case_parties (db st)).
Proof.
  intros Hrej Hb. simpl.
  destruct (process_docket_accepted d st Hrej)
    as (filed & status_ & s1 & court & s2 & judge & s3 & ct & s4 & case & ins & s5
        & Hcn & Hdate & Hst & Hvalid & E1 & E2 & E3 & E4 & E5 & ->).
  simpl.
  assert (Hk : forall {X} (f : state -> X),
            (forall v, respects (same f) (get_or_create_court v)) ->
            (forall v, respects (same f) (get_or_create_judge v)) ->
            (forall v, respects (same f) (get_or_create_case_type v)) ->
            (forall cn c t fd ct j x s, respects (same f) (upsert_case cn c t fd ct j x s)) ->
            f s4 = f st).
  { intros X f Hc Hj Ht Hu.
    pose proof (respects_run _ _ _ _ _ (Hc _) E1) as R1.
    pose proof (respects_run _ _ _ _ _ (Hj _) E2) as R2.
    pose proof (respects_run _ _ _ _ _ (Ht _) E3) as R3.
    pose proof (respects_run _ _ _ _ _ (Hu _ _ _ _ _ _ _ _) E4) as R4.
    unfold same in *. congruence. }
  assert (Hside : (parties_cache s4, parties (db s4), warnings s4, case_parties (db s4))
                  = (parties_cache st, parties (db st), warnings st, case_parties (db st))).
  { apply (Hk _ (fun st => (parties_cache st, parties (db st), warnings st,
                            case_parties (db st)))); intros; keeps. }
  injection Hside as Hpc Hp Hw Hl.
  pose proof E4 as Hup. apply upsert_case_run in Hup as (Hcases & _ & _).
  pose proof (respects_run _ _ _ _ _ (party_phase_keeps_cases _ _ _) E5) as Hkeep.
  unfold same in Hkeep. simpl in Hkeep.
  eexists. split; [by rewrite <- Hkeep, Hcases, lookup_insert_eq|]. simpl.
  unfold parties_of in *. unfold party_phase in E5.
  destruct (parse_parties (dict_get d "parties" (Py.Str ""))) as [|p l] eqn:Hparse.
  - unfold modify in E5. injection E5 as <-. simpl.
    rewrite Hw, Hl. split; [done|]. split; [done|]. done.
  - set (s4' := with_processed_cases (fun seen => {[ case_number_of d ]} ∪ seen) s4) in *.
    destruct (link_parties_links case (case_number_of d) (p :: l) s4')
      as (_ & _ & _ & Hw' & Hall).
    + subst s4'. simpl. by rewrite Hpc, Hp.
    + apply Forall_forall. intros [name role] Hin. simpl.
      eapply parse_parties_names. rewrite Hparse. exact Hin.
    + rewrite E5 in Hw', Hall. simpl in Hw', Hall.
      split; [exact Hall|]. split; [|done].
      rewrite Hw'. subst s4'. simpl. by rewrite Hw, app_nil_r.
Qed.

(** X19, witness: the sample record, which names three parties, on the
    empty store. *)
Lemma accepted_record_links_its_parties_witness :
  let st' := fst (process_docket sample_docket empty_store) in
  exists row,
    cases (db st') !! case_number_of sample_docket = Some row
    /\ Forall (fun p => linked (db st') (case_id row) (fst p) (snd p))
         (parties_of sample_docket)
    /\ warnings st'
       = warnings empty_store
         ++ (if bool_decide (parties_of sample_docket = [])
             then ["No parties for case " +:+ case_number_of sample_docket] else [])
    /\ (parties_of sample_docket = [] ->
        case_parties (db st') = case_parties (db empty_store)).
Proof.
  apply (accepted_record_links_its_parties sample_docket empty_store).
  - vm_compute. reflexivity.
  - intros k id. simpl. by rewrite lookup_empty.
Defined.

Section SelfTest.

Lemma check_cases_tally cases : forall passed failed_,
  snd (fold_left check_case cases (passed, failed_)) = 0
  <-> failed_ = 0
      /\ Forall (fun case => parse_date (Py.Str (fst case)) = Ok (snd case)) cases.
Proof.
  induction cases as [|[input_str expected] cases IH]; intros passed failed_.
  { simpl. split; [by intros ->|by intros [-> _]]. }
  rewrite Forall_cons. cbn [fold_left check_case fst snd].
  destruct (parse_date (Py.Str input_str)) as [result_|e].
  - case_bool_decide as Hr; rewrite IH.
    + subst. tauto.
    + split; [lia|]. intros (_ & [= ?] & _). done.
  - rewrite IH. split; [lia|]. intros (_ & [=] & _).
Qed.

Lemma check_invalid_tally invalid : forall passed failed_,
  snd (fold_left check_invalid invalid (passed, failed_)) = 0
  <-> failed_ = 0 /\ Forall (fun v => forall x, parse_date v <> Ok x) invalid.
Proof.
  induction invalid as [|v invalid IH]; intros passed failed_.
  { simpl. split; [by intros ->|by intros [-> _]]. }
  rewrite Forall_cons. cbn [fold_left check_invalid].
  destruct (parse_date v) as [result_|e].
  - rewrite IH. split; [lia|]. intros (_ & H & _). by destruct (H result_).
  - destruct (Py.is_ValueError e); rewrite IH; naive_solver.
Qed.

End SelfTest.

(** X20. The self-test passes: on its own table it counts fifteen passes
    and no failure and returns [True]. On any table it returns [True]
    exactly when every input of the first list gives the date expected and
    no input of the second list gives a date. *)
Theorem selftest_passes :
  selftest = true
  /\ selftest_tally test_cases invalid_cases = (15, 0)
  /\ forall cases invalid,
       snd (selftest_tally cases invalid) = 0
       <-> Forall (fun case => parse_date (Py.Str (fst case)) = Ok (snd case)) cases
           /\ Forall (fun v => forall x, parse_date v <> Ok x) invalid.
Proof.
  split; [by vm_compute|]. split; [by vm_compute|].
  intros cases invalid. unfold selftest_tally.
  destruct (fold_left check_case cases (0, 0)) as [passed failed_] eqn:E.
  rewrite check_invalid_tally.
  pose proof (check_cases_tally cases 0 0) as H. rewrite E in H. simpl in H.
  tauto.
Qed.
